(** * UE-Portals: the portal scene capture component

    A shallow embedding of [Source/Portals/Private/PortalSceneCapture.cpp]
    and the properties of its refraction bending, clip plane, adaptive
    render size and render-target bookkeeping.

    Conventions of the embedding.
    - [float] and [double] values are idealised as exact rationals ([Q]):
      rounding, infinities and NaN are outside the model.  Conversions to
      [int32]/[uint32] truncate toward zero and wrap, as the C++ casts do.
      The module [Binary32] repeats the distance-to-size computation on
      IEEE binary32 values, to compare the two at given distances.
    - Pointers are [option] of an object identifier; [None] is [nullptr].
      Dereferencing [nullptr] makes the modelled call fail ([None]).
    - The pointers a call obtains from the engine are taken to be valid: a
      [UWorld] always has the camera location that
      [GetWorld()->GetFirstPlayerController()->PlayerCameraManager] gives
      and the actor that [GetOwner()] gives.  The unchecked reads through
      these chains in [UpdateRenderTarget], [GenerateDefaultTexture] and
      [SetOwnerIfAvailable] are therefore not modelled as failures; only
      the component's own pointers ([m_render_target], [m_owner],
      [m_linked_portal]) can be null or dangling.
    - The component's methods run in a small state-and-failure monad over
      the component's fields, the render-target objects and the list of
      captures handed to the renderer.
    - Engine routines whose definition is not part of the repository
      (trigonometry, quaternions, matrices) and the repository's own
      declarations that are not in the translated file ([PortalTools.h],
      accessors of the header) are parameters, bundled in two classes. *)

From Stdlib Require Import ZArith QArith Qabs Qround Qminmax Lia Lqa.
From Stdlib Require Import Bool List String.
From Stdlib Require Import Floats.SpecFloat.
From stdpp Require Import base option gmap.

Local Open Scope Z_scope.

(** ** Scalars: the comparison used by the [FMath] templates *)

(** [operator<] of the instantiating type of an [FMath] template. *)
Class Less (T : Type) := less : T -> T -> bool.

#[global] Instance Less_Z : Less Z := Z.ltb.
#[global] Instance Less_Q : Less Q := fun a b => negb (Qle_bool b a).

Module FMath.

(** [FMath::Max(A, B)] is [(B < A) ? A : B]. *)
Definition Max {T} `{Less T} (A B : T) : T := if less B A then A else B.

(** [FMath::Min(A, B)] is [(A < B) ? A : B]. *)
Definition Min {T} `{Less T} (A B : T) : T := if less A B then A else B.

(** [FMath::Clamp(X, MinValue, MaxValue)] is
    [Max(Min(X, MaxValue), MinValue)] in the engine's current sources; the
    statements below that involve it are made for ordered bounds, where the
    earlier form of the template computes the same value (lemma
    [Clamp_Z_ternary]). *)
Definition Clamp {T} `{Less T} (X MinValue MaxValue : T) : T :=
  Max (Min X MaxValue) MinValue.

(** The cast [(int32)f] of a floating value: truncation toward zero,
    wrapped into the 32-bit two's complement range. *)
Definition wrap_int32 (z : Z) : Z := (z + 2 ^ 31) mod 2 ^ 32 - 2 ^ 31.
Definition wrap_uint32 (z : Z) : Z := z mod 2 ^ 32.
Definition TruncToInt (f : Q) : Z := wrap_int32 (Qnum f ÷ Zpos (Qden f)).
Definition TruncToUInt (f : Q) : Z := wrap_uint32 (Qnum f ÷ Zpos (Qden f)).

(** The cast [(float)i]. *)
Definition IntToFloat (i : Z) : Q := inject_Z i.

(** [FMath::Lerp<int32, float>(A, B, Alpha)] is
    [(int32)(A + Alpha * (B - A))]: the sum is formed in [float] and cast
    back to the integer type. *)
Definition Lerp (A B : Z) (Alpha : Q) : Z :=
  TruncToInt (IntToFloat A + Alpha * IntToFloat (B - A))%Q.

(** [FMath::CeilLogTwo(Arg)]: 0 for [Arg <= 1], else
    [32 - CountLeadingZeros(Arg - 1)]. *)
Definition CeilLogTwo (Arg : Z) : Z := Z.log2_up Arg.

(** [FMath::RoundUpToPowerOfTwo(uint32 Arg)] is [1 << CeilLogTwo(Arg)],
    a [uint32]. *)
Definition RoundUpToPowerOfTwo (Arg : Z) : Z :=
  wrap_uint32 (Z.shiftl 1 (CeilLogTwo Arg)).

(** [FMath::Abs] on [float]. *)
Definition Abs (f : Q) : Q := Qabs f.

End FMath.

(** ** Engine value types *)

Record FVector := { X : Q; Y : Q; Z_ : Q }.
Record FVector2D := { X2 : Q; Y2 : Q }.
Record FRotator := { Pitch : Q; Yaw : Q; Roll : Q }.
Record FQuat := { QX : Q; QY : Q; QZ : Q; QW : Q }.
Record FPlane := { PX : Q; PY : Q; PZ : Q; PW : Q }.
Record FMatrix := { M : list (list Q) }.
Record FTransform :=
  { Rotation : FQuat; Translation : FVector; Scale3D : FVector }.

Module Vec.
(** [FVector::operator+], unary [operator-] and [operator*(Scale)]. *)
Definition add (a b : FVector) : FVector :=
  {| X := X a + X b; Y := Y a + Y b; Z_ := Z_ a + Z_ b |}%Q.
Definition neg (a : FVector) : FVector :=
  {| X := - X a; Y := - Y a; Z_ := - Z_ a |}%Q.
Definition scale (a : FVector) (k : Q) : FVector :=
  {| X := X a * k; Y := Y a * k; Z_ := Z_ a * k |}%Q.
(** [Scale * V], the free [operator*]. *)
Definition lscale (k : Q) (a : FVector) : FVector := scale a k.
(** Component-wise equality of the rational values. *)
Definition equiv (a b : FVector) : Prop :=
  (X a == X b /\ Y a == Y b /\ Z_ a == Z_ b)%Q.
End Vec.

(** [FTransform::GetLocation], [SetLocation], [GetRotation], [SetRotation]. *)
Definition GetLocation (t : FTransform) : FVector := Translation t.
Definition GetRotation (t : FTransform) : FQuat := Rotation t.
Definition SetLocation (t : FTransform) (v : FVector) : FTransform :=
  {| Rotation := Rotation t; Translation := v; Scale3D := Scale3D t |}.
Definition SetRotation (t : FTransform) (q : FQuat) : FTransform :=
  {| Rotation := q; Translation := Translation t; Scale3D := Scale3D t |}.

(** ** The world the component lives in *)

(** The viewport client: [GetViewportSize] reports [ViewportSize]. *)
Record UGameViewportClient := { ViewportSize : FVector2D }.
Record UEngine := { GameViewport : option UGameViewportClient }.

(** What the component reads of an [APortal] actor. *)
Record APortal :=
  { ActorLocation : FVector;
    ActorForwardVector : FVector;
    MiddlePoint : FVector }.

(** The actor returned by [GetOwner()]: an [APortal] (then [IsA] holds and
    the cast yields its identifier) or some other actor. *)
Inductive AActor := PortalActor (id : nat) | OtherActor.

(** What a call reads of its surroundings: [GEngine], the camera location
    of the first player controller's camera manager, the portal actors by
    identifier, and the owning actor.  The camera manager and the owning
    actor always exist here. *)
Record UWorld :=
  { GEngine : option UEngine;
    CameraLocation : FVector;
    Portals : gmap nat APortal;
    Owner : AActor }.

(** ** Adaptive render size *)

Definition NearDistance : Q := 300.
Definition FarDistance : Q := 2000.
Definition MaxTextureSize : Z := 1024.
Definition MinTextureSize : Z := 256.

(** [UPortalSceneCapture::CalculateRenderSize]. *)
Definition CalculateRenderSize (w : UWorld) (Distance : Q) : Z :=
  let Alpha :=
    FMath.Clamp ((Distance - NearDistance) / (FarDistance - NearDistance))%Q
                0%Q 1%Q in
  let Size := FMath.Lerp MaxTextureSize MinTextureSize Alpha in
  let Size :=
    FMath.wrap_int32 (FMath.RoundUpToPowerOfTwo (FMath.wrap_uint32 Size)) in
  match GEngine w with
  | Some engine =>
      match GameViewport engine with
      | Some viewport =>
          let ViewportSize := ViewportSize viewport in
          let ScreenMin :=
            FMath.wrap_int32
              (FMath.RoundUpToPowerOfTwo
                 (FMath.TruncToUInt
                    (FMath.Min (X2 ViewportSize) (Y2 ViewportSize)))) in
          FMath.Clamp Size MinTextureSize ScreenMin
      | None => Size
      end
  | None => Size
  end.


(** The interpolated value before the cast. *)
Definition LerpValue (Alpha : Q) : Q :=
  (FMath.IntToFloat MaxTextureSize
   + Alpha * FMath.IntToFloat (MinTextureSize - MaxTextureSize))%Q.

(** The size after rounding, as a function of the interpolated integer. *)
Definition RoundedSize (Size : Z) : Z :=
  FMath.wrap_int32 (FMath.RoundUpToPowerOfTwo (FMath.wrap_uint32 Size)).

(** ** Render targets *)

Inductive FName := NAME_None | Name (s : string).

Definition IsNone (n : FName) : bool :=
  match n with NAME_None => true | Name _ => false end.

Inductive ETextureRenderTargetFormat :=
  RTF_R8 | RTF_RG8 | RTF_RGBA8 | RTF_RGBA16f | RTF_RGBA32f.
Inductive TextureFilter := TF_Nearest | TF_Bilinear | TF_Trilinear | TF_Default.
Inductive TextureAddress := TA_Wrap | TA_Clamp | TA_Mirror.

Record FLinearColor := { R : Q; G : Q; B : Q; A : Q }.

Module LinearColor.
Definition Black : FLinearColor := {| R := 0; G := 0; B := 0; A := 1 |}.
Definition Blue : FLinearColor := {| R := 0; G := 0; B := 1; A := 1 |}.
End LinearColor.

(** The properties of a [UTextureRenderTarget2D] the component sets. *)
Record UTextureRenderTarget2D :=
  { ObjectName : FName;
    RenderTargetFormat : ETextureRenderTargetFormat;
    Filter : TextureFilter;
    SizeX : Z;
    SizeY : Z;
    ClearColor : FLinearColor;
    TargetGamma : Q;
    bNeedsTwoCopies : bool;
    AddressX : TextureAddress;
    AddressY : TextureAddress;
    bAutoGenerateMips : bool }.

Definition set_ObjectName (v : FName) (o : UTextureRenderTarget2D)
  : UTextureRenderTarget2D :=
  {| ObjectName := v; RenderTargetFormat := RenderTargetFormat o;
     Filter := Filter o; SizeX := SizeX o; SizeY := SizeY o;
     ClearColor := ClearColor o; TargetGamma := TargetGamma o;
     bNeedsTwoCopies := bNeedsTwoCopies o; AddressX := AddressX o;
     AddressY := AddressY o; bAutoGenerateMips := bAutoGenerateMips o |}.

Definition set_RenderTargetFormat (v : ETextureRenderTargetFormat) (o : UTextureRenderTarget2D)
  : UTextureRenderTarget2D :=
  {| ObjectName := ObjectName o; RenderTargetFormat := v;
     Filter := Filter o; SizeX := SizeX o; SizeY := SizeY o;
     ClearColor := ClearColor o; TargetGamma := TargetGamma o;
     bNeedsTwoCopies := bNeedsTwoCopies o; AddressX := AddressX o;
     AddressY := AddressY o; bAutoGenerateMips := bAutoGenerateMips o |}.

Definition set_Filter (v : TextureFilter) (o : UTextureRenderTarget2D)
  : UTextureRenderTarget2D :=
  {| ObjectName := ObjectName o;
     RenderTargetFormat := RenderTargetFormat o; Filter := v;
     SizeX := SizeX o; SizeY := SizeY o; ClearColor := ClearColor o;
     TargetGamma := TargetGamma o; bNeedsTwoCopies := bNeedsTwoCopies o;
     AddressX := AddressX o; AddressY := AddressY o;
     bAutoGenerateMips := bAutoGenerateMips o |}.

Definition set_SizeX (v : Z) (o : UTextureRenderTarget2D)
  : UTextureRenderTarget2D :=
  {| ObjectName := ObjectName o;
     RenderTargetFormat := RenderTargetFormat o; Filter := Filter o;
     SizeX := v; SizeY := SizeY o; ClearColor := ClearColor o;
     TargetGamma := TargetGamma o; bNeedsTwoCopies := bNeedsTwoCopies o;
     AddressX := AddressX o; AddressY := AddressY o;
     bAutoGenerateMips := bAutoGenerateMips o |}.

Definition set_SizeY (v : Z) (o : UTextureRenderTarget2D)
  : UTextureRenderTarget2D :=
  {| ObjectName := ObjectName o;
     RenderTargetFormat := RenderTargetFormat o; Filter := Filter o;
     SizeX := SizeX o; SizeY := v; ClearColor := ClearColor o;
     TargetGamma := TargetGamma o; bNeedsTwoCopies := bNeedsTwoCopies o;
     AddressX := AddressX o; AddressY := AddressY o;
     bAutoGenerateMips := bAutoGenerateMips o |}.

Definition set_ClearColor (v : FLinearColor) (o : UTextureRenderTarget2D)
  : UTextureRenderTarget2D :=
  {| ObjectName := ObjectName o;
     RenderTargetFormat := RenderTargetFormat o; Filter := Filter o;
     SizeX := SizeX o; SizeY := SizeY o; ClearColor := v;
     TargetGamma := TargetGamma o; bNeedsTwoCopies := bNeedsTwoCopies o;
     AddressX := AddressX o; AddressY := AddressY o;
     bAutoGenerateMips := bAutoGenerateMips o |}.

Definition set_TargetGamma (v : Q) (o : UTextureRenderTarget2D)
  : UTextureRenderTarget2D :=
  {| ObjectName := ObjectName o;
     RenderTargetFormat := RenderTargetFormat o; Filter := Filter o;
     SizeX := SizeX o; SizeY := SizeY o; ClearColor := ClearColor o;
     TargetGamma := v; bNeedsTwoCopies := bNeedsTwoCopies o;
     AddressX := AddressX o; AddressY := AddressY o;
     bAutoGenerateMips := bAutoGenerateMips o |}.

Definition set_bNeedsTwoCopies (v : bool) (o : UTextureRenderTarget2D)
  : UTextureRenderTarget2D :=
  {| ObjectName := ObjectName o;
     RenderTargetFormat := RenderTargetFormat o; Filter := Filter o;
     SizeX := SizeX o; SizeY := SizeY o; ClearColor := ClearColor o;
     TargetGamma := TargetGamma o; bNeedsTwoCopies := v;
     AddressX := AddressX o; AddressY := AddressY o;
     bAutoGenerateMips := bAutoGenerateMips o |}.

Definition set_AddressX (v : TextureAddress) (o : UTextureRenderTarget2D)
  : UTextureRenderTarget2D :=
  {| ObjectName := ObjectName o;
     RenderTargetFormat := RenderTargetFormat o; Filter := Filter o;
     SizeX := SizeX o; SizeY := SizeY o; ClearColor := ClearColor o;
     TargetGamma := TargetGamma o; bNeedsTwoCopies := bNeedsTwoCopies o;
     AddressX := v; AddressY := AddressY o;
     bAutoGenerateMips := bAutoGenerateMips o |}.

Definition set_AddressY (v : TextureAddress) (o : UTextureRenderTarget2D)
  : UTextureRenderTarget2D :=
  {| ObjectName := ObjectName o;
     RenderTargetFormat := RenderTargetFormat o; Filter := Filter o;
     SizeX := SizeX o; SizeY := SizeY o; ClearColor := ClearColor o;
     TargetGamma := TargetGamma o; bNeedsTwoCopies := bNeedsTwoCopies o;
     AddressX := AddressX o; AddressY := v;
     bAutoGenerateMips := bAutoGenerateMips o |}.

Definition set_bAutoGenerateMips (v : bool) (o : UTextureRenderTarget2D)
  : UTextureRenderTarget2D :=
  {| ObjectName := ObjectName o;
     RenderTargetFormat := RenderTargetFormat o; Filter := Filter o;
     SizeX := SizeX o; SizeY := SizeY o; ClearColor := ClearColor o;
     TargetGamma := TargetGamma o; bNeedsTwoCopies := bNeedsTwoCopies o;
     AddressX := AddressX o; AddressY := AddressY o; bAutoGenerateMips := v |}.

(** [UTextureRenderTarget2D::InitAutoFormat(InSizeX, InSizeY)]. *)
Definition InitAutoFormat (InSizeX InSizeY : Z)
    (o : UTextureRenderTarget2D) : UTextureRenderTarget2D :=
  set_SizeY InSizeY (set_SizeX InSizeX o).

(** ** The component *)

(** Modelled from the spec: the enumeration [ECameraType], declared in the
    header of the component, with the two tags the data model lists. *)
Inductive ECameraType := Mirror | Portal.

Definition ECameraType_eqb (a b : ECameraType) : bool :=
  match a, b with
  | Mirror, Mirror | Portal, Portal => true
  | _, _ => false
  end.

(** The members of [UPortalSceneCapture] and those it uses of its bases
    [USceneCaptureComponent2D] ([TextureTarget], [CustomProjectionMatrix],
    [ClipPlaneNormal], [ClipPlaneBase]) and [USceneComponent]
    ([ComponentToWorld], read by [GetComponentLocation] and written by
    [SetWorldTransform]). *)
Record UPortalSceneCapture :=
  { m_type : ECameraType;
    m_linked_portal : option nat;
    m_owner : option nat;
    m_exit_in_front : bool;
    m_weight : Q;
    m_refractive_ind_1 : Q;
    m_refractive_ind_2 : Q;
    m_is_total_reflection : bool;
    m_render_target : option nat;
    CachedRenderSize : Z;
    LastDistanceToCamera : Q;
    TextureTarget : option nat;
    CustomProjectionMatrix : FMatrix;
    ClipPlaneNormal : FVector;
    ClipPlaneBase : FVector;
    ComponentToWorld : FTransform }.

Definition set_m_type (v : ECameraType) (o : UPortalSceneCapture)
  : UPortalSceneCapture :=
  {| m_type := v; m_linked_portal := m_linked_portal o;
     m_owner := m_owner o; m_exit_in_front := m_exit_in_front o;
     m_weight := m_weight o; m_refractive_ind_1 := m_refractive_ind_1 o;
     m_refractive_ind_2 := m_refractive_ind_2 o;
     m_is_total_reflection := m_is_total_reflection o;
     m_render_target := m_render_target o;
     CachedRenderSize := CachedRenderSize o;
     LastDistanceToCamera := LastDistanceToCamera o;
     TextureTarget := TextureTarget o;
     CustomProjectionMatrix := CustomProjectionMatrix o;
     ClipPlaneNormal := ClipPlaneNormal o;
     ClipPlaneBase := ClipPlaneBase o;
     ComponentToWorld := ComponentToWorld o |}.

Definition set_m_linked_portal (v : option nat) (o : UPortalSceneCapture)
  : UPortalSceneCapture :=
  {| m_type := m_type o; m_linked_portal := v; m_owner := m_owner o;
     m_exit_in_front := m_exit_in_front o; m_weight := m_weight o;
     m_refractive_ind_1 := m_refractive_ind_1 o;
     m_refractive_ind_2 := m_refractive_ind_2 o;
     m_is_total_reflection := m_is_total_reflection o;
     m_render_target := m_render_target o;
     CachedRenderSize := CachedRenderSize o;
     LastDistanceToCamera := LastDistanceToCamera o;
     TextureTarget := TextureTarget o;
     CustomProjectionMatrix := CustomProjectionMatrix o;
     ClipPlaneNormal := ClipPlaneNormal o;
     ClipPlaneBase := ClipPlaneBase o;
     ComponentToWorld := ComponentToWorld o |}.

Definition set_m_owner (v : option nat) (o : UPortalSceneCapture)
  : UPortalSceneCapture :=
  {| m_type := m_type o; m_linked_portal := m_linked_portal o;
     m_owner := v; m_exit_in_front := m_exit_in_front o;
     m_weight := m_weight o; m_refractive_ind_1 := m_refractive_ind_1 o;
     m_refractive_ind_2 := m_refractive_ind_2 o;
     m_is_total_reflection := m_is_total_reflection o;
     m_render_target := m_render_target o;
     CachedRenderSize := CachedRenderSize o;
     LastDistanceToCamera := LastDistanceToCamera o;
     TextureTarget := TextureTarget o;
     CustomProjectionMatrix := CustomProjectionMatrix o;
     ClipPlaneNormal := ClipPlaneNormal o;
     ClipPlaneBase := ClipPlaneBase o;
     ComponentToWorld := ComponentToWorld o |}.

Definition set_m_exit_in_front (v : bool) (o : UPortalSceneCapture)
  : UPortalSceneCapture :=
  {| m_type := m_type o; m_linked_portal := m_linked_portal o;
     m_owner := m_owner o; m_exit_in_front := v; m_weight := m_weight o;
     m_refractive_ind_1 := m_refractive_ind_1 o;
     m_refractive_ind_2 := m_refractive_ind_2 o;
     m_is_total_reflection := m_is_total_reflection o;
     m_render_target := m_render_target o;
     CachedRenderSize := CachedRenderSize o;
     LastDistanceToCamera := LastDistanceToCamera o;
     TextureTarget := TextureTarget o;
     CustomProjectionMatrix := CustomProjectionMatrix o;
     ClipPlaneNormal := ClipPlaneNormal o;
     ClipPlaneBase := ClipPlaneBase o;
     ComponentToWorld := ComponentToWorld o |}.

Definition set_m_weight (v : Q) (o : UPortalSceneCapture)
  : UPortalSceneCapture :=
  {| m_type := m_type o; m_linked_portal := m_linked_portal o;
     m_owner := m_owner o; m_exit_in_front := m_exit_in_front o;
     m_weight := v; m_refractive_ind_1 := m_refractive_ind_1 o;
     m_refractive_ind_2 := m_refractive_ind_2 o;
     m_is_total_reflection := m_is_total_reflection o;
     m_render_target := m_render_target o;
     CachedRenderSize := CachedRenderSize o;
     LastDistanceToCamera := LastDistanceToCamera o;
     TextureTarget := TextureTarget o;
     CustomProjectionMatrix := CustomProjectionMatrix o;
     ClipPlaneNormal := ClipPlaneNormal o;
     ClipPlaneBase := ClipPlaneBase o;
     ComponentToWorld := ComponentToWorld o |}.

Definition set_m_refractive_ind_1 (v : Q) (o : UPortalSceneCapture)
  : UPortalSceneCapture :=
  {| m_type := m_type o; m_linked_portal := m_linked_portal o;
     m_owner := m_owner o; m_exit_in_front := m_exit_in_front o;
     m_weight := m_weight o; m_refractive_ind_1 := v;
     m_refractive_ind_2 := m_refractive_ind_2 o;
     m_is_total_reflection := m_is_total_reflection o;
     m_render_target := m_render_target o;
     CachedRenderSize := CachedRenderSize o;
     LastDistanceToCamera := LastDistanceToCamera o;
     TextureTarget := TextureTarget o;
     CustomProjectionMatrix := CustomProjectionMatrix o;
     ClipPlaneNormal := ClipPlaneNormal o;
     ClipPlaneBase := ClipPlaneBase o;
     ComponentToWorld := ComponentToWorld o |}.

Definition set_m_refractive_ind_2 (v : Q) (o : UPortalSceneCapture)
  : UPortalSceneCapture :=
  {| m_type := m_type o; m_linked_portal := m_linked_portal o;
     m_owner := m_owner o; m_exit_in_front := m_exit_in_front o;
     m_weight := m_weight o; m_refractive_ind_1 := m_refractive_ind_1 o;
     m_refractive_ind_2 := v;
     m_is_total_reflection := m_is_total_reflection o;
     m_render_target := m_render_target o;
     CachedRenderSize := CachedRenderSize o;
     LastDistanceToCamera := LastDistanceToCamera o;
     TextureTarget := TextureTarget o;
     CustomProjectionMatrix := CustomProjectionMatrix o;
     ClipPlaneNormal := ClipPlaneNormal o;
     ClipPlaneBase := ClipPlaneBase o;
     ComponentToWorld := ComponentToWorld o |}.

Definition set_m_is_total_reflection (v : bool) (o : UPortalSceneCapture)
  : UPortalSceneCapture :=
  {| m_type := m_type o; m_linked_portal := m_linked_portal o;
     m_owner := m_owner o; m_exit_in_front := m_exit_in_front o;
     m_weight := m_weight o; m_refractive_ind_1 := m_refractive_ind_1 o;
     m_refractive_ind_2 := m_refractive_ind_2 o;
     m_is_total_reflection := v; m_render_target := m_render_target o;
     CachedRenderSize := CachedRenderSize o;
     LastDistanceToCamera := LastDistanceToCamera o;
     TextureTarget := TextureTarget o;
     CustomProjectionMatrix := CustomProjectionMatrix o;
     ClipPlaneNormal := ClipPlaneNormal o;
     ClipPlaneBase := ClipPlaneBase o;
     ComponentToWorld := ComponentToWorld o |}.

Definition set_m_render_target (v : option nat) (o : UPortalSceneCapture)
  : UPortalSceneCapture :=
  {| m_type := m_type o; m_linked_portal := m_linked_portal o;
     m_owner := m_owner o; m_exit_in_front := m_exit_in_front o;
     m_weight := m_weight o; m_refractive_ind_1 := m_refractive_ind_1 o;
     m_refractive_ind_2 := m_refractive_ind_2 o;
     m_is_total_reflection := m_is_total_reflection o;
     m_render_target := v; CachedRenderSize := CachedRenderSize o;
     LastDistanceToCamera := LastDistanceToCamera o;
     TextureTarget := TextureTarget o;
     CustomProjectionMatrix := CustomProjectionMatrix o;
     ClipPlaneNormal := ClipPlaneNormal o;
     ClipPlaneBase := ClipPlaneBase o;
     ComponentToWorld := ComponentToWorld o |}.

Definition set_CachedRenderSize (v : Z) (o : UPortalSceneCapture)
  : UPortalSceneCapture :=
  {| m_type := m_type o; m_linked_portal := m_linked_portal o;
     m_owner := m_owner o; m_exit_in_front := m_exit_in_front o;
     m_weight := m_weight o; m_refractive_ind_1 := m_refractive_ind_1 o;
     m_refractive_ind_2 := m_refractive_ind_2 o;
     m_is_total_reflection := m_is_total_reflection o;
     m_render_target := m_render_target o; CachedRenderSize := v;
     LastDistanceToCamera := LastDistanceToCamera o;
     TextureTarget := TextureTarget o;
     CustomProjectionMatrix := CustomProjectionMatrix o;
     ClipPlaneNormal := ClipPlaneNormal o;
     ClipPlaneBase := ClipPlaneBase o;
     ComponentToWorld := ComponentToWorld o |}.

Definition set_LastDistanceToCamera (v : Q) (o : UPortalSceneCapture)
  : UPortalSceneCapture :=
  {| m_type := m_type o; m_linked_portal := m_linked_portal o;
     m_owner := m_owner o; m_exit_in_front := m_exit_in_front o;
     m_weight := m_weight o; m_refractive_ind_1 := m_refractive_ind_1 o;
     m_refractive_ind_2 := m_refractive_ind_2 o;
     m_is_total_reflection := m_is_total_reflection o;
     m_render_target := m_render_target o;
     CachedRenderSize := CachedRenderSize o; LastDistanceToCamera := v;
     TextureTarget := TextureTarget o;
     CustomProjectionMatrix := CustomProjectionMatrix o;
     ClipPlaneNormal := ClipPlaneNormal o;
     ClipPlaneBase := ClipPlaneBase o;
     ComponentToWorld := ComponentToWorld o |}.

Definition set_TextureTarget (v : option nat) (o : UPortalSceneCapture)
  : UPortalSceneCapture :=
  {| m_type := m_type o; m_linked_portal := m_linked_portal o;
     m_owner := m_owner o; m_exit_in_front := m_exit_in_front o;
     m_weight := m_weight o; m_refractive_ind_1 := m_refractive_ind_1 o;
     m_refractive_ind_2 := m_refractive_ind_2 o;
     m_is_total_reflection := m_is_total_reflection o;
     m_render_target := m_render_target o;
     CachedRenderSize := CachedRenderSize o;
     LastDistanceToCamera := LastDistanceToCamera o; TextureTarget := v;
     CustomProjectionMatrix := CustomProjectionMatrix o;
     ClipPlaneNormal := ClipPlaneNormal o;
     ClipPlaneBase := ClipPlaneBase o;
     ComponentToWorld := ComponentToWorld o |}.

Definition set_CustomProjectionMatrix (v : FMatrix) (o : UPortalSceneCapture)
  : UPortalSceneCapture :=
  {| m_type := m_type o; m_linked_portal := m_linked_portal o;
     m_owner := m_owner o; m_exit_in_front := m_exit_in_front o;
     m_weight := m_weight o; m_refractive_ind_1 := m_refractive_ind_1 o;
     m_refractive_ind_2 := m_refractive_ind_2 o;
     m_is_total_reflection := m_is_total_reflection o;
     m_render_target := m_render_target o;
     CachedRenderSize := CachedRenderSize o;
     LastDistanceToCamera := LastDistanceToCamera o;
     TextureTarget := TextureTarget o; CustomProjectionMatrix := v;
     ClipPlaneNormal := ClipPlaneNormal o;
     ClipPlaneBase := ClipPlaneBase o;
     ComponentToWorld := ComponentToWorld o |}.

Definition set_ClipPlaneNormal (v : FVector) (o : UPortalSceneCapture)
  : UPortalSceneCapture :=
  {| m_type := m_type o; m_linked_portal := m_linked_portal o;
     m_owner := m_owner o; m_exit_in_front := m_exit_in_front o;
     m_weight := m_weight o; m_refractive_ind_1 := m_refractive_ind_1 o;
     m_refractive_ind_2 := m_refractive_ind_2 o;
     m_is_total_reflection := m_is_total_reflection o;
     m_render_target := m_render_target o;
     CachedRenderSize := CachedRenderSize o;
     LastDistanceToCamera := LastDistanceToCamera o;
     TextureTarget := TextureTarget o;
     CustomProjectionMatrix := CustomProjectionMatrix o;
     ClipPlaneNormal := v; ClipPlaneBase := ClipPlaneBase o;
     ComponentToWorld := ComponentToWorld o |}.

Definition set_ClipPlaneBase (v : FVector) (o : UPortalSceneCapture)
  : UPortalSceneCapture :=
  {| m_type := m_type o; m_linked_portal := m_linked_portal o;
     m_owner := m_owner o; m_exit_in_front := m_exit_in_front o;
     m_weight := m_weight o; m_refractive_ind_1 := m_refractive_ind_1 o;
     m_refractive_ind_2 := m_refractive_ind_2 o;
     m_is_total_reflection := m_is_total_reflection o;
     m_render_target := m_render_target o;
     CachedRenderSize := CachedRenderSize o;
     LastDistanceToCamera := LastDistanceToCamera o;
     TextureTarget := TextureTarget o;
     CustomProjectionMatrix := CustomProjectionMatrix o;
     ClipPlaneNormal := ClipPlaneNormal o; ClipPlaneBase := v;
     ComponentToWorld := ComponentToWorld o |}.

Definition set_ComponentToWorld (v : FTransform) (o : UPortalSceneCapture)
  : UPortalSceneCapture :=
  {| m_type := m_type o; m_linked_portal := m_linked_portal o;
     m_owner := m_owner o; m_exit_in_front := m_exit_in_front o;
     m_weight := m_weight o; m_refractive_ind_1 := m_refractive_ind_1 o;
     m_refractive_ind_2 := m_refractive_ind_2 o;
     m_is_total_reflection := m_is_total_reflection o;
     m_render_target := m_render_target o;
     CachedRenderSize := CachedRenderSize o;
     LastDistanceToCamera := LastDistanceToCamera o;
     TextureTarget := TextureTarget o;
     CustomProjectionMatrix := CustomProjectionMatrix o;
     ClipPlaneNormal := ClipPlaneNormal o;
     ClipPlaneBase := ClipPlaneBase o; ComponentToWorld := v |}.

Definition GetComponentLocation (c : UPortalSceneCapture) : FVector :=
  GetLocation (ComponentToWorld c).

(** What one call of [CaptureScene()] hands to the renderer. *)
Record FSceneCapture :=
  { CapturePose : FTransform;
    CaptureProjection : FMatrix;
    CaptureTarget : option nat;
    CaptureClipNormal : FVector;
    CaptureClipBase : FVector }.

(** The mutable state a method call works on: the component ([this]), the
    render-target objects created so far, and the captures performed. *)
Record State :=
  { this : UPortalSceneCapture;
    Objects : gmap nat UTextureRenderTarget2D;
    Captures : list FSceneCapture }.

(** ** Parameters: the engine and the declarations outside the file *)

(** Engine routines the component calls. *)
Class Engine :=
  { (** [FVector::Dist] *)
    FVector_Dist : FVector -> FVector -> Q;
    (** the value of a vector after [FVector::Normalize()] *)
    FVector_Normalize : FVector -> FVector;
    (** [FPlane(A, B, C)] *)
    FPlane_FromPoints : FVector -> FVector -> FVector -> FPlane;
    (** [FPlane::GetNormal] *)
    FPlane_GetNormal : FPlane -> FVector;
    (** [FMath::DegreesToRadians] *)
    DegreesToRadians : Q -> Q;
    (** [FQuat(Axis, AngleRad)] *)
    FQuat_FromAxisAngle : FVector -> Q -> FQuat;
    (** [FQuat::Rotator] *)
    FQuat_Rotator : FQuat -> FRotator;
    (** [FQuat(const FRotator&)] *)
    FQuat_FromRotator : FRotator -> FQuat;
    (** [FQuat::operator*] *)
    FQuat_Mul : FQuat -> FQuat -> FQuat;
    (** [FRotationAboutPointMatrix(Rot, Origin)] *)
    FRotationAboutPointMatrix : FRotator -> FVector -> FMatrix;
    (** [FMatrix::TransformPosition] *)
    TransformPosition : FMatrix -> FVector -> FVector;
    (** the property values of a newly constructed render target *)
    ClassDefaultRenderTarget : UTextureRenderTarget2D }.

(** Declarations of the repository that the translated file uses and does
    not define: the type accessors of the component's header and the
    helpers of [PortalTools.h]. *)
Class PortalDecls :=
  { getType : UPortalSceneCapture -> ECameraType;
    GetTrueType : UPortalSceneCapture -> ECameraType;
    (** [Tools::ComputeIncidenceAngle(point, portal_mid, portal_normal)] *)
    ComputeIncidenceAngle : FVector -> FVector -> FVector -> Q;
    (** [Tools::ComputeRefractionAngle(incidence_angle, n1, n2)] *)
    ComputeRefractionAngle : Q -> Q -> Q -> Q;
    (** [Tools::ComputeNewTransform(transfo, portal, scene_capture)] *)
    ComputeNewTransform :
      FTransform -> UWorld -> option nat -> UPortalSceneCapture -> FTransform }.

(** ** The method monad *)

Definition Method (T : Type) : Type := State -> option (T * State).

Definition ret {T} (x : T) : Method T := fun s => Some (x, s).

Definition bind {T U} (c : Method T) (k : T -> Method U) : Method U :=
  fun s => match c s with
           | Some (x, s') => k x s'
           | None => None
           end.

(** A null or dangling pointer was dereferenced. *)
Definition fault {T} : Method T := fun _ => None.

Declare Scope method_scope.
Delimit Scope method_scope with method.
Notation "'let*' x ':=' c 'in' k" := (bind c (fun x => k))
  (at level 10, x name, c at level 100, k at level 200) : method_scope.
Notation "c '>>' k" := (bind c (fun _ => k))
  (at level 100, k at level 200, right associativity) : method_scope.

Local Open Scope method_scope.

Definition get_this : Method UPortalSceneCapture := fun s => Some (this s, s).

(** An assignment to a member of the component. *)
Definition assign (f : UPortalSceneCapture -> UPortalSceneCapture) : Method unit :=
  fun s => Some (tt, {| this := f (this s);
                        Objects := Objects s;
                        Captures := Captures s |}).

(** [NewObject<UTextureRenderTarget2D>(this, ...)]: a new object, distinct
    from every existing one, holding the given initial properties. *)
Definition NewObject (o : UTextureRenderTarget2D) : Method nat :=
  fun s =>
    let p := fresh (dom (Objects s)) in
    Some (p, {| this := this s;
                Objects := <[p := o]> (Objects s);
                Captures := Captures s |}).

(** Reading through a render-target pointer. *)
Definition load (p : nat) : Method UTextureRenderTarget2D :=
  fun s => match Objects s !! p with
           | Some o => Some (o, s)
           | None => None
           end.

(** Writing a property through a render-target pointer. *)
Definition store (p : nat)
    (f : UTextureRenderTarget2D -> UTextureRenderTarget2D) : Method unit :=
  fun s => match Objects s !! p with
           | Some o => Some (tt, {| this := this s;
                                    Objects := <[p := f o]> (Objects s);
                                    Captures := Captures s |})
           | None => None
           end.

(** Reading through an [APortal*]. *)
Definition portal_at (w : UWorld) (p : option nat) : Method APortal :=
  match p with
  | Some id => match Portals w !! id with
               | Some a => ret a
               | None => fault
               end
  | None => fault
  end.

(** [USceneCaptureComponent2D::CaptureScene()]: the renderer receives the
    component's current pose, projection, target and clip plane. *)
Definition CaptureScene : Method unit :=
  fun s =>
    let c := this s in
    Some (tt, {| this := c;
                 Objects := Objects s;
                 Captures :=
                   Captures s ++
                   [ {| CapturePose := ComponentToWorld c;
                        CaptureProjection := CustomProjectionMatrix c;
                        CaptureTarget := TextureTarget c;
                        CaptureClipNormal := ClipPlaneNormal c;
                        CaptureClipBase := ClipPlaneBase c |} ] |}).

(** ** The methods of [UPortalSceneCapture] *)

Section Methods.

Context {engine : Engine} {decls : PortalDecls}.

(** The constructor: [CachedRenderSize = 0; LastDistanceToCamera = 0.0f]. *)
Definition Construct (c : UPortalSceneCapture) : UPortalSceneCapture :=
  set_LastDistanceToCamera 0%Q (set_CachedRenderSize 0 c).

(** [UPortalSceneCapture::GenerateDefaultTexture]. *)
Definition GenerateDefaultTexture (w : UWorld) : Method unit :=
  let* c := get_this in
  let Distance := LastDistanceToCamera c in
  let Distance :=
    if Qeq_bool Distance 0
    then FVector_Dist (CameraLocation w) (GetComponentLocation c)
    else Distance in
  let CurrentSize := CalculateRenderSize w Distance in
  assign (set_CachedRenderSize CurrentSize) >>
  let* target :=
    NewObject (set_ObjectName (Name "Default texture")
                              ClassDefaultRenderTarget) in
  assign (set_m_render_target (Some target)) >>
  store target (set_RenderTargetFormat RTF_RGBA16f) >>
  store target (set_Filter TF_Bilinear) >>
  store target (set_SizeX CurrentSize) >>
  store target (set_SizeY CurrentSize) >>
  store target (set_ClearColor LinearColor.Blue) >>
  store target (set_TargetGamma (22 # 10)) >>
  store target (set_bNeedsTwoCopies false) >>
  store target (set_AddressX TA_Clamp) >>
  store target (set_AddressY TA_Clamp) >>
  store target (set_bAutoGenerateMips false).

(** [UPortalSceneCapture::SetOwnerIfAvailable]. *)
Definition SetOwnerIfAvailable (w : UWorld) : Method bool :=
  match Owner w with
  | PortalActor id => assign (set_m_owner (Some id)) >> ret true
  | OtherActor => ret false
  end.

(** [UPortalSceneCapture::IsOwnerValid]:
    [m_owner || SetOwnerIfAvailable()]. *)
Definition IsOwnerValid (w : UWorld) : Method bool :=
  let* c := get_this in
  match m_owner c with
  | Some _ => ret true
  | None => SetOwnerIfAvailable w
  end.

(** [UPortalSceneCapture::Init]. *)
Definition Init (type : ECameraType) (linked_portal : option nat)
    (exit_in_front : bool) (weight : Q) : Method unit :=
  assign (set_m_type type) >>
  assign (set_m_linked_portal linked_portal) >>
  assign (set_m_exit_in_front exit_in_front) >>
  assign (set_m_weight weight).

(** [UPortalSceneCapture::BeginPlay]. [Super::BeginPlay()] touches none of
    the modelled members. *)
Definition BeginPlay (w : UWorld) : Method unit :=
  GenerateDefaultTexture w >>
  SetOwnerIfAvailable w >>
  (let* c := get_this in
   if negb (ECameraType_eqb (m_type c) Portal)
   then assign (set_m_exit_in_front false)
   else ret tt) >>
  (let* c := get_this in
   if less (m_weight c) 0%Q
   then assign (set_m_weight 0%Q)
   else ret tt) >>
  (let* c := get_this in
   match m_linked_portal c with
   | None => assign (set_m_linked_portal (m_owner c))
   | Some _ => ret tt
   end).

(** [UPortalSceneCapture::UpdateRenderTarget]. *)
Definition UpdateRenderTarget (w : UWorld) : Method unit :=
  let* c := get_this in
  let CameraLocation := CameraLocation w in
  let Distance := FVector_Dist CameraLocation (GetComponentLocation c) in
  let DesiredSize := CalculateRenderSize w Distance in
  (if less 32%Q
        (FMath.Abs (FMath.IntToFloat DesiredSize
                    - FMath.IntToFloat (CachedRenderSize c))%Q)
   then
     let* NewTarget :=
       NewObject (set_ObjectName (Name "TextureRenderTarget2D")
                                 ClassDefaultRenderTarget) in
     store NewTarget (set_RenderTargetFormat RTF_RGBA16f) >>
     store NewTarget (set_Filter TF_Bilinear) >>
     store NewTarget (set_ClearColor LinearColor.Black) >>
     store NewTarget (InitAutoFormat DesiredSize DesiredSize) >>
     assign (set_TextureTarget (Some NewTarget)) >>
     assign (set_CachedRenderSize DesiredSize)
   else ret tt) >>
  assign (set_LastDistanceToCamera Distance).

(** [UPortalSceneCapture::UpdateTransformation_Implementation]. *)
Definition UpdateTransformation_Implementation (w : UWorld)
    (watched_actor_transfo : FTransform) : Method unit :=
  let* valid := IsOwnerValid w in
  if valid then
    let modified_wa_transfo := watched_actor_transfo in
    let* c := get_this in
    let* modified_wa_transfo :=
      if negb (ECameraType_eqb (GetTrueType c) Mirror)
         && negb (Qeq_bool (m_refractive_ind_1 c) (m_refractive_ind_2 c))
      then
        let* owner := portal_at w (m_owner c) in
        let portal_mid := MiddlePoint owner in
        let portal_normal := ActorForwardVector owner in
        let wa_pos := GetLocation modified_wa_transfo in
        let incidence_angle :=
          ComputeIncidenceAngle wa_pos portal_mid portal_normal in
        let refraction_angle :=
          ComputeRefractionAngle incidence_angle
            (m_refractive_ind_1 c) (m_refractive_ind_2 c) in
        if Qeq_bool refraction_angle (-1)
        then
          assign (set_m_is_total_reflection true) >>
          ret modified_wa_transfo
        else
          assign (set_m_is_total_reflection false) >>
          let incidence_plane :=
            FPlane_FromPoints wa_pos portal_mid
              (Vec.add portal_mid portal_normal) in
          let incidence_plane_normal :=
            FVector_Normalize (FPlane_GetNormal incidence_plane) in
          let rotation :=
            FQuat_Rotator
              (FQuat_FromAxisAngle incidence_plane_normal
                 (DegreesToRadians (incidence_angle - refraction_angle)%Q)) in
          let rotation_matrix := FRotationAboutPointMatrix rotation portal_mid in
          let modified_wa_transfo :=
            SetLocation modified_wa_transfo
              (TransformPosition rotation_matrix
                 (GetLocation modified_wa_transfo)) in
          let rotation :=
            {| Pitch := 0; Yaw := Yaw rotation; Roll := 0 |} in
          ret (SetRotation modified_wa_transfo
                 (FQuat_Mul (FQuat_FromRotator rotation)
                            (GetRotation modified_wa_transfo)))
      else ret modified_wa_transfo in
    let* c := get_this in
    assign (set_ComponentToWorld
              (ComputeNewTransform modified_wa_transfo w (m_owner c) c))
  else ret tt.

(** [UPortalSceneCapture::UpdateNearClipPlane_Implementation]. *)
Definition UpdateNearClipPlane_Implementation (w : UWorld) : Method unit :=
  let* valid := IsOwnerValid w in
  if valid then
    let* c := get_this in
    let is_mirror := ECameraType_eqb (getType c) Mirror in
    let target_portal :=
      if ECameraType_eqb (getType c) Portal
      then m_linked_portal c else m_owner c in
    let* target := portal_at w target_portal in
    assign (set_ClipPlaneNormal
              (Vec.scale (Vec.neg (ActorForwardVector target))
                 (FMath.IntToFloat
                    (if is_mirror || m_exit_in_front c then -1 else 1)))) >>
    let* c := get_this in
    assign (set_ClipPlaneBase
              (Vec.add (ActorLocation target)
                       (Vec.lscale (3 # 10) (ClipPlaneNormal c))))
  else ret tt.

(** [UPortalSceneCapture::Update].  The two blueprint-native events run
    their native implementations. *)
Definition Update (w : UWorld) (watched_actor_transfo : FTransform)
    (projection_matrix : FMatrix) : Method unit :=
  let* c := get_this in
  let* missing :=
    match m_render_target c with
    | None => ret true
    | Some target => let* o := load target in ret (IsNone (ObjectName o))
    end in
  (if missing then GenerateDefaultTexture w else ret tt) >>
  let* valid := IsOwnerValid w in
  if valid then
    let* c := get_this in
    (match m_linked_portal c with
     | Some _ =>
         UpdateTransformation_Implementation w watched_actor_transfo >>
         UpdateNearClipPlane_Implementation w
     | None => ret tt
     end) >>
    let* c := get_this in
    assign (set_TextureTarget (m_render_target c)) >>
    assign (set_CustomProjectionMatrix projection_matrix) >>
    CaptureScene
  else ret tt.

(** One frame of the component's life after activation: either the
    per-frame [Update] or a call of [UpdateRenderTarget]. *)
Inductive Frame :=
| FrameUpdate (w : UWorld) (watched_actor_transfo : FTransform)
              (projection_matrix : FMatrix)
| FrameRenderTarget (w : UWorld).

Definition run_frame (f : Frame) : Method unit :=
  match f with
  | FrameUpdate w t p => Update w t p
  | FrameRenderTarget w => UpdateRenderTarget w
  end.

Fixpoint run_frames (fs : list Frame) : Method unit :=
  match fs with
  | [] => ret tt
  | f :: fs => run_frame f >> run_frames fs
  end.

End Methods.

(** ** Vocabulary of the statements *)

Definition IsPowerOfTwo (n : Z) : Prop := exists k : Z, 0 <= k /\ n = 2 ^ k.

(** The viewport size, when [GEngine] and its [GameViewport] are set. *)
Definition KnownViewportSize (w : UWorld) : option FVector2D :=
  match GEngine w with
  | Some engine =>
      match GameViewport engine with
      | Some viewport => Some (ViewportSize viewport)
      | None => None
      end
  | None => None
  end.

(** The world with the viewport taken away. *)
Definition WithoutViewport (w : UWorld) : UWorld :=
  {| GEngine := None;
     CameraLocation := CameraLocation w;
     Portals := Portals w;
     Owner := Owner w |}.

(** The interpolation weight and the size computed from the distance alone,
    the first three statements of [CalculateRenderSize]. *)
Definition DistanceAlpha (Distance : Q) : Q :=
  FMath.Clamp ((Distance - NearDistance) / (FarDistance - NearDistance))%Q
              0%Q 1%Q.

Definition DistanceSize (Distance : Q) : Z :=
  RoundedSize (FMath.Lerp MaxTextureSize MinTextureSize
                 (DistanceAlpha Distance)).

(** The clamp bound [ScreenMin] of [CalculateRenderSize]. *)
Definition ScreenMin (ViewportSize : FVector2D) : Z :=
  FMath.wrap_int32
    (FMath.RoundUpToPowerOfTwo
       (FMath.TruncToUInt (FMath.Min (X2 ViewportSize) (Y2 ViewportSize)))).

(** Within these bounds no conversion of the viewport size wraps. *)
Definition ViewportInRange (v : FVector2D) : Prop :=
  (0 <= X2 v)%Q /\ (X2 v <= inject_Z (2 ^ 30))%Q /\
  (0 <= Y2 v)%Q /\ (Y2 v <= inject_Z (2 ^ 30))%Q.

(** The same statements on IEEE binary32 values, each [float] operation
    rounded as the hardware rounds it; [float] literals and [int32]
    operands are converted exactly.  It serves to compare the idealised
    computation with the rounded one at given distances. *)
Module Binary32.

Definition prec : Z := 24.
Definition emax : Z := 128.

#[global] Instance Less_binary32 : Less spec_float := SFltb.

(** The cast [(float)i]. *)
Definition IntToFloat (i : Z) : spec_float :=
  binary_normalize prec emax i 0 false.

(** The cast [(int32)f]: truncation toward zero. *)
Definition TruncToInt (f : spec_float) : Z :=
  match f with
  | S754_finite s m e =>
      let magnitude :=
        if 0 <=? e then Zpos m * 2 ^ e else Zpos m / 2 ^ (- e) in
      FMath.wrap_int32 (if s then - magnitude else magnitude)
  | _ => 0
  end.

Definition Lerp (A B : Z) (Alpha : spec_float) : Z :=
  TruncToInt
    (SFadd prec emax (IntToFloat A)
       (SFmul prec emax Alpha (IntToFloat (B - A)))).

Definition DistanceAlpha (Distance : spec_float) : spec_float :=
  FMath.Clamp
    (SFdiv prec emax
       (SFsub prec emax Distance (IntToFloat 300))
       (SFsub prec emax (IntToFloat 2000) (IntToFloat 300)))
    (IntToFloat 0) (IntToFloat 1).

Definition DistanceSize (Distance : spec_float) : Z :=
  RoundedSize (Lerp MaxTextureSize MinTextureSize (DistanceAlpha Distance)).

End Binary32.

(** The bound as the specification words it: a dimension of the viewport
    rounded up to the next power of two. *)
Definition round_up_to_power_of_two (n : Z) : Z := 2 ^ Z.log2_up n.

Definition spec_bound_of_larger_dimension (v : FVector2D) : Z :=
  round_up_to_power_of_two (Qfloor (Qmax (X2 v) (Y2 v))).

Definition spec_bound_of_smaller_dimension (v : FVector2D) : Z :=
  round_up_to_power_of_two (Qfloor (Qmin (X2 v) (Y2 v))).

(** The size [UpdateRenderTarget] asks for in a given state. *)
Definition DesiredSize `{Engine} (w : UWorld) (s : State) : Z :=
  CalculateRenderSize w
    (FVector_Dist (CameraLocation w) (GetComponentLocation (this s))).

(** A state with its component replaced. *)
Definition with_this (c : UPortalSceneCapture) (s : State) : State :=
  {| this := c; Objects := Objects s; Captures := Captures s |}.

(** A pointer that is not [nullptr]. *)
Definition IsSet {T} (p : option T) : bool :=
  match p with Some _ => true | None => false end.

(** The actor behind an [APortal*], if any. *)
Definition PortalOf (w : UWorld) (p : option nat) : option APortal :=
  match p with
  | Some id => Portals w !! id
  | None => None
  end.

(** The component once [IsOwnerValid] has run: an unset owner is taken from
    the owning actor when that actor is a portal. *)
Definition ResolveOwner (w : UWorld) (c : UPortalSceneCapture)
  : UPortalSceneCapture :=
  match m_owner c, Owner w with
  | None, PortalActor id => set_m_owner (Some id) c
  | _, _ => c
  end.

(** The default render target exists and carries a name. *)
Definition RenderTargetReady (s : State) : Prop :=
  exists p o,
    m_render_target (this s) = Some p
    /\ Objects s !! p = Some o
    /\ IsNone (ObjectName o) = false.

(** The default render target is absent: the pointer is null or the object
    it points to has no name. *)
Definition RenderTargetMissing (s : State) : Prop :=
  m_render_target (this s) = None
  \/ exists p o,
       m_render_target (this s) = Some p
       /\ Objects s !! p = Some o
       /\ IsNone (ObjectName o) = true.

(** The target portal of the clip plane: the linked portal when the camera
    type is [Portal], else the portal itself. *)
Definition TargetPortal `{PortalDecls} (c : UPortalSceneCapture)
  : option nat :=
  match getType c with
  | Portal => m_linked_portal c
  | Mirror => m_owner c
  end.

(** The sign of the clip-plane normal relative to minus the forward vector
    of the target. *)
Definition ClipSign `{PortalDecls} (c : UPortalSceneCapture) : Z :=
  match getType c with
  | Mirror => -1
  | Portal => if m_exit_in_front c then -1 else 1
  end.

(** A method leaves a member of the component as it was, whenever it
    returns. *)
Definition Keeps {T X} (member : UPortalSceneCapture -> X) (m : Method T)
  : Prop :=
  forall s x s', m s = Some (x, s') -> member (this s') = member (this s).

(** The configuration members [m_type] and [m_exit_in_front]. *)
Definition Configuration (c : UPortalSceneCapture) : ECameraType * bool :=
  (m_type c, m_exit_in_front c).


(** The component after [SetOwnerIfAvailable]. *)
Definition TakeOwner (w : UWorld) (c : UPortalSceneCapture)
  : UPortalSceneCapture :=
  match Owner w with
  | PortalActor id => set_m_owner (Some id) c
  | OtherActor => c
  end.

(** The component after the three fix-ups that end [BeginPlay]. *)
Definition Normalized (c : UPortalSceneCapture) : UPortalSceneCapture :=
  let c1 :=
    if negb (ECameraType_eqb (m_type c) Portal)
    then set_m_exit_in_front false c else c in
  let c2 := if less (m_weight c1) 0%Q then set_m_weight 0%Q c1 else c1 in
  match m_linked_portal c2 with
  | None => set_m_linked_portal (m_owner c2) c2
  | Some _ => c2
  end.

(** The render target [GenerateDefaultTexture] builds for a size. *)
Definition DefaultTexture `{Engine} (CurrentSize : Z)
  : UTextureRenderTarget2D :=
  set_bAutoGenerateMips false
    (set_AddressY TA_Clamp
       (set_AddressX TA_Clamp
          (set_bNeedsTwoCopies false
             (set_TargetGamma (22 # 10)
                (set_ClearColor LinearColor.Blue
                   (set_SizeY CurrentSize
                      (set_SizeX CurrentSize
                         (set_Filter TF_Bilinear
                            (set_RenderTargetFormat RTF_RGBA16f
                               (set_ObjectName (Name "Default texture")
                                  ClassDefaultRenderTarget)))))))))).

(** The distance [GenerateDefaultTexture] sizes the texture for. *)
Definition BootstrapDistance `{Engine} (w : UWorld) (c : UPortalSceneCapture)
  : Q :=
  if Qeq_bool (LastDistanceToCamera c) 0
  then FVector_Dist (CameraLocation w) (GetComponentLocation c)
  else LastDistanceToCamera c.

(** The state after [GenerateDefaultTexture]. *)
Definition Bootstrapped `{Engine} (w : UWorld) (s : State) : State :=
  {| this :=
       set_m_render_target (Some (fresh (dom (Objects s))))
         (set_CachedRenderSize
            (CalculateRenderSize w (BootstrapDistance w (this s)))
            (this s));
     Objects :=
       <[fresh (dom (Objects s)) :=
           DefaultTexture
             (CalculateRenderSize w (BootstrapDistance w (this s)))]>
         (Objects s);
     Captures := Captures s |}.

(** The tail of [Update]: the render target and the projection are
    published and the scene is captured. *)
Definition Published (projection_matrix : FMatrix) (s : State) : State :=
  {| this :=
       set_CustomProjectionMatrix projection_matrix
         (set_TextureTarget (m_render_target (this s)) (this s));
     Objects := Objects s;
     Captures :=
       Captures s ++
       [ {| CapturePose := ComponentToWorld (this s);
            CaptureProjection := projection_matrix;
            CaptureTarget := m_render_target (this s);
            CaptureClipNormal := ClipPlaneNormal (this s);
            CaptureClipBase := ClipPlaneBase (this s) |} ] |}.

(** The bent pose as the specification words it. *)
Section SpecWords.

Context {engine : Engine}.

(** The unit normal of the plane through three points. *)
Definition UnitNormalOfPlaneThrough (a b c : FVector) : FVector :=
  FVector_Normalize (FPlane_GetNormal (FPlane_FromPoints a b c)).

(** The rotation by [degrees] around [axis], as the engine's rotator. *)
Definition RotationByDegrees (axis : FVector) (degrees : Q) : FRotator :=
  FQuat_Rotator (FQuat_FromAxisAngle axis (DegreesToRadians degrees)).

(** A point turned by a rotation about a pivot. *)
Definition RotateAbout (pivot : FVector) (r : FRotator) (p : FVector)
  : FVector :=
  TransformPosition (FRotationAboutPointMatrix r pivot) p.

(** A rotation with its pitch and roll zeroed. *)
Definition YawOnly (r : FRotator) : FRotator :=
  {| Pitch := 0; Yaw := Yaw r; Roll := 0 |}.

(** The refracted watcher pose: position turned about the portal midpoint,
    orientation composed with the yaw of the same rotation. *)
Definition RefractedPose (watcher : FTransform) (portal : APortal)
    (incidence refraction : Q) : FTransform :=
  let axis :=
    UnitNormalOfPlaneThrough (GetLocation watcher) (MiddlePoint portal)
      (Vec.add (MiddlePoint portal) (ActorForwardVector portal)) in
  let r := RotationByDegrees axis (incidence - refraction)%Q in
  {| Rotation := FQuat_Mul (FQuat_FromRotator (YawOnly r)) (Rotation watcher);
     Translation := RotateAbout (MiddlePoint portal) r (Translation watcher);
     Scale3D := Scale3D watcher |}.

End SpecWords.

(** The quantities that decide the branch of [UpdateTransformation]. *)
Section Bending.

Context {decls : PortalDecls}.

Definition IncidenceAngle (watched : FTransform) (owner : APortal) : Q :=
  ComputeIncidenceAngle (GetLocation watched) (MiddlePoint owner)
    (ActorForwardVector owner).

Definition RefractionAngle (c : UPortalSceneCapture) (watched : FTransform)
    (owner : APortal) : Q :=
  ComputeRefractionAngle (IncidenceAngle watched owner)
    (m_refractive_ind_1 c) (m_refractive_ind_2 c).

(** The guard of the refraction computation. *)
Definition Refracts (c : UPortalSceneCapture) : bool :=
  negb (ECameraType_eqb (GetTrueType c) Mirror)
  && negb (Qeq_bool (m_refractive_ind_1 c) (m_refractive_ind_2 c)).

(** The refraction angle is the total-reflection sentinel. *)
Definition TotallyReflects (c : UPortalSceneCapture) (watched : FTransform)
    (owner : APortal) : bool :=
  Qeq_bool (RefractionAngle c watched owner) (-1).

End Bending.

(** ** A scene to run the model on

    Rational stand-ins for the engine's numeric routines and for the
    declarations outside the file.  The theorems below hold for every
    instance of [Engine] and [PortalDecls]; this one makes the model run
    on concrete inputs. *)

Module Scene.

(** In this engine distances are taxicab distances, normalisation leaves
    a vector as it is, a quaternion stores its axis and angle, and every
    rotation about a point is a quarter turn about the vertical through
    it. *)

Definition origin : FVector := {| X := 0; Y := 0; Z_ := 0 |}.
Definition unit_x : FVector := {| X := 1; Y := 0; Z_ := 0 |}.
Definition unit_scale : FVector := {| X := 1; Y := 1; Z_ := 1 |}.
Definition identity_quat : FQuat := {| QX := 0; QY := 0; QZ := 0; QW := 1 |}.
Definition identity_matrix : FMatrix :=
  {| M := [[1; 0; 0; 0]; [0; 1; 0; 0]; [0; 0; 1; 0]; [0; 0; 0; 1]]%Q |}.

Definition sub (a b : FVector) : FVector := Vec.add a (Vec.neg b).

Definition cross (a b : FVector) : FVector :=
  {| X := Y a * Z_ b - Z_ a * Y b;
     Y := Z_ a * X b - X a * Z_ b;
     Z_ := X a * Y b - Y a * X b |}%Q.

Definition taxicab (a b : FVector) : Q :=
  (Qabs (X a - X b) + Qabs (Y a - Y b) + Qabs (Z_ a - Z_ b))%Q.

Definition default_target : UTextureRenderTarget2D :=
  {| ObjectName := NAME_None;
     RenderTargetFormat := RTF_RGBA8;
     Filter := TF_Default;
     SizeX := 0;
     SizeY := 0;
     ClearColor := {| R := 0; G := 1; B := 0; A := 1 |};
     TargetGamma := 0;
     bNeedsTwoCopies := false;
     AddressX := TA_Wrap;
     AddressY := TA_Wrap;
     bAutoGenerateMips := true |}.

#[local] Instance engine : Engine :=
  {| FVector_Dist := taxicab;
     FVector_Normalize := fun v => v;
     FPlane_FromPoints := fun a b c =>
       let n := cross (sub b a) (sub c a) in
       {| PX := X n; PY := Y n; PZ := Z_ n; PW := 0 |};
     FPlane_GetNormal := fun p => {| X := PX p; Y := PY p; Z_ := PZ p |};
     DegreesToRadians := fun d => (d * (355 # 113) / 180)%Q;
     FQuat_FromAxisAngle := fun axis angle =>
       {| QX := X axis; QY := Y axis; QZ := Z_ axis; QW := angle |};
     FQuat_Rotator := fun q => {| Pitch := QX q; Yaw := QW q; Roll := QY q |};
     FQuat_FromRotator := fun r =>
       {| QX := Pitch r; QY := Roll r; QZ := 0; QW := Yaw r |};
     FQuat_Mul := fun a b =>
       {| QX := QX a + QX b; QY := QY a + QY b;
          QZ := QZ a + QZ b; QW := QW a + QW b |}%Q;
     FRotationAboutPointMatrix := fun r o =>
       {| M := [[Yaw r; 0; 0; 0]; [X o; Y o; Z_ o; 1]]%Q |};
     TransformPosition := fun m p =>
       match M m with
       | [_; [ox; oy; oz; _]] =>
           {| X := ox - (Y p - oy); Y := oy + (X p - ox); Z_ := Z_ p |}%Q
       | _ => p
       end;
     ClassDefaultRenderTarget := default_target |}.

#[local] Instance decls : PortalDecls :=
  {| getType := fun c =>
       if m_is_total_reflection c then Mirror else m_type c;
     GetTrueType := m_type;
     ComputeIncidenceAngle := fun p mid normal => taxicab p mid;
     ComputeRefractionAngle := fun incidence n1 n2 =>
       if Qle_bool (n1 * incidence) (n2 * 90)%Q
       then (n1 * incidence / n2)%Q else (-1)%Q;
     ComputeNewTransform := fun t _ _ _ => t |}.

Definition portal_here : APortal :=
  {| ActorLocation := origin;
     ActorForwardVector := unit_x;
     MiddlePoint := {| X := 0; Y := 0; Z_ := 100 |} |}.

Definition portal_there : APortal :=
  {| ActorLocation := {| X := 1000; Y := 0; Z_ := 0 |};
     ActorForwardVector := {| X := 0; Y := 1; Z_ := 0 |};
     MiddlePoint := {| X := 1000; Y := 0; Z_ := 100 |} |}.

(** A world whose component is owned by portal 0; portal 1 is the other
    end.  The viewport is [viewport], when given. *)
Definition world (owner : AActor) (viewport : option FVector2D) : UWorld :=
  {| GEngine :=
       Some {| GameViewport :=
                 match viewport with
                 | Some v => Some {| ViewportSize := v |}
                 | None => None
                 end |};
     CameraLocation := {| X := 500; Y := 0; Z_ := 0 |};
     Portals := <[1%nat := portal_there]> {[ 0%nat := portal_here ]};
     Owner := owner |}.

Definition wide_viewport : FVector2D := {| X2 := 1920; Y2 := 300 |}.
Definition small_viewport : FVector2D := {| X2 := 100; Y2 := 100 |}.
Definition hd_viewport : FVector2D := {| X2 := 1920; Y2 := 1080 |}.

Definition home : UWorld := world (PortalActor 0) None.
Definition astray : UWorld := world OtherActor None.

Definition near_watcher : FTransform :=
  {| Rotation := identity_quat;
     Translation := {| X := -20; Y := 10; Z_ := 100 |};
     Scale3D := unit_scale |}.

Definition watcher : FTransform :=
  {| Rotation := identity_quat;
     Translation := {| X := -200; Y := 50; Z_ := 100 |};
     Scale3D := unit_scale |}.

(** The members of a newly constructed component. *)
Definition constructed : UPortalSceneCapture :=
  Construct
    {| m_type := Mirror;
       m_linked_portal := None;
       m_owner := None;
       m_exit_in_front := false;
       m_weight := 0;
       m_refractive_ind_1 := 1;
       m_refractive_ind_2 := 1;
       m_is_total_reflection := false;
       m_render_target := None;
       CachedRenderSize := 0;
       LastDistanceToCamera := 0;
       TextureTarget := None;
       CustomProjectionMatrix := identity_matrix;
       ClipPlaneNormal := origin;
       ClipPlaneBase := origin;
       ComponentToWorld :=
         {| Rotation := identity_quat;
            Translation := origin;
            Scale3D := unit_scale |} |}.

Definition initial : State :=
  {| this := constructed; Objects := ∅; Captures := [] |}.

(** The state reached by running a method from [s]; [s] itself if the
    method faults. *)
Definition after (m : Method unit) (s : State) : State :=
  match m s with
  | Some (_, s') => s'
  | None => s
  end.

(** A capture between glass and air, configured as a portal linked to
    portal 1, then activated in the world owned by portal 0. *)
Definition glass : State :=
  with_this
    (set_m_refractive_ind_2 1 (set_m_refractive_ind_1 (3 # 2) constructed))
    initial.

Definition configured : State :=
  after (Init Portal (Some 1%nat) false 1) glass.

Definition playing : State := after (BeginPlay home) configured.

(** A frame under total reflection, after which the capture is configured
    again as a mirror, or its two indices are made equal. *)
Definition reflecting : State :=
  after (Update home watcher identity_matrix) playing.

Definition remirrored : State :=
  after (Init Mirror (Some 1%nat) false 1) reflecting.

Definition matched : State :=
  with_this (set_m_refractive_ind_2 (3 # 2) (this reflecting)) reflecting.

(** A capture configured again without a linked portal after activation. *)
Definition unlinked : State := after (Init Portal None false 1) playing.

(** The activated capture configured as a mirror without any frame in
    between: the configuration of [remirrored], reached without the frame
    under total reflection. *)
Definition mirrored : State :=
  after (Init Mirror (Some 1%nat) false 1) playing.

(** The activated capture configured again as a mirror with
    exit-in-front. *)
Definition reconfigured : State :=
  after (Init Mirror (Some 1%nat) true 1) playing.

(** A capture activated under an actor that is not a portal. *)
Definition stranded : State := after (BeginPlay astray) configured.

(** The activated capture moved far from the camera, so that the size
    wanted there (256) differs from the cached one (1024). *)
Definition distant : State :=
  with_this
    (set_ComponentToWorld
       {| Rotation := identity_quat;
          Translation := {| X := 5000; Y := 0; Z_ := 0 |};
          Scale3D := unit_scale |}
       (this playing))
    playing.

(** A mirror configured with exit-in-front, then activated. *)
Definition mirror_playing : State :=
  after (BeginPlay home) (after (Init Mirror None true 1) initial).

End Scene.

(** ** Vocabulary of the further properties *)

(** The three sizes the interpolation can round to. *)
Definition StandardSize (n : Z) : Prop := n = 256 \/ n = 512 \/ n = 1024.

(** The cached size is 0, as constructed, or one of the three sizes. *)
Definition StandardCached (s : State) : Prop :=
  CachedRenderSize (this s) = 0 \/ StandardSize (CachedRenderSize (this s)).

(** No viewport, or one whose conversions do not wrap and whose clamp bound
    is not below [MinTextureSize]: the smaller dimension is at least 129,
    so that it rounds up to 256 or more. *)
Definition StandardViewport (w : UWorld) : Prop :=
  match KnownViewportSize w with
  | None => True
  | Some v =>
      ViewportInRange v
      /\ MinTextureSize <= spec_bound_of_smaller_dimension v
  end.

(** A method keeps a property of the state, whenever it returns. *)
Definition Maintains {T} (P : State -> Prop) (m : Method T) : Prop :=
  forall s x s', m s = Some (x, s') -> P s -> P s'.

(** The world a frame runs in, and the number of [Update] frames. *)
Definition FrameWorld (f : Frame) : UWorld :=
  match f with
  | FrameUpdate w _ _ => w
  | FrameRenderTarget w => w
  end.

Definition IsUpdate (f : Frame) : bool :=
  match f with
  | FrameUpdate _ _ _ => true
  | FrameRenderTarget _ => false
  end.

(** The distance [UpdateRenderTarget] measures. *)
Definition CameraDistance `{Engine} (w : UWorld) (s : State) : Q :=
  FVector_Dist (CameraLocation w) (GetComponentLocation (this s)).

(** The render target [UpdateRenderTarget] builds for a size. *)
Definition ResizedTarget `{Engine} (size : Z) : UTextureRenderTarget2D :=
  InitAutoFormat size size
    (set_ClearColor LinearColor.Black
       (set_Filter TF_Bilinear
          (set_RenderTargetFormat RTF_RGBA16f
             (set_ObjectName (Name "TextureRenderTarget2D")
                ClassDefaultRenderTarget)))).

(** The state after [UpdateRenderTarget] when it keeps the target, and
    when it replaces it. *)
Definition Measured `{Engine} (w : UWorld) (s : State) : State :=
  with_this (set_LastDistanceToCamera (CameraDistance w s) (this s)) s.

Definition Resized `{Engine} (w : UWorld) (s : State) : State :=
  {| this :=
       set_LastDistanceToCamera (CameraDistance w s)
         (set_CachedRenderSize (DesiredSize w s)
            (set_TextureTarget (Some (fresh (dom (Objects s)))) (this s)));
     Objects :=
       <[fresh (dom (Objects s)) := ResizedTarget (DesiredSize w s)]>
         (Objects s);
     Captures := Captures s |}.

(** What [CaptureScene] records for a component. *)
Definition CaptureOf (c : UPortalSceneCapture) : FSceneCapture :=
  {| CapturePose := ComponentToWorld c;
     CaptureProjection := CustomProjectionMatrix c;
     CaptureTarget := TextureTarget c;
     CaptureClipNormal := ClipPlaneNormal c;
     CaptureClipBase := ClipPlaneBase c |}.

(** The state after the first statement of [Update]: the default target is
    created when the pointer is null or the object has no name; reading a
    dangling pointer faults. *)
Definition Prelude `{Engine} (w : UWorld) (s : State) : option State :=
  match m_render_target (this s) with
  | None => Some (Bootstrapped w s)
  | Some target =>
      match Objects s !! target with
      | Some o => Some (if IsNone (ObjectName o) then Bootstrapped w s else s)
      | None => None
      end
  end.

(** The pose and clip-plane steps of [Update], run when there is a linked
    portal. *)
Definition SolveStep `{Engine} `{PortalDecls} (w : UWorld)
    (watched_actor_transfo : FTransform) : Method unit :=
  fun s =>
    match m_linked_portal (this s) with
    | Some _ =>
        bind (UpdateTransformation_Implementation w watched_actor_transfo)
             (fun _ => UpdateNearClipPlane_Implementation w) s
    | None => Some (tt, s)
    end.

(** The cached size is one of the three sizes. *)
Definition Sized (s : State) : Prop :=
  StandardSize (CachedRenderSize (this s)).

(** The default render target is the object [o] at handle [q], and it has
    a name. *)
Definition DefaultTargetIs (q : nat) (o : UTextureRenderTarget2D)
    (s : State) : Prop :=
  m_render_target (this s) = Some q
  /\ Objects s !! q = Some o
  /\ IsNone (ObjectName o) = false.

(** The members that configure the capture. *)
Definition Setup (c : UPortalSceneCapture)
  : ECameraType * option nat * bool * Q * Q * Q :=
  (m_type c, m_linked_portal c, m_exit_in_front c, m_weight c,
   m_refractive_ind_1 c, m_refractive_ind_2 c).

(** The number of [Update] frames of a sequence. *)
Definition CountUpdates (fs : list Frame) : nat :=
  length (List.filter IsUpdate fs).

(** * Properties *)

(** The examples run in the scene of [Scene]; inside the sections below the
    engine and the outside declarations are arbitrary. *)
#[local] Existing Instance Scene.engine.
#[local] Existing Instance Scene.decls.

(** ** Arithmetic of the size computation *)

Lemma less_Q_lt (a b : Q) : less a b = true <-> (a < b)%Q.
Proof.
  unfold less, Less_Q. rewrite negb_true_iff.
  split; intros H.
  - apply Qnot_le_lt. intros Hle. apply Qle_bool_iff in Hle. congruence.
  - destruct (Qle_bool b a) eqn:E; [|reflexivity].
    apply Qle_bool_iff in E. exfalso. exact (Qlt_not_le _ _ H E).
Qed.

Lemma less_Q_ge (a b : Q) : less a b = false <-> (b <= a)%Q.
Proof.
  unfold less, Less_Q. rewrite negb_false_iff. apply Qle_bool_iff.
Qed.

Lemma less_Z_lt (a b : Z) : less a b = true <-> a < b.
Proof. apply Z.ltb_lt. Qed.

Lemma less_Z_ge (a b : Z) : less a b = false <-> b <= a.
Proof. apply Z.ltb_ge. Qed.

(** On integers [Clamp] is the usual composition of [max] and [min]. *)
Lemma Clamp_Z (x lo hi : Z) : FMath.Clamp x lo hi = Z.max (Z.min x hi) lo.
Proof.
  unfold FMath.Clamp, FMath.Max, FMath.Min, less, Less_Z.
  destruct (Z.ltb_spec x hi), (Z.ltb_spec lo x), (Z.ltb_spec lo hi); lia.
Qed.

(** The older form of the template, [X<Min ? Min : X<Max ? X : Max],
    computes the same value whenever the bounds are ordered. *)
Lemma Clamp_Z_ternary (x lo hi : Z) :
  lo <= hi ->
  FMath.Clamp x lo hi = if x <? lo then lo else if x <? hi then x else hi.
Proof.
  intros Hle. rewrite Clamp_Z.
  destruct (Z.ltb_spec x lo), (Z.ltb_spec x hi); lia.
Qed.

Lemma Clamp01_low (x : Q) : (x <= 0)%Q -> FMath.Clamp x 0%Q 1%Q = 0%Q.
Proof.
  intros Hx. unfold FMath.Clamp, FMath.Max, FMath.Min.
  assert (H1 : less x 1%Q = true) by (apply less_Q_lt; lra).
  rewrite H1.
  assert (H0 : less 0%Q x = false) by (apply less_Q_ge; lra).
  now rewrite H0.
Qed.

Lemma Clamp01_high (x : Q) : (1 <= x)%Q -> FMath.Clamp x 0%Q 1%Q = 1%Q.
Proof.
  intros Hx. unfold FMath.Clamp, FMath.Max, FMath.Min.
  assert (H1 : less x 1%Q = false) by (apply less_Q_ge; lra).
  rewrite H1. reflexivity.
Qed.

Lemma Clamp01_mid (x : Q) :
  (0 < x)%Q -> (x < 1)%Q -> FMath.Clamp x 0%Q 1%Q = x.
Proof.
  intros H0 H1. unfold FMath.Clamp, FMath.Max, FMath.Min.
  apply less_Q_lt in H0, H1. now rewrite H1, H0.
Qed.

Lemma Clamp01_cases (x : Q) :
  ((x <= 0)%Q /\ FMath.Clamp x 0%Q 1%Q = 0%Q) \/
  ((0 < x)%Q /\ (x < 1)%Q /\ FMath.Clamp x 0%Q 1%Q = x) \/
  ((1 <= x)%Q /\ FMath.Clamp x 0%Q 1%Q = 1%Q).
Proof.
  destruct (Qlt_le_dec 0 x) as [H0|H0].
  - destruct (Qlt_le_dec x 1) as [H1|H1].
    + right; left. auto using Clamp01_mid.
    + right; right. auto using Clamp01_high.
  - left. auto using Clamp01_low.
Qed.

Lemma Clamp01_range (x : Q) :
  (0 <= FMath.Clamp x 0%Q 1%Q)%Q /\ (FMath.Clamp x 0%Q 1%Q <= 1)%Q.
Proof.
  destruct (Clamp01_cases x) as [[? ->]|[(? & ? & ->)|[? ->]]]; lra.
Qed.

Lemma Clamp01_mono (x y : Q) :
  (x <= y)%Q -> (FMath.Clamp x 0%Q 1%Q <= FMath.Clamp y 0%Q 1%Q)%Q.
Proof.
  intros Hxy.
  destruct (Clamp01_cases x) as [[? ->]|[(? & ? & ->)|[? ->]]];
    destruct (Clamp01_cases y) as [[? ->]|[(? & ? & ->)|[? ->]]]; lra.
Qed.


Lemma wrap_int32_small (z : Z) :
  - 2 ^ 31 <= z < 2 ^ 31 -> FMath.wrap_int32 z = z.
Proof.
  intros Hz. unfold FMath.wrap_int32.
  rewrite Z.mod_small; lia.
Qed.

Lemma wrap_uint32_small (z : Z) :
  0 <= z < 2 ^ 32 -> FMath.wrap_uint32 z = z.
Proof. intros Hz. unfold FMath.wrap_uint32. now rewrite Z.mod_small. Qed.

(** Truncation toward zero of a non-negative rational is its floor. *)
Lemma quot_floor (q : Q) : (0 <= q)%Q -> Qnum q ÷ Zpos (Qden q) = Qfloor q.
Proof.
  destruct q as [n d]. unfold Qle. simpl. intros Hn.
  apply Z.quot_div_nonneg; lia.
Qed.

Lemma Qfloor_between (q : Q) (a b : Z) :
  (inject_Z a <= q)%Q -> (q <= inject_Z b)%Q -> a <= Qfloor q <= b.
Proof.
  intros Ha Hb. split.
  - rewrite <- (Qfloor_Z a). now apply Qfloor_resp_le.
  - rewrite <- (Qfloor_Z b). now apply Qfloor_resp_le.
Qed.

Lemma LerpValue_eq (Alpha : Q) : (LerpValue Alpha == 1024 - 768 * Alpha)%Q.
Proof.
  unfold LerpValue, FMath.IntToFloat, MaxTextureSize, MinTextureSize.
  change (inject_Z (256 - 1024)) with (-768)%Q.
  change (inject_Z 1024) with 1024%Q. lra.
Qed.

Lemma Lerp_floor (Alpha : Q) :
  (0 <= Alpha)%Q -> (Alpha <= 1)%Q ->
  FMath.Lerp MaxTextureSize MinTextureSize Alpha = Qfloor (LerpValue Alpha)
  /\ 256 <= Qfloor (LerpValue Alpha) <= 1024.
Proof.
  intros H0 H1.
  pose proof (LerpValue_eq Alpha) as E.
  assert (Hb : 256 <= Qfloor (LerpValue Alpha) <= 1024).
  { apply Qfloor_between; rewrite E;
      [change (inject_Z 256) with 256%Q | change (inject_Z 1024) with 1024%Q];
      lra. }
  split; [|exact Hb].
  unfold FMath.Lerp, FMath.TruncToInt. fold (LerpValue Alpha).
  rewrite quot_floor by (rewrite E; lra).
  apply wrap_int32_small. lia.
Qed.

Lemma Lerp_antitone (a b : Q) :
  (0 <= a)%Q -> (a <= b)%Q -> (b <= 1)%Q ->
  FMath.Lerp MaxTextureSize MinTextureSize b
  <= FMath.Lerp MaxTextureSize MinTextureSize a.
Proof.
  intros H0 Hab H1.
  destruct (Lerp_floor a) as [-> _]; [lra..|].
  destruct (Lerp_floor b) as [-> _]; [lra..|].
  apply Qfloor_resp_le. rewrite !LerpValue_eq. lra.
Qed.

(** Rounding up to a power of two, on arguments that fit. *)
Lemma RoundUpToPowerOfTwo_pow (n : Z) :
  0 <= n <= 2 ^ 30 ->
  FMath.RoundUpToPowerOfTwo n = 2 ^ Z.log2_up n
  /\ 0 <= Z.log2_up n <= 30.
Proof.
  intros Hn.
  assert (Hl : 0 <= Z.log2_up n <= 30).
  { split; [apply Z.log2_up_nonneg|].
    change 30 with (Z.log2_up (2 ^ 30)). apply Z.log2_up_le_mono. lia. }
  split; [|exact Hl].
  unfold FMath.RoundUpToPowerOfTwo, FMath.CeilLogTwo.
  rewrite Z.shiftl_1_l. apply wrap_uint32_small.
  split; [apply Z.pow_nonneg; lia|].
  apply Z.le_lt_trans with (2 ^ 30); [apply Z.pow_le_mono_r; lia | lia].
Qed.

Lemma RoundedSize_pow (n : Z) :
  0 <= n <= 2 ^ 30 ->
  RoundedSize n = 2 ^ Z.log2_up n /\ 0 <= Z.log2_up n <= 30.
Proof.
  intros Hn. unfold RoundedSize.
  rewrite wrap_uint32_small by lia.
  destruct (RoundUpToPowerOfTwo_pow n Hn) as [-> Hl].
  split; [|exact Hl].
  apply wrap_int32_small.
  assert (0 < 2 ^ Z.log2_up n) by (apply Z.pow_pos_nonneg; lia).
  assert (2 ^ Z.log2_up n <= 2 ^ 30) by (apply Z.pow_le_mono_r; lia).
  lia.
Qed.

Lemma RoundedSize_mono (a b : Z) :
  0 <= a -> a <= b -> b <= 2 ^ 30 -> RoundedSize a <= RoundedSize b.
Proof.
  intros H0 Hab Hb.
  destruct (RoundedSize_pow a) as [-> _]; [lia|].
  destruct (RoundedSize_pow b) as [-> _]; [lia|].
  apply Z.pow_le_mono_r; [lia|]. now apply Z.log2_up_le_mono.
Qed.

Lemma RoundedSize_range (n : Z) :
  256 <= n <= 1024 -> 256 <= RoundedSize n <= 1024.
Proof.
  intros Hn. split.
  - change 256 with (RoundedSize 256). apply RoundedSize_mono; lia.
  - change 1024 with (RoundedSize 1024). apply RoundedSize_mono; lia.
Qed.


(** ** The render size as a function of the distance *)

Lemma CalculateRenderSize_unfold (w : UWorld) (d : Q) :
  CalculateRenderSize w d =
  match KnownViewportSize w with
  | Some v => FMath.Clamp (DistanceSize d) MinTextureSize (ScreenMin v)
  | None => DistanceSize d
  end.
Proof.
  unfold CalculateRenderSize, KnownViewportSize, DistanceSize, DistanceAlpha,
    RoundedSize, ScreenMin.
  destruct (GEngine w) as [e|]; [destruct (GameViewport e)|]; reflexivity.
Qed.

Lemma CalculateRenderSize_WithoutViewport (w : UWorld) (d : Q) :
  CalculateRenderSize (WithoutViewport w) d = DistanceSize d.
Proof.
  rewrite CalculateRenderSize_unfold.
  change (KnownViewportSize (WithoutViewport w)) with (@None FVector2D).
  reflexivity.
Qed.

Lemma DistanceAlpha_range (d : Q) :
  (0 <= DistanceAlpha d)%Q /\ (DistanceAlpha d <= 1)%Q.
Proof. apply Clamp01_range. Qed.

Lemma span_positive : (0 < / (FarDistance - NearDistance))%Q.
Proof. vm_compute. reflexivity. Qed.

Lemma DistanceAlpha_mono (d1 d2 : Q) :
  (d1 <= d2)%Q -> (DistanceAlpha d1 <= DistanceAlpha d2)%Q.
Proof.
  intros Hd. apply Clamp01_mono. unfold Qdiv.
  apply Qmult_le_compat_r.
  - unfold NearDistance. lra.
  - apply Qlt_le_weak, span_positive.
Qed.

Lemma DistanceAlpha_near (d : Q) : (d <= 300)%Q -> DistanceAlpha d = 0%Q.
Proof.
  intros Hd. apply Clamp01_low. unfold Qdiv.
  apply Qle_trans with (0 * / (FarDistance - NearDistance))%Q.
  - apply Qmult_le_compat_r.
    + unfold NearDistance. lra.
    + apply Qlt_le_weak, span_positive.
  - rewrite Qmult_0_l. apply Qle_refl.
Qed.

Lemma DistanceAlpha_far (d : Q) : (2000 <= d)%Q -> DistanceAlpha d = 1%Q.
Proof.
  intros Hd. apply Clamp01_high. unfold Qdiv.
  apply Qle_trans
    with ((FarDistance - NearDistance) * / (FarDistance - NearDistance))%Q.
  - vm_compute. discriminate.
  - apply Qmult_le_compat_r.
    + unfold NearDistance, FarDistance. lra.
    + apply Qlt_le_weak, span_positive.
Qed.

Lemma DistanceSize_pow (d : Q) :
  exists k, 8 <= k <= 10 /\ DistanceSize d = 2 ^ k.
Proof.
  destruct (DistanceAlpha_range d) as [H0 H1].
  destruct (Lerp_floor _ H0 H1) as [E Hb].
  unfold DistanceSize. rewrite E.
  destruct (RoundedSize_pow (Qfloor (LerpValue (DistanceAlpha d))))
    as [-> _]; [lia|].
  exists (Z.log2_up (Qfloor (LerpValue (DistanceAlpha d)))).
  split; [|reflexivity].
  split.
  - change 8 with (Z.log2_up 256). apply Z.log2_up_le_mono. lia.
  - change 10 with (Z.log2_up 1024). apply Z.log2_up_le_mono. lia.
Qed.

Lemma DistanceSize_range (d : Q) : 256 <= DistanceSize d <= 1024.
Proof.
  destruct (DistanceSize_pow d) as (k & Hk & ->).
  split.
  - change 256 with (2 ^ 8). apply Z.pow_le_mono_r; lia.
  - change 1024 with (2 ^ 10). apply Z.pow_le_mono_r; lia.
Qed.

Lemma DistanceSize_antitone (d1 d2 : Q) :
  (d1 <= d2)%Q -> DistanceSize d2 <= DistanceSize d1.
Proof.
  intros Hd. unfold DistanceSize.
  destruct (DistanceAlpha_range d1) as [H10 H11].
  destruct (DistanceAlpha_range d2) as [H20 H21].
  pose proof (DistanceAlpha_mono _ _ Hd) as Hm.
  destruct (Lerp_floor _ H10 H11) as [E1 B1].
  destruct (Lerp_floor _ H20 H21) as [E2 B2].
  apply RoundedSize_mono.
  - rewrite E2. lia.
  - now apply Lerp_antitone.
  - rewrite E1. lia.
Qed.

Lemma DistanceSize_near (d : Q) : (d <= 300)%Q -> DistanceSize d = 1024.
Proof.
  intros Hd. unfold DistanceSize. rewrite DistanceAlpha_near by exact Hd.
  vm_compute. reflexivity.
Qed.

Lemma DistanceSize_far (d : Q) : (2000 <= d)%Q -> DistanceSize d = 256.
Proof.
  intros Hd. unfold DistanceSize. rewrite DistanceAlpha_far by exact Hd.
  vm_compute. reflexivity.
Qed.

(** The worked example of the specification, step by step. *)
Example midway_alpha : DistanceAlpha 1150 = (850 # 1700)%Q.
Proof. vm_compute. reflexivity. Qed.

Example midway_alpha_is_half : (DistanceAlpha 1150 == 1 # 2)%Q.
Proof. vm_compute. reflexivity. Qed.

Example midway_lerp :
  FMath.Lerp MaxTextureSize MinTextureSize (DistanceAlpha 1150) = 640.
Proof. vm_compute. reflexivity. Qed.

Example midway_rounded : RoundedSize 640 = 1024.
Proof. vm_compute. reflexivity. Qed.

(** The rounded binary32 computation gives the sizes the specification
    names, and agrees with the idealised one at every whole distance from 0
    to 2500 and at every quarter step between 1425 and 1440, around the
    step from 1024 to 512. *)
Example binary32_named_distances :
  Binary32.DistanceSize (Binary32.IntToFloat 300) = 1024
  /\ Binary32.DistanceSize (Binary32.IntToFloat 1150) = 1024
  /\ Binary32.DistanceSize (Binary32.IntToFloat 2000) = 256.
Proof. vm_compute. repeat split. Qed.

Example binary32_agrees_on_whole_distances :
  forallb
    (fun d => Binary32.DistanceSize (Binary32.IntToFloat d)
              =? DistanceSize (inject_Z d))
    (map Z.of_nat (seq 0 2501)) = true.
Proof. vm_compute. reflexivity. Qed.

Example binary32_agrees_on_quarter_steps :
  forallb
    (fun n => Binary32.DistanceSize
                (SFdiv Binary32.prec Binary32.emax
                   (Binary32.IntToFloat n) (Binary32.IntToFloat 4))
              =? DistanceSize (n # 4))
    (map (fun k => 5700 + Z.of_nat k) (seq 0 61)) = true.
Proof. vm_compute. reflexivity. Qed.

(** C4. With the viewport size unknown, [CalculateRenderSize] does not
    increase when the distance increases, is 1024 for every distance up to
    300 and 256 for every distance from 2000 on, is always a power of two,
    and gives 1024 at distance 1150. *)
Theorem CalculateRenderSize_without_viewport (w : UWorld) :
  KnownViewportSize w = None ->
  (forall d1 d2 : Q,
      (d1 <= d2)%Q -> CalculateRenderSize w d2 <= CalculateRenderSize w d1)
  /\ (forall d : Q, (d <= 300)%Q -> CalculateRenderSize w d = 1024)
  /\ (forall d : Q, (2000 <= d)%Q -> CalculateRenderSize w d = 256)
  /\ (forall d : Q, IsPowerOfTwo (CalculateRenderSize w d))
  /\ CalculateRenderSize w 1150 = 1024.
Proof.
  intros Hv.
  assert (E : forall d, CalculateRenderSize w d = DistanceSize d).
  { intros d. rewrite CalculateRenderSize_unfold, Hv. reflexivity. }
  repeat split.
  - intros d1 d2 Hd. rewrite !E. now apply DistanceSize_antitone.
  - intros d Hd. rewrite E. now apply DistanceSize_near.
  - intros d Hd. rewrite E. now apply DistanceSize_far.
  - intros d. rewrite E. destruct (DistanceSize_pow d) as (k & Hk & ->).
    exists k. split; [lia | reflexivity].
  - rewrite E. vm_compute. reflexivity.
Qed.

Lemma CalculateRenderSize_without_viewport_witness :
  KnownViewportSize (Scene.world OtherActor None) = None
  /\ CalculateRenderSize (Scene.world OtherActor None) 1150 = 1024.
Proof.
  split; [reflexivity|].
  apply (CalculateRenderSize_without_viewport (Scene.world OtherActor None)).
  reflexivity.
Defined.

(** ** The clamp to the viewport *)

Lemma floor_in_range (q : Q) (b : Z) :
  (0 <= q)%Q -> (q <= inject_Z b)%Q -> 0 <= Qfloor q <= b.
Proof. intros H0 Hb. apply Qfloor_between; [exact H0 | exact Hb]. Qed.

Lemma Min_floor (x y : Q) : Qfloor (FMath.Min x y) = Qfloor (Qmin x y).
Proof.
  unfold FMath.Min. destruct (less x y) eqn:E.
  - apply less_Q_lt in E. apply Qfloor_comp. symmetry.
    apply Q.min_l. now apply Qlt_le_weak.
  - apply less_Q_ge in E. apply Qfloor_comp. symmetry.
    now apply Q.min_r.
Qed.

Lemma Min_range (x y lo hi : Q) :
  (lo <= x)%Q -> (x <= hi)%Q -> (lo <= y)%Q -> (y <= hi)%Q ->
  (lo <= FMath.Min x y)%Q /\ (FMath.Min x y <= hi)%Q.
Proof. intros. unfold FMath.Min. destruct (less x y); split; assumption. Qed.

Lemma ScreenMin_spec (v : FVector2D) :
  ViewportInRange v ->
  ScreenMin v = spec_bound_of_smaller_dimension v
  /\ exists k, 0 <= k <= 30 /\ ScreenMin v = 2 ^ k.
Proof.
  intros (Hx0 & Hx1 & Hy0 & Hy1).
  destruct (Min_range (X2 v) (Y2 v) 0%Q (inject_Z (2 ^ 30))) as [Hm0 Hm1];
    try assumption.
  pose proof (floor_in_range _ _ Hm0 Hm1) as Hf.
  assert (E : ScreenMin v = 2 ^ Z.log2_up (Qfloor (FMath.Min (X2 v) (Y2 v)))).
  { unfold ScreenMin, FMath.TruncToUInt. rewrite quot_floor by exact Hm0.
    fold (RoundedSize (Qfloor (FMath.Min (X2 v) (Y2 v)))).
    now destruct (RoundedSize_pow _ Hf) as [-> _]. }
  split.
  - rewrite E. unfold spec_bound_of_smaller_dimension,
      round_up_to_power_of_two. now rewrite Min_floor.
  - exists (Z.log2_up (Qfloor (FMath.Min (X2 v) (Y2 v)))).
    split; [|exact E].
    now destruct (RoundedSize_pow _ Hf) as [_ ?].
Qed.

(** C5, as the code has it. With a known viewport size (its dimensions
    within the range where the conversions do not wrap), the result is a
    power of two and at most 1024.  The clamp bound is the SMALLER viewport
    dimension rounded up to a power of two; whenever that bound is at least
    [MinTextureSize] the result is the smaller of the distance-based size
    and the bound, and lies between [MinTextureSize] and the bound. *)
Theorem CalculateRenderSize_viewport_clamp
    (w : UWorld) (v : FVector2D) (d : Q) :
  KnownViewportSize w = Some v ->
  ViewportInRange v ->
  IsPowerOfTwo (CalculateRenderSize w d)
  /\ CalculateRenderSize w d <= 1024
  /\ (MinTextureSize <= spec_bound_of_smaller_dimension v ->
      CalculateRenderSize w d
      = Z.min (CalculateRenderSize (WithoutViewport w) d)
              (spec_bound_of_smaller_dimension v)
      /\ MinTextureSize <= CalculateRenderSize w d
                        <= spec_bound_of_smaller_dimension v).
Proof.
  intros Hv Hr.
  destruct (ScreenMin_spec v Hr) as [Eb (j & Hj & Ej)].
  rewrite CalculateRenderSize_unfold, Hv, CalculateRenderSize_WithoutViewport.
  rewrite Clamp_Z, <- Eb.
  destruct (DistanceSize_pow d) as (k & Hk & Ek).
  pose proof (DistanceSize_range d) as Hd.
  unfold MinTextureSize.
  split; [|split].
  - destruct (Z.max_spec (Z.min (DistanceSize d) (ScreenMin v)) 256)
      as [[_ ->]|[_ ->]].
    + exists 8. split; [lia | reflexivity].
    + destruct (Z.min_spec (DistanceSize d) (ScreenMin v))
        as [[_ ->]|[_ ->]].
      * exists k. split; [lia | exact Ek].
      * exists j. split; [lia | exact Ej].
  - lia.
  - intros Hb. lia.
Qed.

Lemma CalculateRenderSize_viewport_clamp_witness :
  MinTextureSize <= spec_bound_of_smaller_dimension Scene.hd_viewport
  /\ CalculateRenderSize (Scene.world OtherActor (Some Scene.hd_viewport)) 0
     = 1024.
Proof.
  assert (Hb : MinTextureSize
               <= spec_bound_of_smaller_dimension Scene.hd_viewport)
    by (vm_compute; discriminate).
  split; [exact Hb|].
  destruct (CalculateRenderSize_viewport_clamp
              (Scene.world OtherActor (Some Scene.hd_viewport))
              Scene.hd_viewport 0%Q) as (_ & _ & H).
  - reflexivity.
  - unfold ViewportInRange. vm_compute. repeat split; discriminate.
  - destruct (H Hb) as [E _]. rewrite E. vm_compute. reflexivity.
Defined.

(** C5, as stated, fails twice.  On a 1920 x 300 viewport the nearest
    distance gives 512, the clamp to the smaller side rounded up, where a
    clamp to the larger side rounded up (2048) would leave 1024.  On a
    100 x 100 viewport the bound is 128, so the interval from
    [MinTextureSize] to the bound is empty and the result is not in it. *)
Lemma CalculateRenderSize_viewport_counterexample :
  CalculateRenderSize (Scene.world OtherActor (Some Scene.wide_viewport)) 0
    <> Z.max (Z.min (CalculateRenderSize
                       (WithoutViewport
                          (Scene.world OtherActor (Some Scene.wide_viewport)))
                       0)
                    (spec_bound_of_larger_dimension Scene.wide_viewport))
             MinTextureSize
  /\ ~ (MinTextureSize
        <= CalculateRenderSize
             (Scene.world OtherActor (Some Scene.small_viewport)) 0
        <= spec_bound_of_smaller_dimension Scene.small_viewport).
Proof.
  split.
  - vm_compute. discriminate.
  - vm_compute. intros [_ H]. apply H. reflexivity.
Qed.

(** ** Running methods *)

Lemma fresh_object_unused (m : gmap nat UTextureRenderTarget2D) :
  m !! fresh (dom m) = None.
Proof. apply not_elem_of_dom, is_fresh. Qed.

Lemma store_fresh (c : UPortalSceneCapture)
    (m : gmap nat UTextureRenderTarget2D) (l : list FSceneCapture)
    (p : nat) (o : UTextureRenderTarget2D)
    (f : UTextureRenderTarget2D -> UTextureRenderTarget2D) :
  store p f {| this := c; Objects := <[p := o]> m; Captures := l |}
  = Some (tt, {| this := c; Objects := <[p := f o]> m; Captures := l |}).
Proof.
  unfold store. simpl. rewrite lookup_insert_eq.
  now rewrite insert_insert_eq.
Qed.

(** The hysteresis test of [UpdateRenderTarget], on the integers. *)
Lemma resize_test (desired cached : Z) :
  less 32%Q (FMath.Abs (FMath.IntToFloat desired
                        - FMath.IntToFloat cached)%Q) = true
  <-> 32 < Z.abs (desired - cached).
Proof.
  rewrite less_Q_lt.
  unfold FMath.Abs, FMath.IntToFloat, Qlt, Qabs, Qminus, Qplus, Qopp,
    inject_Z. simpl. lia.
Qed.

Lemma keep_test (desired cached : Z) :
  less 32%Q (FMath.Abs (FMath.IntToFloat desired
                        - FMath.IntToFloat cached)%Q) = false
  <-> Z.abs (desired - cached) <= 32.
Proof.
  rewrite <- not_true_iff_false, resize_test. lia.
Qed.

Section RenderTarget.

Context {engine : Engine}.

(** C6. A call of [UpdateRenderTarget]: when the desired size is within 32
    of the cached size, the published target, the cached size and the
    set of render-target objects stay as they are (only the last distance
    is recorded); when it differs by more than 32, a new object, unused
    before, square of the desired size and cleared to black, is published
    as the target and the cached size becomes the desired size. *)
Theorem UpdateRenderTarget_hysteresis (w : UWorld) (s : State) :
  (Z.abs (DesiredSize w s - CachedRenderSize (this s)) <= 32 ->
   exists s',
     UpdateRenderTarget w s = Some (tt, s')
     /\ TextureTarget (this s') = TextureTarget (this s)
     /\ CachedRenderSize (this s') = CachedRenderSize (this s)
     /\ Objects s' = Objects s)
  /\ (32 < Z.abs (DesiredSize w s - CachedRenderSize (this s)) ->
      exists s' p o,
        UpdateRenderTarget w s = Some (tt, s')
        /\ Objects s !! p = None
        /\ TextureTarget (this s') = Some p
        /\ Objects s' = <[p := o]> (Objects s)
        /\ SizeX o = DesiredSize w s
        /\ SizeY o = DesiredSize w s
        /\ ClearColor o = LinearColor.Black
        /\ CachedRenderSize (this s') = DesiredSize w s).
Proof.
  unfold DesiredSize. split; intros Hd.
  - apply keep_test in Hd.
    unfold UpdateRenderTarget, bind, get_this. rewrite Hd. simpl.
    eexists. split; [reflexivity|]. simpl. auto.
  - apply resize_test in Hd.
    unfold UpdateRenderTarget, bind, get_this. rewrite Hd.
    unfold NewObject. rewrite !store_fresh. simpl.
    eexists _, (fresh (dom (Objects s))), _.
    split; [reflexivity|]. simpl.
    split; [apply fresh_object_unused|].
    split; [reflexivity|]. auto.
Qed.

End RenderTarget.

Lemma UpdateRenderTarget_hysteresis_witness :
  (exists s',
      UpdateRenderTarget (Scene.world OtherActor None)
        (Scene.after (UpdateRenderTarget (Scene.world OtherActor None))
                     Scene.initial)
      = Some (tt, s')
      /\ CachedRenderSize (this s') = 1024)
  /\ (exists s' p,
         UpdateRenderTarget (Scene.world OtherActor None) Scene.initial
         = Some (tt, s')
         /\ TextureTarget (this s') = Some p
         /\ CachedRenderSize (this s') = 1024).
Proof.
  split.
  - destruct (proj1 (UpdateRenderTarget_hysteresis
                       (Scene.world OtherActor None)
                       (Scene.after
                          (UpdateRenderTarget (Scene.world OtherActor None))
                          Scene.initial)))
      as (s' & E & _ & C & _).
    + vm_compute. discriminate.
    + exists s'. split; [exact E|]. rewrite C. reflexivity.
  - destruct (proj2 (UpdateRenderTarget_hysteresis
                       (Scene.world OtherActor None) Scene.initial))
      as (s' & p & o & E & _ & T & _ & _ & _ & _ & C).
    + vm_compute. reflexivity.
    + exists s', p. split; [exact E|]. split; [exact T|].
      rewrite C. reflexivity.
Defined.

(** ** Owner resolution and pointer reads *)

Lemma with_this_same (s : State) : with_this (this s) s = s.
Proof. now destruct s. Qed.

Lemma IsOwnerValid_run (w : UWorld) (s : State) :
  IsOwnerValid w s
  = Some (IsSet (m_owner (ResolveOwner w (this s))),
          with_this (ResolveOwner w (this s)) s).
Proof.
  unfold IsOwnerValid, SetOwnerIfAvailable, ResolveOwner, bind, get_this.
  destruct (m_owner (this s)) eqn:Eo.
  - cbn. rewrite Eo. cbn. now rewrite with_this_same.
  - destruct (Owner w); cbn.
    + reflexivity.
    + rewrite Eo. cbn. now rewrite with_this_same.
Qed.

Lemma ResolveOwner_set (w : UWorld) (c : UPortalSceneCapture) :
  IsSet (m_owner c) = true -> ResolveOwner w c = c.
Proof. unfold ResolveOwner. now destruct (m_owner c). Qed.

Lemma ResolveOwner_unresolved (w : UWorld) (c : UPortalSceneCapture) :
  m_owner c = None -> Owner w = OtherActor ->
  ResolveOwner w c = c /\ IsSet (m_owner (ResolveOwner w c)) = false.
Proof. intros Hc Hw. unfold ResolveOwner. now rewrite Hc, Hw, Hc. Qed.

Lemma portal_at_run (w : UWorld) (p : option nat) (a : APortal) (s : State) :
  PortalOf w p = Some a -> portal_at w p s = Some (a, s).
Proof.
  unfold PortalOf, portal_at. destruct p as [id|]; [|discriminate].
  now intros ->.
Qed.

Lemma scale_neg_flipped (v : FVector) :
  Vec.equiv (Vec.scale (Vec.neg v) (FMath.IntToFloat (-1))) v.
Proof.
  unfold Vec.equiv, Vec.scale, Vec.neg, FMath.IntToFloat. cbn [X Y Z_].
  change (inject_Z (-1)) with (-1)%Q. split; [|split]; ring.
Qed.

Lemma scale_neg_kept (v : FVector) :
  Vec.equiv (Vec.scale (Vec.neg v) (FMath.IntToFloat 1)) (Vec.neg v).
Proof.
  unfold Vec.equiv, Vec.scale, Vec.neg, FMath.IntToFloat. cbn [X Y Z_].
  change (inject_Z 1) with 1%Q. split; [|split]; ring.
Qed.

Section ClipPlane.

Context {decls : PortalDecls}.

Lemma UpdateNearClipPlane_run (w : UWorld) (s : State) (target : APortal) :
  IsSet (m_owner (ResolveOwner w (this s))) = true ->
  PortalOf w (TargetPortal (ResolveOwner w (this s))) = Some target ->
  UpdateNearClipPlane_Implementation w s
  = Some (tt,
          with_this
            (set_ClipPlaneBase
               (Vec.add (ActorLocation target)
                  (Vec.lscale (3 # 10)
                     (Vec.scale (Vec.neg (ActorForwardVector target))
                        (FMath.IntToFloat
                           (ClipSign (ResolveOwner w (this s)))))))
               (set_ClipPlaneNormal
                  (Vec.scale (Vec.neg (ActorForwardVector target))
                     (FMath.IntToFloat (ClipSign (ResolveOwner w (this s)))))
                  (ResolveOwner w (this s))))
            s).
Proof.
  intros Hv Ht.
  unfold UpdateNearClipPlane_Implementation, bind.
  rewrite IsOwnerValid_run, Hv.
  unfold get_this. cbn [this with_this].
  unfold TargetPortal in Ht. unfold ClipSign.
  destruct (getType (ResolveOwner w (this s))); cbn [ECameraType_eqb orb];
    rewrite (portal_at_run _ _ _ _ Ht); reflexivity.
Qed.

(** C7. The clip plane computed by [UpdateNearClipPlane]: the target portal
    is the linked portal when the camera type is [Portal], else the owning
    portal; the normal is minus the target's forward vector, times -1 when
    the type is [Mirror] or [m_exit_in_front] is set and times 1 otherwise;
    the base is the target's location plus 0.3 times the normal.  So the
    normal is the forward vector itself for [Mirror] or exit-in-front, and
    its opposite for [Portal] without exit-in-front. *)
Theorem UpdateNearClipPlane_plane (w : UWorld) (s : State) (target : APortal) :
  IsSet (m_owner (ResolveOwner w (this s))) = true ->
  PortalOf w
    (if ECameraType_eqb (getType (ResolveOwner w (this s))) Portal
     then m_linked_portal (ResolveOwner w (this s))
     else m_owner (ResolveOwner w (this s))) = Some target ->
  exists s',
    UpdateNearClipPlane_Implementation w s = Some (tt, s')
    /\ ClipPlaneNormal (this s')
       = Vec.scale (Vec.neg (ActorForwardVector target))
           (FMath.IntToFloat
              (if ECameraType_eqb (getType (ResolveOwner w (this s))) Mirror
                  || m_exit_in_front (ResolveOwner w (this s))
               then -1 else 1))
    /\ ClipPlaneBase (this s')
       = Vec.add (ActorLocation target)
           (Vec.lscale (3 # 10) (ClipPlaneNormal (this s')))
    /\ (getType (ResolveOwner w (this s)) = Mirror
        \/ m_exit_in_front (ResolveOwner w (this s)) = true ->
        Vec.equiv (ClipPlaneNormal (this s')) (ActorForwardVector target))
    /\ (getType (ResolveOwner w (this s)) = Portal ->
        m_exit_in_front (ResolveOwner w (this s)) = false ->
        Vec.equiv (ClipPlaneNormal (this s'))
                  (Vec.neg (ActorForwardVector target))).
Proof.
  intros Hv Ht.
  assert (Ht' : PortalOf w (TargetPortal (ResolveOwner w (this s)))
                = Some target).
  { unfold TargetPortal.
    destruct (getType (ResolveOwner w (this s))); exact Ht. }
  eexists. split; [apply (UpdateNearClipPlane_run w s target Hv Ht')|].
  cbn [this with_this set_ClipPlaneBase set_ClipPlaneNormal
       ClipPlaneNormal ClipPlaneBase].
  unfold ClipSign.
  split; [|split; [|split]].
  - destruct (getType (ResolveOwner w (this s))),
      (m_exit_in_front (ResolveOwner w (this s))); reflexivity.
  - reflexivity.
  - intros Hm.
    destruct (getType (ResolveOwner w (this s))),
      (m_exit_in_front (ResolveOwner w (this s)));
      try (destruct Hm; discriminate); apply scale_neg_flipped.
  - intros Hp He. rewrite Hp, He. apply scale_neg_kept.
Qed.

End ClipPlane.

Lemma UpdateNearClipPlane_plane_witness :
  exists s',
    UpdateNearClipPlane_Implementation Scene.home Scene.playing
    = Some (tt, s')
    /\ Vec.equiv (ClipPlaneNormal (this s'))
                 (Vec.neg (ActorForwardVector Scene.portal_there)).
Proof.
  destruct (UpdateNearClipPlane_plane Scene.home Scene.playing
              Scene.portal_there)
    as (s' & E & _ & _ & _ & H).
  - vm_compute. reflexivity.
  - vm_compute. reflexivity.
  - exists s'. split; [exact E|]. apply H; vm_compute; reflexivity.
Defined.

(** ** The transformation step *)

Section Transformation.

Context {engine : Engine} {decls : PortalDecls}.

Lemma PortalOf_set (w : UWorld) (p : option nat) (a : APortal) :
  PortalOf w p = Some a -> IsSet p = true.
Proof. destruct p; [reflexivity | discriminate]. Qed.

(** No refraction is computed: the input pose goes to the transform as it
    is and no member but the world transform is written. *)
Lemma UpdateTransformation_unbent (w : UWorld) (s : State)
    (watched : FTransform) :
  IsSet (m_owner (ResolveOwner w (this s))) = true ->
  Refracts (ResolveOwner w (this s)) = false ->
  UpdateTransformation_Implementation w watched s
  = Some (tt,
          with_this
            (set_ComponentToWorld
               (ComputeNewTransform watched w
                  (m_owner (ResolveOwner w (this s)))
                  (ResolveOwner w (this s)))
               (ResolveOwner w (this s)))
            s).
Proof.
  intros Hv Hr.
  unfold UpdateTransformation_Implementation, bind.
  rewrite IsOwnerValid_run, Hv.
  unfold get_this. cbn [this with_this].
  unfold Refracts in Hr. rewrite Hr. reflexivity.
Qed.

(** Total reflection: the flag is raised and the input pose goes to the
    transform as it is. *)
Lemma UpdateTransformation_total (w : UWorld) (s : State)
    (watched : FTransform) (owner : APortal) :
  PortalOf w (m_owner (ResolveOwner w (this s))) = Some owner ->
  Refracts (ResolveOwner w (this s)) = true ->
  TotallyReflects (ResolveOwner w (this s)) watched owner = true ->
  UpdateTransformation_Implementation w watched s
  = Some (tt,
          with_this
            (set_ComponentToWorld
               (ComputeNewTransform watched w
                  (m_owner (ResolveOwner w (this s)))
                  (set_m_is_total_reflection true (ResolveOwner w (this s))))
               (set_m_is_total_reflection true (ResolveOwner w (this s))))
            s).
Proof.
  intros Ho Hr Ht.
  unfold UpdateTransformation_Implementation, bind.
  rewrite IsOwnerValid_run, (PortalOf_set _ _ _ Ho).
  unfold get_this. cbn [this with_this].
  unfold Refracts in Hr. rewrite Hr.
  rewrite (portal_at_run _ _ _ _ Ho).
  unfold TotallyReflects, RefractionAngle, IncidenceAngle in Ht.
  rewrite Ht. reflexivity.
Qed.

(** Refraction: the flag is lowered and the refracted pose goes to the
    transform. *)
Lemma UpdateTransformation_refracted (w : UWorld) (s : State)
    (watched : FTransform) (owner : APortal) :
  PortalOf w (m_owner (ResolveOwner w (this s))) = Some owner ->
  Refracts (ResolveOwner w (this s)) = true ->
  TotallyReflects (ResolveOwner w (this s)) watched owner = false ->
  UpdateTransformation_Implementation w watched s
  = Some (tt,
          with_this
            (set_ComponentToWorld
               (ComputeNewTransform
                  (RefractedPose watched owner
                     (IncidenceAngle watched owner)
                     (RefractionAngle (ResolveOwner w (this s)) watched owner))
                  w
                  (m_owner (ResolveOwner w (this s)))
                  (set_m_is_total_reflection false (ResolveOwner w (this s))))
               (set_m_is_total_reflection false (ResolveOwner w (this s))))
            s).
Proof.
  intros Ho Hr Ht.
  unfold UpdateTransformation_Implementation, bind.
  rewrite IsOwnerValid_run, (PortalOf_set _ _ _ Ho).
  unfold get_this. cbn [this with_this].
  unfold Refracts in Hr. rewrite Hr.
  rewrite (portal_at_run _ _ _ _ Ho).
  unfold TotallyReflects, RefractionAngle, IncidenceAngle in Ht.
  rewrite Ht. reflexivity.
Qed.

(** The owner cannot be resolved: nothing happens. *)
Lemma UpdateTransformation_skipped (w : UWorld) (s : State)
    (watched : FTransform) :
  m_owner (this s) = None -> Owner w = OtherActor ->
  UpdateTransformation_Implementation w watched s = Some (tt, s).
Proof.
  intros Hc Hw.
  destruct (ResolveOwner_unresolved w (this s) Hc Hw) as [E1 E2].
  unfold UpdateTransformation_Implementation, bind.
  rewrite IsOwnerValid_run, E2, E1, with_this_same. reflexivity.
Qed.

Lemma Refracts_true (c : UPortalSceneCapture) :
  GetTrueType c <> Mirror ->
  ~ (m_refractive_ind_1 c == m_refractive_ind_2 c)%Q ->
  Refracts c = true.
Proof.
  intros Ht Hn. unfold Refracts.
  destruct (GetTrueType c); [congruence|]. cbn.
  destruct (Qeq_bool _ _) eqn:E; [|reflexivity].
  apply Qeq_bool_iff in E. contradiction.
Qed.

Lemma Refracts_false (c : UPortalSceneCapture) :
  GetTrueType c = Mirror
  \/ (m_refractive_ind_1 c == m_refractive_ind_2 c)%Q ->
  Refracts c = false.
Proof.
  intros [Ht | Hn]; unfold Refracts.
  - now rewrite Ht.
  - apply Qeq_bool_iff in Hn. rewrite Hn. apply andb_false_r.
Qed.

(** C1. In the refraction branch (true type not [Mirror], different
    refractive indices, no total reflection) the pose handed to the portal
    transform is the refracted pose: the watcher's position turned about
    the portal midpoint, around the unit normal of the plane through the
    watcher position, the midpoint and the midpoint plus the portal normal,
    by (incidence - refraction) degrees; and the watcher's orientation
    composed on the left with that rotation once its pitch and roll are
    zeroed. *)
Theorem UpdateTransformation_refraction (w : UWorld) (s : State)
    (watched : FTransform) (owner : APortal) :
  PortalOf w (m_owner (ResolveOwner w (this s))) = Some owner ->
  GetTrueType (ResolveOwner w (this s)) <> Mirror ->
  ~ (m_refractive_ind_1 (ResolveOwner w (this s))
     == m_refractive_ind_2 (ResolveOwner w (this s)))%Q ->
  ~ (RefractionAngle (ResolveOwner w (this s)) watched owner == -1)%Q ->
  exists s' bent,
    UpdateTransformation_Implementation w watched s = Some (tt, s')
    /\ ComponentToWorld (this s')
       = ComputeNewTransform bent w (m_owner (this s'))
           (set_m_is_total_reflection false (ResolveOwner w (this s)))
    /\ GetLocation bent
       = RotateAbout (MiddlePoint owner)
           (RotationByDegrees
              (UnitNormalOfPlaneThrough (GetLocation watched)
                 (MiddlePoint owner)
                 (Vec.add (MiddlePoint owner) (ActorForwardVector owner)))
              (IncidenceAngle watched owner
               - RefractionAngle (ResolveOwner w (this s)) watched owner)%Q)
           (GetLocation watched)
    /\ GetRotation bent
       = FQuat_Mul
           (FQuat_FromRotator
              (YawOnly
                 (RotationByDegrees
                    (UnitNormalOfPlaneThrough (GetLocation watched)
                       (MiddlePoint owner)
                       (Vec.add (MiddlePoint owner)
                                (ActorForwardVector owner)))
                    (IncidenceAngle watched owner
                     - RefractionAngle (ResolveOwner w (this s))
                         watched owner)%Q)))
           (GetRotation watched)
    /\ Scale3D bent = Scale3D watched
    /\ m_is_total_reflection (this s') = false.
Proof.
  intros Ho Ht Hn Hr.
  assert (Hb : Refracts (ResolveOwner w (this s)) = true)
    by now apply Refracts_true.
  assert (Hf : TotallyReflects (ResolveOwner w (this s)) watched owner
               = false).
  { unfold TotallyReflects. destruct (Qeq_bool _ _) eqn:E; [|reflexivity].
    apply Qeq_bool_iff in E. contradiction. }
  eexists _, _.
  split; [apply (UpdateTransformation_refracted w s watched owner Ho Hb Hf)|].
  cbn. repeat split; reflexivity.
Qed.

End Transformation.

Lemma UpdateTransformation_refraction_witness :
  exists s' bent,
    UpdateTransformation_Implementation Scene.home Scene.near_watcher
      Scene.playing = Some (tt, s')
    /\ ComponentToWorld (this s')
       = ComputeNewTransform bent Scene.home (m_owner (this s'))
           (set_m_is_total_reflection false
              (ResolveOwner Scene.home (this Scene.playing)))
    /\ m_is_total_reflection (this s') = false.
Proof.
  destruct (UpdateTransformation_refraction Scene.home Scene.playing
              Scene.near_watcher Scene.portal_here)
    as (s' & bent & E & T & _ & _ & _ & F).
  - vm_compute. reflexivity.
  - vm_compute. discriminate.
  - vm_compute. discriminate.
  - vm_compute. discriminate.
  - exists s', bent. auto.
Defined.

(** ** Members a method leaves alone *)

Lemma Keeps_ret {T X} (member : UPortalSceneCapture -> X) (x : T) :
  Keeps member (ret x).
Proof. intros s y s' E. now inversion E. Qed.

Lemma Keeps_fault {T X} (member : UPortalSceneCapture -> X) :
  Keeps member (@fault T).
Proof. intros s y s' E. discriminate. Qed.

Lemma Keeps_bind {T U X} (member : UPortalSceneCapture -> X)
    (c : Method T) (k : T -> Method U) :
  Keeps member c -> (forall x, Keeps member (k x)) ->
  Keeps member (bind c k).
Proof.
  intros Hc Hk s y s' E. unfold bind in E.
  destruct (c s) as [[x s1]|] eqn:Ec; [|discriminate].
  rewrite (Hk x _ _ _ E). exact (Hc _ _ _ Ec).
Qed.

Lemma Keeps_get_this {X} (member : UPortalSceneCapture -> X) :
  Keeps member get_this.
Proof. intros s y s' E. now inversion E. Qed.

Lemma Keeps_assign {X} (member : UPortalSceneCapture -> X)
    (f : UPortalSceneCapture -> UPortalSceneCapture) :
  (forall c, member (f c) = member c) -> Keeps member (assign f).
Proof. intros Hf s y s' E. inversion E. apply Hf. Qed.

Lemma Keeps_NewObject {X} (member : UPortalSceneCapture -> X)
    (o : UTextureRenderTarget2D) :
  Keeps member (NewObject o).
Proof. intros s y s' E. now inversion E. Qed.

Lemma Keeps_load {X} (member : UPortalSceneCapture -> X) (p : nat) :
  Keeps member (load p).
Proof.
  intros s y s' E. unfold load in E.
  destruct (Objects s !! p); now inversion E.
Qed.

Lemma Keeps_store {X} (member : UPortalSceneCapture -> X) (p : nat)
    (f : UTextureRenderTarget2D -> UTextureRenderTarget2D) :
  Keeps member (store p f).
Proof.
  intros s y s' E. unfold store in E.
  destruct (Objects s !! p); now inversion E.
Qed.

Lemma Keeps_portal_at {X} (member : UPortalSceneCapture -> X)
    (w : UWorld) (p : option nat) :
  Keeps member (portal_at w p).
Proof.
  unfold portal_at. destruct p as [id|]; [|apply Keeps_fault].
  destruct (Portals w !! id); [apply Keeps_ret | apply Keeps_fault].
Qed.

Lemma Keeps_CaptureScene {X} (member : UPortalSceneCapture -> X) :
  Keeps member CaptureScene.
Proof. intros s y s' E. now inversion E. Qed.

(** One step of the syntax-directed proof that a method keeps a member;
    an assignment is left with the goal that its setter keeps it. *)
Ltac keeps_step :=
  lazymatch goal with
  | |- Keeps _ (bind _ _) => apply Keeps_bind; [|intros ?]
  | |- Keeps _ (ret _) => apply Keeps_ret
  | |- Keeps _ fault => apply Keeps_fault
  | |- Keeps _ get_this => apply Keeps_get_this
  | |- Keeps _ (assign _) => apply Keeps_assign; intros ?; reflexivity
  | |- Keeps _ (NewObject _) => apply Keeps_NewObject
  | |- Keeps _ (load _) => apply Keeps_load
  | |- Keeps _ (store _ _) => apply Keeps_store
  | |- Keeps _ (portal_at _ _) => apply Keeps_portal_at
  | |- Keeps _ CaptureScene => apply Keeps_CaptureScene
  | |- Keeps _ (if ?b then _ else _) => destruct b
  | |- Keeps _ (match ?x with _ => _ end) => destruct x
  end.

Ltac keeps := repeat keeps_step.

Section Kept.

Context {engine : Engine} {decls : PortalDecls}.

Lemma GenerateDefaultTexture_keeps_configuration (w : UWorld) :
  Keeps Configuration (GenerateDefaultTexture w).
Proof. unfold GenerateDefaultTexture. keeps. Qed.

Lemma IsOwnerValid_keeps_configuration (w : UWorld) :
  Keeps Configuration (IsOwnerValid w).
Proof. unfold IsOwnerValid, SetOwnerIfAvailable. keeps. Qed.

Lemma UpdateTransformation_keeps_configuration (w : UWorld)
    (watched : FTransform) :
  Keeps Configuration (UpdateTransformation_Implementation w watched).
Proof.
  unfold UpdateTransformation_Implementation.
  apply Keeps_bind; [apply IsOwnerValid_keeps_configuration|intros ?].
  keeps.
Qed.

Lemma UpdateNearClipPlane_keeps_configuration (w : UWorld) :
  Keeps Configuration (UpdateNearClipPlane_Implementation w).
Proof.
  unfold UpdateNearClipPlane_Implementation.
  apply Keeps_bind; [apply IsOwnerValid_keeps_configuration|intros ?].
  keeps.
Qed.

Lemma UpdateRenderTarget_keeps_configuration (w : UWorld) :
  Keeps Configuration (UpdateRenderTarget w).
Proof. unfold UpdateRenderTarget. keeps. Qed.

Lemma Update_keeps_configuration (w : UWorld) (watched : FTransform)
    (projection : FMatrix) :
  Keeps Configuration (Update w watched projection).
Proof.
  unfold Update.
  apply Keeps_bind; [keeps|intros c].
  apply Keeps_bind; [keeps|intros missing].
  apply Keeps_bind.
  { destruct missing;
      [apply GenerateDefaultTexture_keeps_configuration | keeps]. }
  intros _.
  apply Keeps_bind; [apply IsOwnerValid_keeps_configuration|intros valid].
  destruct valid; [|keeps].
  apply Keeps_bind; [keeps|intros c1].
  apply Keeps_bind.
  { destruct (m_linked_portal c1); [|keeps].
    apply Keeps_bind;
      [apply UpdateTransformation_keeps_configuration|intros _].
    apply UpdateNearClipPlane_keeps_configuration. }
  intros _. keeps.
Qed.

Lemma run_frames_keep_configuration (fs : list Frame) :
  Keeps Configuration (run_frames fs).
Proof.
  induction fs as [|f fs IH]; cbn [run_frames].
  - apply Keeps_ret.
  - apply Keeps_bind; [|intros _; exact IH].
    destruct f; cbn [run_frame].
    + apply Update_keeps_configuration.
    + apply UpdateRenderTarget_keeps_configuration.
Qed.

End Kept.

(** ** Configuration and activation *)

Section Activation.

Context {engine : Engine}.


Lemma GenerateDefaultTexture_run (w : UWorld) (s : State) :
  GenerateDefaultTexture w s = Some (tt, Bootstrapped w s).
Proof.
  unfold GenerateDefaultTexture, bind, get_this, assign, NewObject.
  cbn [this Objects Captures].
  rewrite !store_fresh. reflexivity.
Qed.

Lemma SetOwnerIfAvailable_run (w : UWorld) (s : State) :
  exists b,
    SetOwnerIfAvailable w s = Some (b, with_this (TakeOwner w (this s)) s).
Proof.
  unfold SetOwnerIfAvailable, TakeOwner.
  destruct (Owner w).
  - exists true. reflexivity.
  - exists false. unfold ret. now rewrite with_this_same.
Qed.

Lemma BeginPlay_run (w : UWorld) (s : State) :
  BeginPlay w s
  = Some (tt, with_this
                (Normalized (TakeOwner w (this (Bootstrapped w s))))
                (Bootstrapped w s)).
Proof.
  unfold BeginPlay, bind at 1.
  rewrite GenerateDefaultTexture_run.
  unfold bind at 1.
  destruct (SetOwnerIfAvailable_run w (Bootstrapped w s)) as [b ->].
  generalize (TakeOwner w (this (Bootstrapped w s))) as c.
  generalize (Bootstrapped w s) as s0.
  intros s0 c. unfold Normalized, bind, get_this.
  cbn [this with_this].
  destruct (negb (ECameraType_eqb (m_type c) Portal));
    cbn [assign ret this with_this Objects Captures];
    (destruct (less (m_weight _) 0%Q);
     cbn [assign ret this with_this Objects Captures];
     (destruct (m_linked_portal _);
      cbn [assign ret this with_this Objects Captures]; reflexivity)).
Qed.



End Activation.


(** C10, as the code has it. [BeginPlay] keeps the configured type; after
    it, whatever [m_exit_in_front] was before, the flag is false unless the
    type is [Portal]; and this still holds after any sequence of calls of
    [Update] and [UpdateRenderTarget] that follows, as long as [Init] is
    not called again. *)
Theorem BeginPlay_exit_in_front_only_for_Portal
    {engine : Engine} {decls : PortalDecls} (w : UWorld) (s : State) :
  exists s1,
    BeginPlay w s = Some (tt, s1)
    /\ m_type (this s1) = m_type (this s)
    /\ (m_type (this s1) <> Portal -> m_exit_in_front (this s1) = false)
    /\ forall (frames : list Frame) (s2 : State),
         run_frames frames s1 = Some (tt, s2) ->
         m_type (this s2) = m_type (this s)
         /\ (m_type (this s2) <> Portal ->
             m_exit_in_front (this s2) = false).
Proof.
  pose proof (BeginPlay_run w s) as Hb.
  assert (Et0 : m_type (TakeOwner w (this (Bootstrapped w s)))
                = m_type (this s)).
  { unfold TakeOwner. destruct (Owner w); reflexivity. }
  set (c0 := TakeOwner w (this (Bootstrapped w s))) in *.
  set (s0 := Bootstrapped w s) in *.
  clearbody c0 s0.
  assert (E : m_type (Normalized c0) = m_type c0
              /\ (m_type c0 <> Portal ->
                  m_exit_in_front (Normalized c0) = false)).
  { unfold Normalized.
    destruct (m_type c0) eqn:Et; cbn [ECameraType_eqb negb];
      cbn [m_weight set_m_exit_in_front];
      destruct (less (m_weight c0) 0%Q);
      cbn [m_linked_portal set_m_exit_in_front set_m_weight];
      destruct (m_linked_portal c0); cbn; rewrite ?Et; split;
      congruence. }
  destruct E as [Et Ee]. rewrite Et0 in Et, Ee.
  exists (with_this (Normalized c0) s0).
  split; [exact Hb|].
  cbn [this with_this].
  split; [exact Et|].
  split; [rewrite Et; exact Ee|].
  intros frames s2 Hrun.
  pose proof (run_frames_keep_configuration frames _ _ _ Hrun) as Hk.
  unfold Configuration in Hk. cbn [this with_this] in Hk.
  injection Hk as Hkt Hke.
  rewrite Hkt, Hke. split; [exact Et | rewrite Et; exact Ee].
Qed.

Lemma BeginPlay_exit_in_front_only_for_Portal_witness :
  m_exit_in_front (this (Scene.after (Init Mirror None true 1) Scene.initial))
  = true
  /\ exists s1,
       BeginPlay Scene.home
         (Scene.after (Init Mirror None true 1) Scene.initial)
       = Some (tt, s1)
       /\ m_exit_in_front (this s1) = false
       /\ forall s2,
            run_frames
              [FrameUpdate Scene.home Scene.watcher Scene.identity_matrix;
               FrameRenderTarget Scene.home] s1 = Some (tt, s2) ->
            m_exit_in_front (this s2) = false.
Proof.
  split; [vm_compute; reflexivity|].
  destruct (BeginPlay_exit_in_front_only_for_Portal Scene.home
              (Scene.after (Init Mirror None true 1) Scene.initial))
    as (s1 & E1 & Et & Ee & Hf).
  exists s1. split; [exact E1|].
  split.
  - apply Ee. rewrite Et. vm_compute. discriminate.
  - intros s2 Hrun. destruct (Hf _ _ Hrun) as [Et2 Ee2].
    apply Ee2. rewrite Et2. vm_compute. discriminate.
Defined.

(** C10, as stated, fails once [Init] is called after activation: [Init]
    stores the type and the flag it is given without the test of
    [BeginPlay], and the frames that follow leave both as they are.  An
    activated capture configured again as a mirror with exit-in-front is a
    capture of a type other than [Portal] whose flag is true in every
    later frame. *)
Lemma Init_after_BeginPlay_counterexample :
  BeginPlay Scene.home Scene.configured = Some (tt, Scene.playing)
  /\ Init Mirror (Some 1%nat) true 1 Scene.playing
     = Some (tt, Scene.reconfigured)
  /\ m_type (this Scene.reconfigured) = Mirror
  /\ m_exit_in_front (this Scene.reconfigured) = true
  /\ (exists s2,
         run_frames
           [FrameUpdate Scene.home Scene.watcher Scene.identity_matrix;
            FrameRenderTarget Scene.home;
            FrameUpdate Scene.home Scene.near_watcher Scene.identity_matrix]
           Scene.reconfigured = Some (tt, s2)
         /\ m_type (this s2) = Mirror
         /\ m_exit_in_front (this s2) = true)
  /\ (forall (frames : list Frame) (s2 : State),
         run_frames frames Scene.reconfigured = Some (tt, s2) ->
         m_type (this s2) = Mirror /\ m_exit_in_front (this s2) = true).
Proof.
  split; [vm_compute; reflexivity|].
  split; [vm_compute; reflexivity|].
  split; [vm_compute; reflexivity|].
  split; [vm_compute; reflexivity|].
  split.
  { eexists. split; [vm_compute; reflexivity|].
    split; vm_compute; reflexivity. }
  intros frames s2 Hrun.
  pose proof (run_frames_keep_configuration frames _ _ _ Hrun) as Hk.
  unfold Configuration in Hk. injection Hk as Hkt Hke.
  rewrite Hkt, Hke. split; vm_compute; reflexivity.
Qed.

(** ** The per-frame update *)

Section Frames.

Context {engine : Engine} {decls : PortalDecls}.

Lemma ready_not_missing (w : UWorld) (s : State) (k : bool -> Method unit) :
  RenderTargetReady s ->
  (let* c := get_this in
   bind (match m_render_target c with
         | None => ret true
         | Some target =>
             let* o := load target in ret (IsNone (ObjectName o))
         end) k) s
  = k false s.
Proof.
  intros (q & o & Hq & Ho & Hn).
  unfold bind, get_this. rewrite Hq. unfold load. rewrite Ho.
  unfold ret. now rewrite Hn.
Qed.

Lemma missing_found (w : UWorld) (s : State) (k : bool -> Method unit) :
  RenderTargetMissing s ->
  (let* c := get_this in
   bind (match m_render_target c with
         | None => ret true
         | Some target =>
             let* o := load target in ret (IsNone (ObjectName o))
         end) k) s
  = k true s.
Proof.
  intros [Hq | (q & o & Hq & Ho & Hn)]; unfold bind, get_this; rewrite Hq.
  - reflexivity.
  - unfold load. rewrite Ho. unfold ret. now rewrite Hn.
Qed.

(** The owner cannot be resolved and the default target exists: the call
    changes nothing. *)
Lemma Update_skipped (w : UWorld) (watched : FTransform)
    (projection : FMatrix) (s : State) :
  m_owner (this s) = None -> Owner w = OtherActor ->
  RenderTargetReady s ->
  Update w watched projection s = Some (tt, s).
Proof.
  intros Hc Hw Hr.
  destruct (ResolveOwner_unresolved w (this s) Hc Hw) as [E1 E2].
  unfold Update. rewrite (ready_not_missing w s _ Hr).
  unfold bind at 1. cbn [ret].
  unfold bind. rewrite IsOwnerValid_run, E2, E1, with_this_same.
  reflexivity.
Qed.

(** The owner cannot be resolved and the default target is missing: the
    call only creates the default target. *)
Lemma Update_skipped_bootstrap (w : UWorld) (watched : FTransform)
    (projection : FMatrix) (s : State) :
  m_owner (this s) = None -> Owner w = OtherActor ->
  RenderTargetMissing s ->
  Update w watched projection s = Some (tt, Bootstrapped w s).
Proof.
  intros Hc Hw Hr.
  unfold Update. rewrite (missing_found w s _ Hr).
  unfold bind at 1. rewrite GenerateDefaultTexture_run.
  assert (Hc' : m_owner (this (Bootstrapped w s)) = None) by exact Hc.
  destruct (ResolveOwner_unresolved w _ Hc' Hw) as [E1 E2].
  unfold bind. rewrite IsOwnerValid_run, E2, E1, with_this_same.
  reflexivity.
Qed.

(** The owner is resolved and there is no linked portal: pose and clip
    plane are not computed, the rest of the frame runs. *)
Lemma Update_unlinked (w : UWorld) (watched : FTransform)
    (projection : FMatrix) (s : State) :
  RenderTargetReady s ->
  IsSet (m_owner (ResolveOwner w (this s))) = true ->
  m_linked_portal (ResolveOwner w (this s)) = None ->
  Update w watched projection s
  = Some (tt, Published projection (with_this (ResolveOwner w (this s)) s)).
Proof.
  intros Hr Hv Hl.
  unfold Update. rewrite (ready_not_missing w s _ Hr).
  unfold bind at 1. cbn [ret].
  unfold bind at 1. rewrite IsOwnerValid_run, Hv.
  unfold bind, get_this. cbn [this with_this]. rewrite Hl.
  reflexivity.
Qed.

(** The owner is resolved and there is a linked portal: the frame is the
    transformation step, the clip-plane step and the common tail. *)
Lemma Update_linked (w : UWorld) (watched : FTransform)
    (projection : FMatrix) (s s2 s3 : State) (l : nat) :
  RenderTargetReady s ->
  IsSet (m_owner (ResolveOwner w (this s))) = true ->
  m_linked_portal (ResolveOwner w (this s)) = Some l ->
  UpdateTransformation_Implementation w watched
    (with_this (ResolveOwner w (this s)) s) = Some (tt, s2) ->
  UpdateNearClipPlane_Implementation w s2 = Some (tt, s3) ->
  Update w watched projection s = Some (tt, Published projection s3).
Proof.
  intros Hr Hv Hl H2 H3.
  unfold Update. rewrite (ready_not_missing w s _ Hr).
  unfold bind at 1. cbn [ret].
  unfold bind at 1. rewrite IsOwnerValid_run, Hv.
  unfold bind at 1. unfold get_this at 1. cbn [this with_this]. rewrite Hl.
  unfold bind at 1. unfold bind at 1. rewrite H2.
  rewrite H3. reflexivity.
Qed.

End Frames.

(** ** Unresolved references *)

Section Unresolved.

Context {engine : Engine} {decls : PortalDecls}.

Lemma ResolveOwner_keeps {X} (member : UPortalSceneCapture -> X)
    (w : UWorld) (c : UPortalSceneCapture) :
  (forall p c, member (set_m_owner p c) = member c) ->
  member (ResolveOwner w c) = member c.
Proof.
  intros H. unfold ResolveOwner.
  destruct (m_owner c); [reflexivity|]. destruct (Owner w); auto.
Qed.

Lemma IsOwnerValid_retry (w : UWorld) (s : State) (id : nat) :
  m_owner (this s) = None -> Owner w = PortalActor id ->
  IsOwnerValid w s
  = Some (true, with_this (set_m_owner (Some id) (this s)) s).
Proof.
  intros Hc Hw. rewrite IsOwnerValid_run.
  unfold ResolveOwner. now rewrite Hc, Hw.
Qed.

(** C8, as the code has it. With the owner unresolved the frame is skipped:
    when the default render target exists the state is exactly as before,
    and when it is missing only that target is created (pose, clip plane,
    published target, projection and captures are as before); the owner
    stays unset, so a later call resolves it as soon as the owning actor is
    a portal.  With the owner resolved and no linked portal, pose and clip
    plane stay as they were, but the render target and the projection
    matrix are published and the scene is captured. *)
Theorem Update_with_unresolved_references (w : UWorld)
    (watched : FTransform) (projection : FMatrix) (s : State) :
  (m_owner (this s) = None -> Owner w = OtherActor ->
   (RenderTargetReady s -> Update w watched projection s = Some (tt, s))
   /\ (RenderTargetMissing s ->
       Update w watched projection s = Some (tt, Bootstrapped w s)
       /\ ComponentToWorld (this (Bootstrapped w s))
          = ComponentToWorld (this s)
       /\ ClipPlaneNormal (this (Bootstrapped w s))
          = ClipPlaneNormal (this s)
       /\ ClipPlaneBase (this (Bootstrapped w s)) = ClipPlaneBase (this s)
       /\ TextureTarget (this (Bootstrapped w s)) = TextureTarget (this s)
       /\ CustomProjectionMatrix (this (Bootstrapped w s))
          = CustomProjectionMatrix (this s)
       /\ Captures (Bootstrapped w s) = Captures s
       /\ m_owner (this (Bootstrapped w s)) = None)
   /\ (forall (w' : UWorld) (id : nat),
         Owner w' = PortalActor id ->
         IsOwnerValid w' s
         = Some (true, with_this (set_m_owner (Some id) (this s)) s)))
  /\ (RenderTargetReady s ->
      IsSet (m_owner (ResolveOwner w (this s))) = true ->
      m_linked_portal (ResolveOwner w (this s)) = None ->
      exists s',
        Update w watched projection s = Some (tt, s')
        /\ ComponentToWorld (this s') = ComponentToWorld (this s)
        /\ ClipPlaneNormal (this s') = ClipPlaneNormal (this s)
        /\ ClipPlaneBase (this s') = ClipPlaneBase (this s)
        /\ TextureTarget (this s') = m_render_target (this s)
        /\ CustomProjectionMatrix (this s') = projection
        /\ Captures s'
           = Captures s ++
             [ {| CapturePose := ComponentToWorld (this s);
                  CaptureProjection := projection;
                  CaptureTarget := m_render_target (this s);
                  CaptureClipNormal := ClipPlaneNormal (this s);
                  CaptureClipBase := ClipPlaneBase (this s) |} ]).
Proof.
  split.
  - intros Hc Hw. split; [|split].
    + now apply Update_skipped.
    + intros Hm. split; [now apply Update_skipped_bootstrap|].
      unfold Bootstrapped. cbn [this Captures].
      repeat (split; [reflexivity|]). exact Hc.
    + intros w' id Hw'. now apply IsOwnerValid_retry.
  - intros Hr Hv Hl. eexists.
    split; [now apply Update_unlinked|].
    unfold Published. cbn [this with_this Objects Captures].
    cbn [ComponentToWorld ClipPlaneNormal ClipPlaneBase TextureTarget
         CustomProjectionMatrix m_render_target
         set_CustomProjectionMatrix set_TextureTarget].
    rewrite !(ResolveOwner_keeps _ w (this s)) by reflexivity.
    repeat (split; [reflexivity|]). reflexivity.
Qed.

End Unresolved.

Lemma Update_with_unresolved_references_witness :
  Update Scene.astray Scene.watcher Scene.identity_matrix Scene.stranded
  = Some (tt, Scene.stranded)
  /\ exists s',
       Update Scene.home Scene.watcher Scene.identity_matrix Scene.unlinked
       = Some (tt, s')
       /\ ComponentToWorld (this s') = ComponentToWorld (this Scene.unlinked).
Proof.
  split.
  - destruct (proj1 (Update_with_unresolved_references Scene.astray
                       Scene.watcher Scene.identity_matrix Scene.stranded))
      as (E & _).
    + vm_compute. reflexivity.
    + reflexivity.
    + apply E. eexists _, _. vm_compute. repeat split.
  - destruct (proj2 (Update_with_unresolved_references Scene.home
                       Scene.watcher Scene.identity_matrix Scene.unlinked))
      as (s' & E & P & _).
    + eexists _, _. vm_compute. repeat split.
    + vm_compute. reflexivity.
    + vm_compute. reflexivity.
    + exists s'. split; [exact E | exact P].
Defined.

(** C8, as stated, fails when only the linked portal is unresolved: the
    capture has an owner and no linked portal, and the update still
    publishes the render target and captures the scene. *)
Lemma Update_unlinked_counterexample :
  IsSet (m_owner (this Scene.unlinked)) = true
  /\ m_linked_portal (this Scene.unlinked) = None
  /\ Captures Scene.unlinked = []
  /\ TextureTarget (this Scene.unlinked) = None
  /\ exists s',
       Update Scene.home Scene.watcher Scene.identity_matrix Scene.unlinked
       = Some (tt, s')
       /\ length (Captures s') = 1%nat
       /\ TextureTarget (this s') = Some 0%nat.
Proof.
  split; [vm_compute; reflexivity|].
  split; [vm_compute; reflexivity|].
  split; [vm_compute; reflexivity|].
  split; [vm_compute; reflexivity|].
  eexists. split; [vm_compute; reflexivity|].
  split; vm_compute; reflexivity.
Qed.

(** ** The total-reflection flag *)

Section Flag.

Context {engine : Engine} {decls : PortalDecls}.

(** With refraction computed, the flag after the step is the outcome of
    the total-reflection test, whatever it was before. *)
Lemma UpdateTransformation_sets_flag (w : UWorld) (s : State)
    (watched : FTransform) (owner : APortal) :
  PortalOf w (m_owner (ResolveOwner w (this s))) = Some owner ->
  Refracts (ResolveOwner w (this s)) = true ->
  exists pose,
    UpdateTransformation_Implementation w watched s
    = Some (tt,
            with_this
              (set_ComponentToWorld pose
                 (set_m_is_total_reflection
                    (TotallyReflects (ResolveOwner w (this s)) watched owner)
                    (ResolveOwner w (this s))))
              s).
Proof.
  intros Ho Hr.
  destruct (TotallyReflects (ResolveOwner w (this s)) watched owner) eqn:Ht.
  - eexists. apply (UpdateTransformation_total w s watched owner Ho Hr Ht).
  - eexists.
    apply (UpdateTransformation_refracted w s watched owner Ho Hr Ht).
Qed.

(** Without refraction the step does not write the flag. *)
Lemma UpdateTransformation_unbent_flag (w : UWorld) (s : State)
    (watched : FTransform) :
  IsSet (m_owner (ResolveOwner w (this s))) = true ->
  Refracts (ResolveOwner w (this s)) = false ->
  exists s',
    UpdateTransformation_Implementation w watched s = Some (tt, s')
    /\ ComponentToWorld (this s')
       = ComputeNewTransform watched w (m_owner (this s'))
           (ResolveOwner w (this s))
    /\ m_is_total_reflection (this s') = m_is_total_reflection (this s).
Proof.
  intros Hv Hr. eexists.
  split; [apply (UpdateTransformation_unbent w s watched Hv Hr)|].
  cbn [this with_this]. split; [reflexivity|].
  apply (ResolveOwner_keeps
           (fun c => m_is_total_reflection (set_ComponentToWorld _ c))).
  reflexivity.
Qed.

(** The clip-plane step returns when owner and linked portal are live. *)
Lemma UpdateNearClipPlane_returns (w : UWorld) (s : State) (o l : nat)
    (owner linked : APortal) :
  m_owner (this s) = Some o -> Portals w !! o = Some owner ->
  m_linked_portal (this s) = Some l -> Portals w !! l = Some linked ->
  exists normal base,
    UpdateNearClipPlane_Implementation w s
    = Some (tt, with_this
                  (set_ClipPlaneBase base
                     (set_ClipPlaneNormal normal (this s))) s).
Proof.
  intros Ho Hpo Hl Hpl.
  assert (Hs : IsSet (m_owner (this s)) = true) by now rewrite Ho.
  pose proof (ResolveOwner_set w (this s) Hs) as Er.
  assert (Ht : exists target,
             PortalOf w (TargetPortal (ResolveOwner w (this s)))
             = Some target).
  { rewrite Er. unfold TargetPortal.
    destruct (getType (this s)).
    - exists owner. now rewrite Ho.
    - exists linked. now rewrite Hl. }
  destruct Ht as [target Ht].
  eexists _, _.
  rewrite (UpdateNearClipPlane_run w s target); [|now rewrite Er|exact Ht].
  rewrite Er. reflexivity.
Qed.

(** Where the flag is recomputed.  In a frame that computes refraction
    (default target present, owner and linked portal live, true type not
    [Mirror], different indices) [Update] returns and the flag it leaves is
    the outcome of that frame's total-reflection test on the watched
    position, the owner's midpoint and normal and the two indices, whatever
    the flag was before.  In a frame skipped because the owner is
    unresolved the flag is what it was before. *)
Theorem total_reflection_flag_per_frame (w : UWorld) (watched : FTransform)
    (projection : FMatrix) (s : State) (o l : nat) (owner linked : APortal) :
  RenderTargetReady s ->
  (m_owner (ResolveOwner w (this s)) = Some o ->
   Portals w !! o = Some owner ->
   m_linked_portal (this s) = Some l ->
   Portals w !! l = Some linked ->
   GetTrueType (ResolveOwner w (this s)) <> Mirror ->
   ~ (m_refractive_ind_1 (this s) == m_refractive_ind_2 (this s))%Q ->
   exists s',
     Update w watched projection s = Some (tt, s')
     /\ m_is_total_reflection (this s')
        = Qeq_bool
            (ComputeRefractionAngle
               (ComputeIncidenceAngle (GetLocation watched)
                  (MiddlePoint owner) (ActorForwardVector owner))
               (m_refractive_ind_1 (this s)) (m_refractive_ind_2 (this s)))
            (-1))
  /\ (m_owner (this s) = None -> Owner w = OtherActor ->
      exists s',
        Update w watched projection s = Some (tt, s')
        /\ m_is_total_reflection (this s') = m_is_total_reflection (this s)).
Proof.
  intros Hready. split.
  - intros Ho Hpo Hl Hpl Ht Hn.
    set (c := ResolveOwner w (this s)) in *.
    assert (Hn1 : m_refractive_ind_1 c = m_refractive_ind_1 (this s))
      by (apply (ResolveOwner_keeps m_refractive_ind_1); reflexivity).
    assert (Hn2 : m_refractive_ind_2 c = m_refractive_ind_2 (this s))
      by (apply (ResolveOwner_keeps m_refractive_ind_2); reflexivity).
    assert (Hlc : m_linked_portal c = Some l).
    { unfold c. rewrite (ResolveOwner_keeps m_linked_portal) by reflexivity.
      exact Hl. }
    assert (Hset : IsSet (m_owner c) = true) by now rewrite Ho.
    assert (Hr : Refracts c = true).
    { apply Refracts_true; [exact Ht | now rewrite Hn1, Hn2]. }
    assert (Hc : ResolveOwner w (this (with_this c s)) = c)
      by (apply ResolveOwner_set; exact Hset).
    destruct (UpdateTransformation_sets_flag w (with_this c s) watched owner)
      as [pose E2].
    { rewrite Hc, Ho. exact Hpo. }
    { now rewrite Hc. }
    rewrite Hc in E2.
    destruct (UpdateNearClipPlane_returns w
                (with_this
                   (set_ComponentToWorld pose
                      (set_m_is_total_reflection
                         (TotallyReflects c watched owner) c))
                   (with_this c s))
                o l owner linked)
      as (normal & base & E3); try assumption.
    eexists. split.
    + apply (Update_linked w watched projection s _ _ l Hready Hset Hlc E2 E3).
    + cbn. unfold TotallyReflects, RefractionAngle, IncidenceAngle.
      now rewrite Hn1, Hn2.
  - intros Hc Hw. exists s. split; [|reflexivity].
    now apply Update_skipped.
Qed.

End Flag.

Lemma total_reflection_flag_per_frame_witness :
  (exists s',
      Update Scene.home Scene.watcher Scene.identity_matrix Scene.playing
      = Some (tt, s')
      /\ m_is_total_reflection (this s') = true)
  /\ (exists s',
         Update Scene.astray Scene.watcher Scene.identity_matrix
           Scene.stranded = Some (tt, s')
         /\ m_is_total_reflection (this s') = false).
Proof.
  assert (R1 : RenderTargetReady Scene.playing)
    by (eexists _, _; vm_compute; repeat split).
  assert (R2 : RenderTargetReady Scene.stranded)
    by (eexists _, _; vm_compute; repeat split).
  split.
  - destruct (proj1 (total_reflection_flag_per_frame Scene.home
                       Scene.watcher Scene.identity_matrix Scene.playing
                       0%nat 1%nat Scene.portal_here Scene.portal_there R1))
      as (s' & E & F).
    + vm_compute. reflexivity.
    + vm_compute. reflexivity.
    + vm_compute. reflexivity.
    + vm_compute. reflexivity.
    + vm_compute. discriminate.
    + vm_compute. discriminate.
    + exists s'. split; [exact E|]. rewrite F. vm_compute. reflexivity.
  - destruct (proj2 (total_reflection_flag_per_frame Scene.astray
                       Scene.watcher Scene.identity_matrix
                       Scene.stranded
                       0%nat 1%nat Scene.portal_here Scene.portal_there R2))
      as (s' & E & F).
    + vm_compute. reflexivity.
    + reflexivity.
    + exists s'. split; [exact E|]. rewrite F. vm_compute. reflexivity.
Defined.

(** C3 at the failing input. An activated portal capture between glass and
    air goes through a frame under total reflection, which raises the flag,
    and is then configured as a mirror by [Init]; a second capture is
    configured as a mirror by the same call without that frame.  The two
    have the same camera type, owner, linked portal and indices.  Both go
    through the same frame, with the same watched transform in the same
    world: the first comes out with the flag raised, the second with the
    flag lowered.  The flag of the earlier frame also outlasts any number
    of later frames and resizes. *)
Theorem total_reflection_flag_sticky :
  m_is_total_reflection (this Scene.playing) = false
  /\ Update Scene.home Scene.watcher Scene.identity_matrix Scene.playing
     = Some (tt, Scene.reflecting)
  /\ m_is_total_reflection (this Scene.reflecting) = true
  /\ Init Mirror (Some 1%nat) false 1 Scene.reflecting
     = Some (tt, Scene.remirrored)
  /\ Init Mirror (Some 1%nat) false 1 Scene.playing
     = Some (tt, Scene.mirrored)
  /\ Configuration (this Scene.remirrored)
     = Configuration (this Scene.mirrored)
  /\ GetTrueType (this Scene.remirrored) = Mirror
  /\ GetTrueType (this Scene.mirrored) = Mirror
  /\ m_owner (this Scene.remirrored) = m_owner (this Scene.mirrored)
  /\ m_linked_portal (this Scene.remirrored)
     = m_linked_portal (this Scene.mirrored)
  /\ m_refractive_ind_1 (this Scene.remirrored)
     = m_refractive_ind_1 (this Scene.mirrored)
  /\ m_refractive_ind_2 (this Scene.remirrored)
     = m_refractive_ind_2 (this Scene.mirrored)
  /\ (exists s1 s2,
         Update Scene.home Scene.watcher Scene.identity_matrix
           Scene.remirrored = Some (tt, s1)
         /\ Update Scene.home Scene.watcher Scene.identity_matrix
              Scene.mirrored = Some (tt, s2)
         /\ m_is_total_reflection (this s1) = true
         /\ m_is_total_reflection (this s2) = false)
  /\ (exists s3,
         run_frames
           [FrameUpdate Scene.home Scene.near_watcher Scene.identity_matrix;
            FrameRenderTarget Scene.home;
            FrameUpdate Scene.home Scene.watcher Scene.identity_matrix]
           Scene.remirrored = Some (tt, s3)
         /\ m_is_total_reflection (this s3) = true).
Proof.
  split; [vm_compute; reflexivity|].
  split; [vm_compute; reflexivity|].
  split; [vm_compute; reflexivity|].
  split; [vm_compute; reflexivity|].
  split; [vm_compute; reflexivity|].
  split; [vm_compute; reflexivity|].
  split; [vm_compute; reflexivity|].
  split; [vm_compute; reflexivity|].
  split; [vm_compute; reflexivity|].
  split; [vm_compute; reflexivity|].
  split; [vm_compute; reflexivity|].
  split; [vm_compute; reflexivity|].
  split.
  { eexists _, _.
    split; [vm_compute; reflexivity|].
    split; [vm_compute; reflexivity|].
    split; vm_compute; reflexivity. }
  eexists. split; vm_compute; reflexivity.
Qed.

(** C2 at the failing input. A portal capture between glass and air goes
    through a frame under total reflection, which raises the flag.  It is
    then configured as a mirror, or its indices are made equal.  The next
    transformation step hands the watched pose on unchanged, as claimed,
    but leaves the flag raised; so does the whole [Update]. *)
Theorem total_reflection_flag_left_raised :
  m_is_total_reflection (this Scene.playing) = false
  /\ m_is_total_reflection (this Scene.reflecting) = true
  /\ GetTrueType (this Scene.remirrored) = Mirror
  /\ (exists s',
         UpdateTransformation_Implementation Scene.home Scene.watcher
           Scene.remirrored = Some (tt, s')
         /\ ComponentToWorld (this s')
            = ComputeNewTransform Scene.watcher Scene.home
                (m_owner (this s')) (this Scene.remirrored)
         /\ m_is_total_reflection (this s') = true)
  /\ (exists s',
         Update Scene.home Scene.watcher Scene.identity_matrix
           Scene.remirrored = Some (tt, s')
         /\ m_is_total_reflection (this s') = true)
  /\ (m_refractive_ind_1 (this Scene.matched)
      == m_refractive_ind_2 (this Scene.matched))%Q
  /\ (exists s',
         UpdateTransformation_Implementation Scene.home Scene.watcher
           Scene.matched = Some (tt, s')
         /\ ComponentToWorld (this s')
            = ComputeNewTransform Scene.watcher Scene.home
                (m_owner (this s')) (this Scene.matched)
         /\ m_is_total_reflection (this s') = true).
Proof.
  split; [vm_compute; reflexivity|].
  split; [vm_compute; reflexivity|].
  split; [vm_compute; reflexivity|].
  split.
  { destruct (UpdateTransformation_unbent_flag Scene.home Scene.remirrored
                Scene.watcher) as (s' & E & P & F).
    - vm_compute. reflexivity.
    - vm_compute. reflexivity.
    - exists s'. split; [exact E|]. split.
      + rewrite P, (ResolveOwner_set Scene.home (this Scene.remirrored));
          [reflexivity | vm_compute; reflexivity].
      + rewrite F. vm_compute. reflexivity. }
  split.
  { eexists. split; [vm_compute; reflexivity|]. vm_compute. reflexivity. }
  split; [vm_compute; reflexivity|].
  destruct (UpdateTransformation_unbent_flag Scene.home Scene.matched
              Scene.watcher) as (s' & E & P & F).
  - vm_compute. reflexivity.
  - vm_compute. reflexivity.
  - exists s'. split; [exact E|]. split.
    + rewrite P, (ResolveOwner_set Scene.home (this Scene.matched));
        [reflexivity | vm_compute; reflexivity].
    + rewrite F. vm_compute. reflexivity.
Qed.

(** * Further properties *)

(** ** The steps of the render size *)

(** X1. Without a viewport the size steps down twice, between the
    distances 1431 and 1432 and between 1997 and 1998: it is 1024 up to
    1431, 512 from 1432 to 1997 and 256 from 1998 on.  At these four
    distances the computation rounded to binary32 gives the same sizes. *)
Theorem CalculateRenderSize_steps (w : UWorld) :
  KnownViewportSize w = None ->
  (forall d : Q, (d <= 1431)%Q -> CalculateRenderSize w d = 1024)
  /\ (forall d : Q,
        (1432 <= d)%Q -> (d <= 1997)%Q -> CalculateRenderSize w d = 512)
  /\ (forall d : Q, (1998 <= d)%Q -> CalculateRenderSize w d = 256)
  /\ map (fun d => Binary32.DistanceSize (Binary32.IntToFloat d))
       [1431; 1432; 1997; 1998]
     = [1024; 512; 512; 256].
Proof.
  intros Hv.
  assert (E : forall d, CalculateRenderSize w d = DistanceSize d).
  { intros d. rewrite CalculateRenderSize_unfold, Hv. reflexivity. }
  assert (E1 : DistanceSize 1431 = 1024) by (vm_compute; reflexivity).
  assert (E2 : DistanceSize 1432 = 512) by (vm_compute; reflexivity).
  assert (E3 : DistanceSize 1997 = 512) by (vm_compute; reflexivity).
  assert (E4 : DistanceSize 1998 = 256) by (vm_compute; reflexivity).
  split; [|split; [|split]].
  - intros d Hd. rewrite E.
    pose proof (DistanceSize_antitone _ _ Hd) as Hm.
    pose proof (DistanceSize_range d). lia.
  - intros d Hd1 Hd2. rewrite E.
    pose proof (DistanceSize_antitone _ _ Hd1) as Hu.
    pose proof (DistanceSize_antitone _ _ Hd2) as Hl.
    lia.
  - intros d Hd. rewrite E.
    pose proof (DistanceSize_antitone _ _ Hd) as Hu.
    pose proof (DistanceSize_range d). lia.
  - vm_compute. reflexivity.
Qed.

Lemma CalculateRenderSize_steps_witness :
  CalculateRenderSize (Scene.world OtherActor None) (2862 # 2) = 1024
  /\ CalculateRenderSize (Scene.world OtherActor None) (2865 # 2) = 512
  /\ CalculateRenderSize (Scene.world OtherActor None) 1998 = 256.
Proof.
  destruct (CalculateRenderSize_steps (Scene.world OtherActor None))
    as (H1 & H2 & H3 & _); [reflexivity|].
  split; [|split].
  - apply H1. vm_compute. discriminate.
  - apply H2; vm_compute; discriminate.
  - apply H3. vm_compute. discriminate.
Defined.

(** X2. Whatever the viewport, the size does not increase with the
    distance, and a known viewport never raises the size above the one the
    distance alone gives. *)
Theorem CalculateRenderSize_viewport_only_lowers (w : UWorld) :
  (forall d1 d2 : Q,
      (d1 <= d2)%Q -> CalculateRenderSize w d2 <= CalculateRenderSize w d1)
  /\ (forall d : Q,
        CalculateRenderSize w d
        <= CalculateRenderSize (WithoutViewport w) d).
Proof.
  split.
  - intros d1 d2 Hd. rewrite !CalculateRenderSize_unfold.
    pose proof (DistanceSize_antitone _ _ Hd) as Hm.
    destruct (KnownViewportSize w) as [v|]; [|exact Hm].
    rewrite !Clamp_Z. lia.
  - intros d.
    rewrite CalculateRenderSize_WithoutViewport, CalculateRenderSize_unfold.
    pose proof (DistanceSize_range d) as Hr.
    destruct (KnownViewportSize w) as [v|]; [|lia].
    rewrite Clamp_Z. unfold MinTextureSize. lia.
Qed.

Lemma CalculateRenderSize_viewport_only_lowers_witness :
  CalculateRenderSize (Scene.world OtherActor (Some Scene.wide_viewport)) 2000
  <= CalculateRenderSize (Scene.world OtherActor (Some Scene.wide_viewport))
       300.
Proof.
  apply (CalculateRenderSize_viewport_only_lowers
           (Scene.world OtherActor (Some Scene.wide_viewport))).
  vm_compute. discriminate.
Defined.

(** ** Properties kept by a method *)

Lemma bind_Some {T U} (c : Method T) (k : T -> Method U) (s s' : State)
    (y : U) :
  bind c k s = Some (y, s') ->
  exists x s1, c s = Some (x, s1) /\ k x s1 = Some (y, s').
Proof.
  unfold bind. destruct (c s) as [[x s1]|]; [|discriminate].
  intros E. now exists x, s1.
Qed.

Lemma Maintains_ret {T} (P : State -> Prop) (x : T) : Maintains P (ret x).
Proof. intros s y s' E. now inversion E. Qed.

Lemma Maintains_fault {T} (P : State -> Prop) : Maintains P (@fault T).
Proof. intros s y s' E. discriminate. Qed.

Lemma Maintains_bind {T U} (P : State -> Prop)
    (c : Method T) (k : T -> Method U) :
  Maintains P c -> (forall x, Maintains P (k x)) -> Maintains P (bind c k).
Proof.
  intros Hc Hk s y s' E HP.
  destruct (bind_Some _ _ _ _ _ E) as (x & s1 & Ec & Ek).
  exact (Hk x _ _ _ Ek (Hc _ _ _ Ec HP)).
Qed.

Lemma Maintains_get_this (P : State -> Prop) : Maintains P get_this.
Proof. intros s y s' E. now inversion E. Qed.

Lemma Maintains_load (P : State -> Prop) (p : nat) : Maintains P (load p).
Proof.
  intros s y s' E. unfold load in E.
  destruct (Objects s !! p); now inversion E.
Qed.

Lemma Maintains_portal_at (P : State -> Prop) (w : UWorld)
    (p : option nat) :
  Maintains P (portal_at w p).
Proof.
  unfold portal_at. destruct p as [id|]; [|apply Maintains_fault].
  destruct (Portals w !! id); [apply Maintains_ret | apply Maintains_fault].
Qed.

Lemma Maintains_assign (P : State -> Prop)
    (f : UPortalSceneCapture -> UPortalSceneCapture) :
  (forall s, P s -> P (with_this (f (this s)) s)) ->
  Maintains P (assign f).
Proof. intros Hf s y s' E. inversion E. apply Hf. Qed.

Lemma Maintains_NewObject (P : State -> Prop) (o : UTextureRenderTarget2D) :
  (forall s,
      P s ->
      P {| this := this s;
           Objects := <[fresh (dom (Objects s)) := o]> (Objects s);
           Captures := Captures s |}) ->
  Maintains P (NewObject o).
Proof. intros Hf s y s' E. inversion E. apply Hf. Qed.

Lemma Maintains_store (P : State -> Prop) (p : nat)
    (f : UTextureRenderTarget2D -> UTextureRenderTarget2D) :
  (forall s o,
      Objects s !! p = Some o ->
      P s ->
      P {| this := this s;
           Objects := <[p := f o]> (Objects s);
           Captures := Captures s |}) ->
  Maintains P (store p f).
Proof.
  intros Hf s y s' E. unfold store in E.
  destruct (Objects s !! p) as [o|] eqn:Eo; [|discriminate].
  inversion E. now apply Hf.
Qed.

Lemma Maintains_CaptureScene (P : State -> Prop) :
  (forall s,
      P s ->
      P {| this := this s;
           Objects := Objects s;
           Captures := Captures s ++ [CaptureOf (this s)] |}) ->
  Maintains P CaptureScene.
Proof. intros Hf s y s' E. inversion E. apply Hf. Qed.

Create HintDb maintains discriminated.

(** One step of the syntax-directed proof that a method maintains a
    property.  A write is accepted when the property reads the same before
    and after it; a call of a method is settled by a known fact about that
    method, or else by looking into its body. *)
Ltac maintains_step :=
  lazymatch goal with
  | |- Maintains _ (bind _ _) => apply Maintains_bind; [|intros ?]
  | |- Maintains _ (ret _) => apply Maintains_ret
  | |- Maintains _ fault => apply Maintains_fault
  | |- Maintains _ get_this => apply Maintains_get_this
  | |- Maintains _ (load _) => apply Maintains_load
  | |- Maintains _ (portal_at _ _) => apply Maintains_portal_at
  | |- Maintains _ (assign _) =>
      apply Maintains_assign; intros ? ?; assumption
  | |- Maintains _ (NewObject _) =>
      apply Maintains_NewObject; intros ? ?; assumption
  | |- Maintains _ (store _ _) =>
      apply Maintains_store; intros ? ? ? ?; assumption
  | |- Maintains _ CaptureScene =>
      apply Maintains_CaptureScene; intros ? ?; assumption
  | |- Maintains _ (if ?b then _ else _) => destruct b
  | |- Maintains _ (match ?x with _ => _ end) => destruct x
  | |- Maintains _ _ =>
      first
        [ solve [eauto with maintains]
        | progress unfold IsOwnerValid, SetOwnerIfAvailable,
            GenerateDefaultTexture, UpdateRenderTarget,
            UpdateTransformation_Implementation,
            UpdateNearClipPlane_Implementation, Update, run_frame ]
  end.

Ltac maintains := repeat maintains_step.

(** ** The sizes the component works with *)

Lemma pow2_between (j : Z) :
  0 <= j -> 256 <= 2 ^ j <= 1024 -> j = 8 \/ j = 9 \/ j = 10.
Proof.
  intros H0 [Hl Hu].
  assert (8 <= j).
  { destruct (Z_lt_le_dec j 8) as [Hlt|]; [|assumption].
    assert (2 ^ j <= 2 ^ 7) by (apply Z.pow_le_mono_r; lia).
    change (2 ^ 7) with 128 in *. lia. }
  assert (j <= 10).
  { destruct (Z_lt_le_dec 10 j) as [Hlt|]; [|assumption].
    assert (2 ^ 11 <= 2 ^ j) by (apply Z.pow_le_mono_r; lia).
    change (2 ^ 11) with 2048 in *. lia. }
  lia.
Qed.

Lemma StandardSize_pow (n : Z) :
  (exists j, 0 <= j /\ n = 2 ^ j) -> 256 <= n <= 1024 -> StandardSize n.
Proof.
  intros (j & Hj & ->) Hr.
  destruct (pow2_between j Hj Hr) as [-> | [-> | ->]]; unfold StandardSize;
    [left | right; left | right; right]; reflexivity.
Qed.

Lemma DistanceSize_standard (d : Q) : StandardSize (DistanceSize d).
Proof.
  apply StandardSize_pow; [|apply DistanceSize_range].
  destruct (DistanceSize_pow d) as (k & Hk & E).
  exists k. split; [lia | exact E].
Qed.

Lemma CalculateRenderSize_standard (w : UWorld) (d : Q) :
  StandardViewport w -> StandardSize (CalculateRenderSize w d).
Proof.
  unfold StandardViewport. rewrite CalculateRenderSize_unfold.
  destruct (KnownViewportSize w) as [v|]; [|intros _; apply DistanceSize_standard].
  intros [Hr Hb].
  destruct (ScreenMin_spec v Hr) as [Eb (j & Hj & Ej)].
  rewrite <- Eb in Hb. unfold MinTextureSize in *.
  pose proof (DistanceSize_range d) as Hd.
  destruct (DistanceSize_pow d) as (k & Hk & Ek).
  rewrite Clamp_Z.
  apply StandardSize_pow; [|lia].
  destruct (Z.max_spec (Z.min (DistanceSize d) (ScreenMin v)) 256)
    as [[_ ->]|[_ ->]].
  - exists 8. split; [lia | reflexivity].
  - destruct (Z.min_spec (DistanceSize d) (ScreenMin v)) as [[_ ->]|[_ ->]].
    + exists k. split; [lia | exact Ek].
    + exists j. split; [lia | exact Ej].
Qed.

(** Two of the sizes, or 0 and a size, are the same or more than 32
    apart. *)
Lemma standard_sizes_apart (desired cached : Z) :
  StandardSize desired -> cached = 0 \/ StandardSize cached ->
  (Z.abs (desired - cached) <= 32 <-> desired = cached).
Proof. unfold StandardSize. lia. Qed.

(** ** The render target across calls *)

Section Targets.

Context {engine : Engine}.

Lemma UpdateRenderTarget_keeps (w : UWorld) (s : State) :
  Z.abs (DesiredSize w s - CachedRenderSize (this s)) <= 32 ->
  UpdateRenderTarget w s = Some (tt, Measured w s).
Proof.
  intros Hd. apply keep_test in Hd. unfold DesiredSize in Hd.
  unfold UpdateRenderTarget, bind, get_this. rewrite Hd. reflexivity.
Qed.

Lemma UpdateRenderTarget_resizes (w : UWorld) (s : State) :
  32 < Z.abs (DesiredSize w s - CachedRenderSize (this s)) ->
  UpdateRenderTarget w s = Some (tt, Resized w s).
Proof.
  intros Hd. apply resize_test in Hd. unfold DesiredSize in Hd.
  unfold UpdateRenderTarget, bind, get_this. rewrite Hd.
  unfold NewObject. rewrite !store_fresh. reflexivity.
Qed.

Lemma UpdateRenderTarget_run (w : UWorld) (s : State) :
  UpdateRenderTarget w s
  = Some (tt,
          if Z.abs (DesiredSize w s - CachedRenderSize (this s)) <=? 32
          then Measured w s else Resized w s).
Proof.
  destruct (Z.leb_spec (Z.abs (DesiredSize w s - CachedRenderSize (this s)))
              32).
  - now apply UpdateRenderTarget_keeps.
  - now apply UpdateRenderTarget_resizes.
Qed.

(** X3. With a standard viewport (none, or both dimensions between 0 and
    2^30 and the smaller one at least 129, so that the clamp bound is at
    least 256) and a cached size that is 0 or one of the three sizes, the
    threshold of 32 never holds back a change of size:
    [UpdateRenderTarget] keeps the published target exactly when the
    desired size equals the cached size, and publishes a new target of the
    desired size whenever the two differ. *)
Theorem UpdateRenderTarget_replaces_iff_size_differs
    (w : UWorld) (s : State) :
  StandardViewport w -> StandardCached s ->
  (DesiredSize w s = CachedRenderSize (this s) ->
   exists s',
     UpdateRenderTarget w s = Some (tt, s')
     /\ TextureTarget (this s') = TextureTarget (this s)
     /\ CachedRenderSize (this s') = CachedRenderSize (this s)
     /\ Objects s' = Objects s)
  /\ (DesiredSize w s <> CachedRenderSize (this s) ->
      exists s' p o,
        UpdateRenderTarget w s = Some (tt, s')
        /\ Objects s !! p = None
        /\ TextureTarget (this s') = Some p
        /\ Objects s' !! p = Some o
        /\ SizeX o = DesiredSize w s
        /\ SizeY o = DesiredSize w s
        /\ CachedRenderSize (this s') = DesiredSize w s).
Proof.
  intros Hw Hc.
  pose proof (CalculateRenderSize_standard w (CameraDistance w s) Hw) as Hs.
  fold (DesiredSize w s) in Hs.
  pose proof (standard_sizes_apart _ _ Hs Hc) as Hiff.
  split; intros Hd.
  - exists (Measured w s).
    split; [apply UpdateRenderTarget_keeps; now apply Hiff|].
    repeat split; reflexivity.
  - exists (Resized w s), (fresh (dom (Objects s))),
      (ResizedTarget (DesiredSize w s)).
    split.
    { apply UpdateRenderTarget_resizes.
      destruct (Z_le_gt_dec
                  (Z.abs (DesiredSize w s - CachedRenderSize (this s))) 32)
        as [Hle|Hgt]; [|lia].
      apply Hiff in Hle. contradiction. }
    split; [apply fresh_object_unused|].
    split; [reflexivity|].
    split; [apply lookup_insert_eq|].
    repeat split; reflexivity.
Qed.

Lemma GenerateDefaultTexture_standard (w : UWorld) :
  StandardViewport w -> Maintains Sized (GenerateDefaultTexture w).
Proof.
  intros Hw s x s' E _. rewrite GenerateDefaultTexture_run in E.
  inversion E. apply CalculateRenderSize_standard, Hw.
Qed.

Lemma UpdateRenderTarget_standard (w : UWorld) :
  StandardViewport w -> Maintains Sized (UpdateRenderTarget w).
Proof.
  intros Hw s x s' E Hc. rewrite UpdateRenderTarget_run in E.
  destruct (_ <=? 32); inversion E.
  - exact Hc.
  - apply CalculateRenderSize_standard, Hw.
Qed.

End Targets.

#[local] Hint Resolve GenerateDefaultTexture_standard
  UpdateRenderTarget_standard : maintains.

Lemma UpdateRenderTarget_replaces_iff_size_differs_witness :
  (exists s',
      UpdateRenderTarget Scene.home Scene.initial = Some (tt, s')
      /\ CachedRenderSize (this s') = 1024)
  /\ (exists s',
         UpdateRenderTarget Scene.home Scene.playing = Some (tt, s')
         /\ TextureTarget (this s') = TextureTarget (this Scene.playing)).
Proof.
  split.
  - destruct (proj2 (UpdateRenderTarget_replaces_iff_size_differs
                       Scene.home Scene.initial I
                       (or_introl eq_refl)))
      as (s' & p & o & E & _ & _ & _ & _ & _ & C).
    + vm_compute. discriminate.
    + exists s'. split; [exact E|]. rewrite C. vm_compute. reflexivity.
  - destruct (proj1 (UpdateRenderTarget_replaces_iff_size_differs
                       Scene.home Scene.playing I
                       ltac:(right; right; right; vm_compute; reflexivity)))
      as (s' & E & T & _).
    + vm_compute. reflexivity.
    + exists s'. split; [exact E | exact T].
Defined.

Section CachedSize.

Context {engine : Engine} {decls : PortalDecls}.

Lemma Update_standard (w : UWorld) (watched : FTransform)
    (projection : FMatrix) :
  StandardViewport w -> Maintains Sized (Update w watched projection).
Proof. intros Hw. maintains. Qed.

Lemma run_frames_standard (fs : list Frame) :
  Forall (fun f => StandardViewport (FrameWorld f)) fs ->
  Maintains Sized (run_frames fs).
Proof.
  induction 1 as [|f fs Hf _ IH]; cbn [run_frames].
  - apply Maintains_ret.
  - apply Maintains_bind; [|intros _; exact IH].
    destruct f; cbn [run_frame FrameWorld] in *.
    + now apply Update_standard.
    + now apply UpdateRenderTarget_standard.
Qed.

Lemma Normalized_keeps_size (c : UPortalSceneCapture) :
  CachedRenderSize (Normalized c) = CachedRenderSize c.
Proof.
  unfold Normalized.
  destruct (negb _); cbn [m_weight set_m_exit_in_front];
    destruct (less _ _);
    cbn [m_linked_portal set_m_exit_in_front set_m_weight];
    destruct (m_linked_portal c); reflexivity.
Qed.

(** X4. The cached size is 0 only until activation: the constructor sets
    0, [BeginPlay] stores one of 256, 512 and 1024, and so does every later
    call of [Update] and [UpdateRenderTarget] that stores anything, in
    worlds with a standard viewport. *)
Theorem CachedRenderSize_is_standard (c : UPortalSceneCapture)
    (objects : gmap nat UTextureRenderTarget2D) (w : UWorld) :
  StandardViewport w ->
  CachedRenderSize (Construct c) = 0
  /\ exists s1,
       BeginPlay w
         {| this := Construct c; Objects := objects; Captures := [] |}
       = Some (tt, s1)
       /\ StandardSize (CachedRenderSize (this s1))
       /\ forall (frames : list Frame) (s2 : State),
            Forall (fun f => StandardViewport (FrameWorld f)) frames ->
            run_frames frames s1 = Some (tt, s2) ->
            StandardSize (CachedRenderSize (this s2)).
Proof.
  intros Hw. split; [reflexivity|].
  eexists. split; [apply BeginPlay_run|].
  assert (H1 : Sized
                 (with_this
                    (Normalized
                       (TakeOwner w
                          (this (Bootstrapped w
                                   {| this := Construct c;
                                      Objects := objects;
                                      Captures := [] |}))))
                    (Bootstrapped w
                       {| this := Construct c;
                          Objects := objects;
                          Captures := [] |}))).
  { unfold Sized. cbn [this with_this]. rewrite Normalized_keeps_size.
    unfold TakeOwner. destruct (Owner w);
      apply CalculateRenderSize_standard, Hw. }
  split; [exact H1|].
  intros frames s2 Hfs E2.
  exact (run_frames_standard frames Hfs _ _ _ E2 H1).
Qed.

End CachedSize.

Lemma CachedRenderSize_is_standard_witness :
  exists s1,
    BeginPlay Scene.home Scene.initial = Some (tt, s1)
    /\ forall s2,
         run_frames [FrameRenderTarget Scene.home] s1 = Some (tt, s2) ->
         StandardSize (CachedRenderSize (this s2)).
Proof.
  destruct (CachedRenderSize_is_standard
              (this Scene.initial) ∅ Scene.home I)
    as (_ & s1 & E & _ & H).
  exists s1. split; [exact E|].
  intros s2. apply H. repeat constructor.
Defined.

(** ** The shape of [Update] *)

Section Shape.

Context {engine : Engine} {decls : PortalDecls}.

Lemma Published_run (projection : FMatrix) (s : State) :
  (let* c := get_this in
   assign (set_TextureTarget (m_render_target c)) >>
   assign (set_CustomProjectionMatrix projection) >>
   CaptureScene) s
  = Some (tt, Published projection s).
Proof. reflexivity. Qed.

(** [Update] is its first statement, then the owner test, then the pose
    and clip-plane steps and the publishing tail. *)
Lemma Update_run (w : UWorld) (watched : FTransform) (projection : FMatrix)
    (s : State) :
  Update w watched projection s
  = match Prelude w s with
    | None => None
    | Some s0 =>
        if IsSet (m_owner (ResolveOwner w (this s0)))
        then
          match SolveStep w watched
                  (with_this (ResolveOwner w (this s0)) s0) with
          | Some (_, s3) => Some (tt, Published projection s3)
          | None => None
          end
        else Some (tt, with_this (ResolveOwner w (this s0)) s0)
    end.
Proof.
  assert (Tail : forall s0,
             (let* valid := IsOwnerValid w in
              if valid then
                let* c := get_this in
                (match m_linked_portal c with
                 | Some _ =>
                     UpdateTransformation_Implementation w watched >>
                     UpdateNearClipPlane_Implementation w
                 | None => ret tt
                 end) >>
                let* c := get_this in
                assign (set_TextureTarget (m_render_target c)) >>
                assign (set_CustomProjectionMatrix projection) >>
                CaptureScene
              else ret tt) s0
             = if IsSet (m_owner (ResolveOwner w (this s0)))
               then
                 match SolveStep w watched
                         (with_this (ResolveOwner w (this s0)) s0) with
                 | Some (_, s3) => Some (tt, Published projection s3)
                 | None => None
                 end
               else Some (tt, with_this (ResolveOwner w (this s0)) s0)).
  { intros s0. unfold bind at 1. rewrite IsOwnerValid_run.
    destruct (IsSet (m_owner (ResolveOwner w (this s0)))); [|reflexivity].
    unfold bind at 1. unfold get_this at 1.
    unfold SolveStep. cbn [this with_this].
    destruct (m_linked_portal (ResolveOwner w (this s0))).
    - unfold bind at 1.
      destruct (bind _ _ _) as [[[] s3]|]; [|reflexivity].
      apply Published_run.
    - unfold bind at 1. cbn [ret]. apply Published_run. }
  unfold Update, Prelude.
  unfold bind at 1. unfold get_this at 1.
  destruct (m_render_target (this s)) as [target|].
  - unfold bind at 1. unfold bind at 1. unfold load.
    destruct (Objects s !! target) as [o|]; [|reflexivity].
    cbn [ret]. unfold bind at 1.
    destruct (IsNone (ObjectName o)).
    + rewrite GenerateDefaultTexture_run. apply Tail.
    + cbn [ret]. apply Tail.
  - unfold bind at 1. cbn [ret]. unfold bind at 1.
    rewrite GenerateDefaultTexture_run. apply Tail.
Qed.

Lemma Bootstrapped_ready (w : UWorld) (s : State) :
  RenderTargetReady (Bootstrapped w s).
Proof.
  exists (fresh (dom (Objects s))),
    (DefaultTexture (CalculateRenderSize w (BootstrapDistance w (this s)))).
  split; [reflexivity|]. split; [apply lookup_insert_eq | reflexivity].
Qed.

Lemma Prelude_ready (w : UWorld) (s : State) :
  RenderTargetReady s -> Prelude w s = Some s.
Proof.
  intros (q & o & Hq & Ho & Hn). unfold Prelude. now rewrite Hq, Ho, Hn.
Qed.

Lemma Prelude_missing (w : UWorld) (s : State) :
  RenderTargetMissing s -> Prelude w s = Some (Bootstrapped w s).
Proof.
  intros [Hq | (q & o & Hq & Ho & Hn)]; unfold Prelude; rewrite Hq.
  - reflexivity.
  - now rewrite Ho, Hn.
Qed.

(** X5. A frame that finds the default render target missing creates it and
    then proceeds exactly as a frame that finds it in place: [Update] on
    the state gives what [Update] gives on the state with the target
    created, and the created target is never found missing again. *)
Theorem Update_recreates_missing_target (w : UWorld) (watched : FTransform)
    (projection : FMatrix) (s : State) :
  RenderTargetMissing s ->
  Update w watched projection s
  = Update w watched projection (Bootstrapped w s)
  /\ RenderTargetReady (Bootstrapped w s)
  /\ Objects s !! fresh (dom (Objects s)) = None
  /\ m_render_target (this (Bootstrapped w s))
     = Some (fresh (dom (Objects s))).
Proof.
  intros Hm.
  split.
  - rewrite !Update_run, (Prelude_missing w s Hm),
      (Prelude_ready w _ (Bootstrapped_ready w s)).
    reflexivity.
  - split; [apply Bootstrapped_ready|].
    split; [apply fresh_object_unused | reflexivity].
Qed.

End Shape.

Lemma Update_recreates_missing_target_witness :
  Update Scene.home Scene.watcher Scene.identity_matrix Scene.configured
  = Update Scene.home Scene.watcher Scene.identity_matrix
      (Bootstrapped Scene.home Scene.configured).
Proof.
  apply (Update_recreates_missing_target Scene.home Scene.watcher
           Scene.identity_matrix Scene.configured).
  left. vm_compute. reflexivity.
Defined.

(** ** What a frame does and does not do *)

Section FrameEffects.

Context {engine : Engine} {decls : PortalDecls}.

Lemma IsOwnerValid_owner_set (w : UWorld) :
  Maintains (fun s => IsSet (m_owner (this s)) = true) (IsOwnerValid w).
Proof.
  intros s x s' E HP. rewrite IsOwnerValid_run in E. inversion E.
  cbn [this with_this]. now rewrite ResolveOwner_set.
Qed.

Lemma IsOwnerValid_owner_is (w : UWorld) (o : option nat) :
  Maintains (fun s => IsSet (m_owner (this s)) = true
                      /\ m_owner (this s) = o) (IsOwnerValid w).
Proof.
  intros s x s' E [HP Ho]. rewrite IsOwnerValid_run in E. inversion E.
  cbn [this with_this]. now rewrite ResolveOwner_set.
Qed.

Hint Resolve IsOwnerValid_owner_set IsOwnerValid_owner_is : maintains.

Lemma SolveStep_maintains (P : State -> Prop) (w : UWorld)
    (watched : FTransform) :
  Maintains P (UpdateTransformation_Implementation w watched) ->
  Maintains P (UpdateNearClipPlane_Implementation w) ->
  Maintains P (SolveStep w watched).
Proof.
  intros H1 H2 s x s' E HP. unfold SolveStep in E.
  destruct (m_linked_portal (this s)).
  - revert E HP. apply Maintains_bind; [exact H1 | intros _; exact H2].
  - inversion E. subst. exact HP.
Qed.

Lemma SolveStep_owner_set (w : UWorld) (watched : FTransform) :
  Maintains (fun s => IsSet (m_owner (this s)) = true)
    (SolveStep w watched).
Proof. apply SolveStep_maintains; maintains. Qed.

Lemma SolveStep_captures (w : UWorld) (watched : FTransform)
    (l : list FSceneCapture) :
  Maintains (fun s => Captures s = l) (SolveStep w watched).
Proof. apply SolveStep_maintains; maintains. Qed.

Lemma Prelude_cases (w : UWorld) (s s0 : State) :
  Prelude w s = Some s0 -> s0 = s \/ s0 = Bootstrapped w s.
Proof.
  unfold Prelude. destruct (m_render_target (this s)) as [q|].
  - destruct (Objects s !! q) as [o|]; [|discriminate].
    destruct (IsNone (ObjectName o)); intros E; inversion E; auto.
  - intros E. inversion E. auto.
Qed.

(** The effects of a call of [Update] that returns. *)
Lemma Update_effects (w : UWorld)
    (watched : FTransform) (projection : FMatrix) (s s' : State) :
  Update w watched projection s = Some (tt, s') ->
  (IsSet (m_owner (this s')) = true ->
   TextureTarget (this s') = m_render_target (this s')
   /\ CustomProjectionMatrix (this s') = projection
   /\ Captures s' = Captures s ++ [CaptureOf (this s')])
  /\ (IsSet (m_owner (this s')) = false ->
      Captures s' = Captures s
      /\ TextureTarget (this s') = TextureTarget (this s)
      /\ CustomProjectionMatrix (this s') = CustomProjectionMatrix (this s)
      /\ ComponentToWorld (this s') = ComponentToWorld (this s)
      /\ ClipPlaneNormal (this s') = ClipPlaneNormal (this s)
      /\ ClipPlaneBase (this s') = ClipPlaneBase (this s)).
Proof.
  rewrite Update_run.
  destruct (Prelude w s) as [s0|] eqn:Ep; [|discriminate].
  assert (H0 : Captures s0 = Captures s
               /\ TextureTarget (this s0) = TextureTarget (this s)
               /\ CustomProjectionMatrix (this s0)
                  = CustomProjectionMatrix (this s)
               /\ ComponentToWorld (this s0) = ComponentToWorld (this s)
               /\ ClipPlaneNormal (this s0) = ClipPlaneNormal (this s)
               /\ ClipPlaneBase (this s0) = ClipPlaneBase (this s)).
  { destruct (Prelude_cases _ _ _ Ep) as [-> | ->];
      repeat split; reflexivity. }
  destruct H0 as (Hc & Ht & Hp & Hw & Hn & Hb).
  destruct (IsSet (m_owner (ResolveOwner w (this s0)))) eqn:Ev.
  - destruct (SolveStep w watched (with_this (ResolveOwner w (this s0)) s0))
      as [[[] s3]|] eqn:Es; [|discriminate].
    intros E. inversion E. subst s'.
    pose proof (SolveStep_owner_set w watched _ _ _ Es Ev) as Ho.
    pose proof (SolveStep_captures w watched _ _ _ _ Es eq_refl) as Hc3.
    cbn [Captures with_this] in Hc3.
    split.
    + intros _. split; [reflexivity|]. split; [reflexivity|].
      unfold Published. cbn [Captures]. now rewrite Hc3, Hc.
    + intros Hf. cbn in Hf. congruence.
  - intros E. inversion E. subst s'. cbn [this with_this Captures].
    split; [intros Hf; congruence|]. intros _.
    rewrite !(ResolveOwner_keeps _ w (this s0)) by reflexivity.
    repeat split; assumption.
Qed.

(** X6. Whenever [Update] returns, it has captured the scene exactly once if
    the owner is resolved afterwards and not at all otherwise.  The capture,
    when there is one, is taken with the component's pose and clip plane as
    the frame leaves them, with the given projection matrix, and with the
    default render target [m_render_target], which is also what the frame
    leaves published in [TextureTarget].  Without a resolved owner the
    published target, the projection matrix, the pose and the clip plane
    are as before. *)
Theorem Update_captures_once_with_default_target (w : UWorld)
    (watched : FTransform) (projection : FMatrix) (s s' : State) :
  Update w watched projection s = Some (tt, s') ->
  (IsSet (m_owner (this s')) = true ->
   TextureTarget (this s') = m_render_target (this s')
   /\ CustomProjectionMatrix (this s') = projection
   /\ Captures s' = Captures s ++ [CaptureOf (this s')])
  /\ (IsSet (m_owner (this s')) = false ->
      Captures s' = Captures s
      /\ TextureTarget (this s') = TextureTarget (this s)
      /\ CustomProjectionMatrix (this s') = CustomProjectionMatrix (this s)
      /\ ComponentToWorld (this s') = ComponentToWorld (this s)
      /\ ClipPlaneNormal (this s') = ClipPlaneNormal (this s)
      /\ ClipPlaneBase (this s') = ClipPlaneBase (this s)).
Proof. apply Update_effects. Qed.

(** X8. Called on its own, [UpdateNearClipPlane] does not test the linked
    portal as [Update] does: with the owner resolved, the camera type
    [Portal] and no linked portal it reads the forward vector through a
    null pointer (the call faults).  With the owner unresolved it returns
    and changes nothing. *)
Theorem UpdateNearClipPlane_without_target (w : UWorld) (s : State) :
  (IsSet (m_owner (ResolveOwner w (this s))) = true ->
   getType (ResolveOwner w (this s)) = Portal ->
   m_linked_portal (this s) = None ->
   UpdateNearClipPlane_Implementation w s = None)
  /\ (m_owner (this s) = None -> Owner w = OtherActor ->
      UpdateNearClipPlane_Implementation w s = Some (tt, s)).
Proof.
  split.
  - intros Hv Ht Hl.
    unfold UpdateNearClipPlane_Implementation, bind.
    rewrite IsOwnerValid_run, Hv. unfold get_this. cbn [this with_this].
    rewrite Ht. cbn [ECameraType_eqb].
    rewrite (ResolveOwner_keeps m_linked_portal) by reflexivity.
    rewrite Hl. reflexivity.
  - intros Hc Hw.
    destruct (ResolveOwner_unresolved w (this s) Hc Hw) as [E1 E2].
    unfold UpdateNearClipPlane_Implementation, bind.
    rewrite IsOwnerValid_run, E2, E1, with_this_same. reflexivity.
Qed.

End FrameEffects.

Lemma Update_captures_once_with_default_target_witness :
  Captures
    (Scene.after (Update Scene.home Scene.watcher Scene.identity_matrix)
       Scene.playing)
  = Captures Scene.playing
    ++ [CaptureOf
          (this (Scene.after
                   (Update Scene.home Scene.watcher Scene.identity_matrix)
                   Scene.playing))].
Proof.
  apply (Update_captures_once_with_default_target Scene.home Scene.watcher
           Scene.identity_matrix Scene.playing).
  - vm_compute. reflexivity.
  - vm_compute. reflexivity.
Defined.

Lemma UpdateNearClipPlane_without_target_witness :
  UpdateNearClipPlane_Implementation Scene.home Scene.unlinked = None
  /\ UpdateNearClipPlane_Implementation Scene.astray Scene.stranded
     = Some (tt, Scene.stranded).
Proof.
  split.
  - apply (UpdateNearClipPlane_without_target Scene.home Scene.unlinked);
      vm_compute; reflexivity.
  - apply (UpdateNearClipPlane_without_target Scene.astray Scene.stranded);
      vm_compute; reflexivity.
Defined.

Section TotalReflection.

Context {engine : Engine} {decls : PortalDecls}.

(** X9. Under total reflection (true type not [Mirror], different indices,
    refraction angle equal to the sentinel -1) the transformation step
    raises the flag and hands the watched pose to the portal transform
    unchanged; it writes nothing but the flag and the world transform. *)
Theorem UpdateTransformation_total_reflection (w : UWorld) (s : State)
    (watched : FTransform) (owner : APortal) :
  PortalOf w (m_owner (ResolveOwner w (this s))) = Some owner ->
  GetTrueType (ResolveOwner w (this s)) <> Mirror ->
  ~ (m_refractive_ind_1 (ResolveOwner w (this s))
     == m_refractive_ind_2 (ResolveOwner w (this s)))%Q ->
  (RefractionAngle (ResolveOwner w (this s)) watched owner == -1)%Q ->
  exists s',
    UpdateTransformation_Implementation w watched s = Some (tt, s')
    /\ m_is_total_reflection (this s') = true
    /\ ComponentToWorld (this s')
       = ComputeNewTransform watched w (m_owner (this s'))
           (set_m_is_total_reflection true (ResolveOwner w (this s)))
    /\ this s'
       = set_ComponentToWorld (ComponentToWorld (this s'))
           (set_m_is_total_reflection true (ResolveOwner w (this s)))
    /\ Objects s' = Objects s
    /\ Captures s' = Captures s.
Proof.
  intros Ho Ht Hn Hr.
  assert (Hb : Refracts (ResolveOwner w (this s)) = true)
    by now apply Refracts_true.
  assert (Hf : TotallyReflects (ResolveOwner w (this s)) watched owner
               = true).
  { unfold TotallyReflects. now apply Qeq_bool_iff. }
  eexists.
  split; [apply (UpdateTransformation_total w s watched owner Ho Hb Hf)|].
  cbn. repeat split; reflexivity.
Qed.

End TotalReflection.

Lemma UpdateTransformation_total_reflection_witness :
  exists s',
    UpdateTransformation_Implementation Scene.home Scene.watcher
      Scene.playing = Some (tt, s')
    /\ m_is_total_reflection (this s') = true.
Proof.
  destruct (UpdateTransformation_total_reflection Scene.home Scene.playing
              Scene.watcher Scene.portal_here)
    as (s' & E & F & _).
  - vm_compute. reflexivity.
  - vm_compute. discriminate.
  - vm_compute. discriminate.
  - vm_compute. reflexivity.
  - exists s'. split; [exact E | exact F].
Defined.

(** ** What lasts across frames *)

Section Lasting.

Context {engine : Engine} {decls : PortalDecls}.

Hint Resolve IsOwnerValid_owner_set IsOwnerValid_owner_is : maintains.

Lemma Prelude_cases_missing (w : UWorld) (s s0 : State) :
  Prelude w s = Some s0 ->
  s0 = s \/ (RenderTargetMissing s /\ s0 = Bootstrapped w s).
Proof.
  unfold Prelude, RenderTargetMissing.
  destruct (m_render_target (this s)) as [q|] eqn:Eq.
  - destruct (Objects s !! q) as [o|] eqn:Eo; [|discriminate].
    destruct (IsNone (ObjectName o)) eqn:En; intros E; inversion E; auto.
    right. split; [|reflexivity]. right. now exists q, o.
  - intros E. inversion E. auto.
Qed.

(** A property lasts through [Update] if it lasts through each of its four
    stages. *)
Lemma Update_maintains (P : State -> Prop) (w : UWorld)
    (watched : FTransform) (projection : FMatrix) :
  (forall s, P s -> RenderTargetMissing s -> P (Bootstrapped w s)) ->
  (forall s, P s -> P (with_this (ResolveOwner w (this s)) s)) ->
  Maintains P (SolveStep w watched) ->
  (forall s, P s -> P (Published projection s)) ->
  Maintains P (Update w watched projection).
Proof.
  intros Hboot Hres Hsolve Hpub s x s' E HP.
  rewrite Update_run in E.
  destruct (Prelude w s) as [s0|] eqn:Ep; [|discriminate].
  assert (HP0 : P s0).
  { destruct (Prelude_cases_missing _ _ _ Ep) as [-> | [Hm ->]]; auto. }
  destruct (IsSet (m_owner (ResolveOwner w (this s0)))).
  - destruct (SolveStep w watched (with_this (ResolveOwner w (this s0)) s0))
      as [[[] s3]|] eqn:Es; [|discriminate].
    inversion E. subst s'. apply Hpub.
    exact (Hsolve _ _ _ Es (Hres _ HP0)).
  - inversion E. subst s'. auto.
Qed.

Lemma run_frames_maintains (P : State -> Prop) (fs : list Frame) :
  (forall w t p, Maintains P (Update w t p)) ->
  (forall w, Maintains P (UpdateRenderTarget w)) ->
  Maintains P (run_frames fs).
Proof.
  intros Hu Hr. induction fs as [|f fs IH]; cbn [run_frames].
  - apply Maintains_ret.
  - apply Maintains_bind; [|intros _; exact IH].
    destruct f; cbn [run_frame]; auto.
Qed.

Lemma ResolveOwner_with (P : State -> Prop) (w : UWorld) (s : State) :
  (forall id, P s -> m_owner (this s) = None ->
              P (with_this (set_m_owner (Some id) (this s)) s)) ->
  P s -> P (with_this (ResolveOwner w (this s)) s).
Proof.
  intros H HP. unfold ResolveOwner.
  destruct (m_owner (this s)) eqn:Eo; [now rewrite with_this_same|].
  destruct (Owner w); [auto | now rewrite with_this_same].
Qed.

(** X10. Frames read the setup and never write it: after any sequence of
    calls of [Update] and [UpdateRenderTarget] the type, the linked
    portal, the exit-in-front flag, the weight and the two refractive
    indices are what they were.  The owner, once resolved, is never
    changed or cleared. *)
Theorem frames_keep_setup_and_owner (frames : list Frame) (s s' : State) :
  run_frames frames s = Some (tt, s') ->
  Setup (this s') = Setup (this s)
  /\ (IsSet (m_owner (this s)) = true -> m_owner (this s') = m_owner (this s)).
Proof.
  intros E. split.
  - assert (H : Maintains (fun s0 => Setup (this s0) = Setup (this s))
                  (run_frames frames)).
    { apply run_frames_maintains; intros; maintains. }
    exact (H _ _ _ E eq_refl).
  - intros Hs.
    assert (H : Maintains
                  (fun s0 => IsSet (m_owner (this s0)) = true
                             /\ m_owner (this s0) = m_owner (this s))
                  (run_frames frames)).
    { apply run_frames_maintains; intros; maintains. }
    exact (proj2 (H _ _ _ E (conj Hs eq_refl))).
Qed.

Lemma DefaultTargetIs_not_missing (q : nat) (o : UTextureRenderTarget2D)
    (s : State) :
  DefaultTargetIs q o s -> RenderTargetMissing s -> False.
Proof.
  intros (Hq & Ho & Hn) [Hm | (q' & o' & Hq' & Ho' & Hn')]; [congruence|].
  rewrite Hq in Hq'. inversion Hq'. subst q'. congruence.
Qed.

Lemma Update_default_target (q : nat) (o : UTextureRenderTarget2D)
    (w : UWorld) (t : FTransform) (p : FMatrix) :
  Maintains (DefaultTargetIs q o) (Update w t p).
Proof.
  apply Update_maintains.
  - intros s HP Hm. destruct (DefaultTargetIs_not_missing _ _ _ HP Hm).
  - intros s HP. apply ResolveOwner_with; [|exact HP]. intros; assumption.
  - apply SolveStep_maintains; maintains.
  - intros s HP. exact HP.
Qed.

Lemma UpdateRenderTarget_default_target (q : nat)
    (o : UTextureRenderTarget2D) (w : UWorld) :
  Maintains (DefaultTargetIs q o) (UpdateRenderTarget w).
Proof.
  intros s x s' E (Hq & Ho & Hn). rewrite UpdateRenderTarget_run in E.
  destruct (_ <=? 32); inversion E.
  - now split.
  - split; [exact Hq|]. split; [|exact Hn].
    cbn [Objects Resized]. rewrite lookup_insert_ne; [exact Ho|].
    intros Heq. rewrite <- Heq, fresh_object_unused in Ho. discriminate.
Qed.

(** X11. The default render target made at activation lasts: when
    [BeginPlay] returns, [m_render_target] points to a named square object
    of the cached size with blue clear colour, and after any sequence of
    frames the pointer is the same and the object behind it is the same
    object, unmodified.  So no later frame finds the target missing and
    creates it again. *)
Theorem default_target_lasts (w : UWorld) (s s1 : State) :
  BeginPlay w s = Some (tt, s1) ->
  exists q o,
    DefaultTargetIs q o s1
    /\ SizeX o = CachedRenderSize (this s1)
    /\ SizeY o = CachedRenderSize (this s1)
    /\ ClearColor o = LinearColor.Blue
    /\ forall (frames : list Frame) (s2 : State),
         run_frames frames s1 = Some (tt, s2) ->
         DefaultTargetIs q o s2 /\ RenderTargetReady s2.
Proof.
  intros Hb. rewrite BeginPlay_run in Hb.
  apply (f_equal (fun r => match r with
                           | Some (_, x) => x
                           | None => s1
                           end)) in Hb.
  subst s1.
  exists (fresh (dom (Objects s))),
    (DefaultTexture (CalculateRenderSize w (BootstrapDistance w (this s)))).
  assert (Hm : forall c, m_render_target (Normalized c) = m_render_target c).
  { intros c. unfold Normalized.
    destruct (negb _); cbn [m_weight set_m_exit_in_front];
      destruct (less _ _);
      cbn [m_linked_portal set_m_exit_in_front set_m_weight];
      destruct (m_linked_portal c); reflexivity. }
  assert (Hd : DefaultTargetIs (fresh (dom (Objects s)))
                 (DefaultTexture
                    (CalculateRenderSize w (BootstrapDistance w (this s))))
                 (with_this
                    (Normalized (TakeOwner w (this (Bootstrapped w s))))
                    (Bootstrapped w s))).
  { split; [|split].
    - cbn [this with_this]. rewrite Hm. unfold TakeOwner.
      destruct (Owner w); reflexivity.
    - apply lookup_insert_eq.
    - reflexivity. }
  split; [exact Hd|].
  split.
  { cbn [this with_this]. rewrite Normalized_keeps_size.
    unfold TakeOwner. destruct (Owner w); reflexivity. }
  split.
  { cbn [this with_this]. rewrite Normalized_keeps_size.
    unfold TakeOwner. destruct (Owner w); reflexivity. }
  split; [reflexivity|].
  intros frames s2 E.
  assert (H : Maintains
                (DefaultTargetIs (fresh (dom (Objects s)))
                   (DefaultTexture
                      (CalculateRenderSize w (BootstrapDistance w (this s)))))
                (run_frames frames)).
  { apply run_frames_maintains; intros.
    - apply Update_default_target.
    - apply UpdateRenderTarget_default_target. }
  pose proof (H _ _ _ E Hd) as Hd2.
  split; [exact Hd2|].
  destruct Hd2 as (Hq & Ho & Hn). eexists _, _.
  split; [exact Hq|]. split; [exact Ho | exact Hn].
Qed.

Lemma insert_fresh_grows (m0 m : gmap nat UTextureRenderTarget2D)
    (o : UTextureRenderTarget2D) :
  m0 ⊆ m -> m0 ⊆ <[fresh (dom m) := o]> m.
Proof.
  intros H. etrans; [exact H|].
  apply insert_subseteq, fresh_object_unused.
Qed.

(** X12. Frames only add render-target objects: every object that exists
    before a sequence of frames exists after it, behind the same handle
    and with the same properties.  A target is never resized or cleared in
    place and never removed. *)
Theorem frames_only_add_objects (frames : list Frame) (s s' : State) :
  run_frames frames s = Some (tt, s') ->
  Objects s ⊆ Objects s'
  /\ forall p o, Objects s !! p = Some o -> Objects s' !! p = Some o.
Proof.
  intros E.
  assert (H : Maintains (fun s0 => Objects s ⊆ Objects s0)
                (run_frames frames)).
  { apply run_frames_maintains.
    - intros w t p. apply Update_maintains.
      + intros s0 HP _. now apply insert_fresh_grows.
      + intros s0 HP. exact HP.
      + apply SolveStep_maintains; maintains.
      + intros s0 HP. exact HP.
    - intros w s0 x s0' E0 HP. rewrite UpdateRenderTarget_run in E0.
      destruct (_ <=? 32); inversion E0; [exact HP|].
      now apply insert_fresh_grows. }
  pose proof (H _ _ _ E (reflexivity _)) as Hsub.
  split; [exact Hsub|].
  intros p o Ho. exact (lookup_weaken _ _ _ _ Ho Hsub).
Qed.

End Lasting.

Lemma frames_keep_setup_and_owner_witness :
  m_owner
    (this (Scene.after
             (run_frames
                [FrameUpdate Scene.home Scene.watcher Scene.identity_matrix;
                 FrameRenderTarget Scene.home])
             Scene.playing))
  = Some 0%nat.
Proof.
  destruct (frames_keep_setup_and_owner
              [FrameUpdate Scene.home Scene.watcher Scene.identity_matrix;
               FrameRenderTarget Scene.home]
              Scene.playing
              (Scene.after
                 (run_frames
                    [FrameUpdate Scene.home Scene.watcher
                       Scene.identity_matrix;
                     FrameRenderTarget Scene.home])
                 Scene.playing))
    as [_ H].
  - vm_compute. reflexivity.
  - rewrite H; vm_compute; reflexivity.
Defined.

Lemma default_target_lasts_witness :
  RenderTargetReady
    (Scene.after
       (run_frames
          [FrameRenderTarget Scene.home;
           FrameUpdate Scene.home Scene.watcher Scene.identity_matrix])
       Scene.playing).
Proof.
  destruct (default_target_lasts Scene.home Scene.configured Scene.playing)
    as (q & o & _ & _ & _ & _ & H).
  - vm_compute. reflexivity.
  - apply (H [FrameRenderTarget Scene.home;
              FrameUpdate Scene.home Scene.watcher Scene.identity_matrix]).
    vm_compute. reflexivity.
Defined.

Lemma frames_only_add_objects_witness :
  Objects Scene.distant
  ⊆ Objects (Scene.after (run_frames [FrameRenderTarget Scene.home])
               Scene.distant).
Proof.
  apply (frames_only_add_objects [FrameRenderTarget Scene.home]
           Scene.distant).
  vm_compute. reflexivity.
Defined.

Section Composition.

Context {engine : Engine} {decls : PortalDecls}.

Hint Resolve IsOwnerValid_owner_set IsOwnerValid_owner_is : maintains.

(** The fix-ups of [BeginPlay] keep the owner, and fill a missing linked
    portal with it. *)
Lemma Normalized_pointers (c : UPortalSceneCapture) :
  m_owner (Normalized c) = m_owner c
  /\ m_linked_portal (Normalized c)
     = match m_linked_portal c with
       | Some l => Some l
       | None => m_owner c
       end.
Proof.
  destruct c as [ty li ow ex we]. unfold Normalized.
  cbn [m_type m_weight m_linked_portal m_owner set_m_exit_in_front].
  destruct (negb _);
    cbn [m_type m_weight m_linked_portal m_owner set_m_exit_in_front
         set_m_weight];
    destruct (less _ _);
    cbn [m_type m_weight m_linked_portal m_owner set_m_exit_in_front
         set_m_weight];
    destruct li; split; reflexivity.
Qed.

(** X13. A capture activated under a portal actor has its owner and its
    linked portal from then on: [BeginPlay] takes the owner from the
    owning actor, sets a missing linked portal to it, and no later frame
    changes either.  So after such an activation [Update] is skipped or
    runs without linked portal only if [Init] is called again. *)
Theorem activated_capture_is_linked (w : UWorld) (s : State) (id : nat) :
  Owner w = PortalActor id ->
  exists s1,
    BeginPlay w s = Some (tt, s1)
    /\ m_owner (this s1) = Some id
    /\ m_linked_portal (this s1)
       = match m_linked_portal (this s) with
         | Some l => Some l
         | None => Some id
         end
    /\ forall (frames : list Frame) (s2 : State),
         run_frames frames s1 = Some (tt, s2) ->
         m_owner (this s2) = Some id
         /\ m_linked_portal (this s2) = m_linked_portal (this s1)
         /\ IsSet (m_linked_portal (this s2)) = true.
Proof.
  intros Hw.
  pose proof (BeginPlay_run w s) as Hb.
  assert (Ht : TakeOwner w (this (Bootstrapped w s))
               = set_m_owner (Some id) (this (Bootstrapped w s))).
  { unfold TakeOwner. now rewrite Hw. }
  rewrite Ht in Hb.
  set (c0 := set_m_owner (Some id) (this (Bootstrapped w s))) in *.
  assert (Ho0 : m_owner c0 = Some id) by reflexivity.
  assert (Hl0 : m_linked_portal c0 = m_linked_portal (this s))
    by reflexivity.
  set (s0 := Bootstrapped w s) in *. clearbody c0 s0.
  assert (E : m_owner (Normalized c0) = Some id
              /\ m_linked_portal (Normalized c0)
                 = match m_linked_portal (this s) with
                   | Some l => Some l
                   | None => Some id
                   end).
  { rewrite <- Hl0, <- Ho0. apply Normalized_pointers. }
  destruct E as [Eo El].
  exists (with_this (Normalized c0) s0).
  split; [exact Hb|]. cbn [this with_this].
  split; [exact Eo|]. split; [exact El|].
  intros frames s2 E2.
  assert (H1 : Maintains
                 (fun s3 => IsSet (m_owner (this s3)) = true
                            /\ m_owner (this s3) = Some id)
                 (run_frames frames)).
  { apply run_frames_maintains; intros; maintains. }
  assert (H2 : Maintains
                 (fun s3 => m_linked_portal (this s3)
                            = m_linked_portal (Normalized c0))
                 (run_frames frames)).
  { apply run_frames_maintains; intros; maintains. }
  destruct (H1 _ _ _ E2) as [_ Ho2].
  { cbn [this with_this]. now rewrite Eo. }
  pose proof (H2 _ _ _ E2 eq_refl) as Hl2.
  split; [exact Ho2|]. split; [exact Hl2|].
  rewrite Hl2, El. now destruct (m_linked_portal (this s)).
Qed.

Lemma Update_owner_set (w : UWorld) (t : FTransform) (p : FMatrix) :
  Maintains (fun s => IsSet (m_owner (this s)) = true) (Update w t p).
Proof. maintains. Qed.

Lemma UpdateRenderTarget_owner_set (w : UWorld) :
  Maintains (fun s => IsSet (m_owner (this s)) = true)
    (UpdateRenderTarget w).
Proof. maintains. Qed.

(** X14. Captures are appended, never removed, and only by [Update]: after
    a sequence of frames the list of captures is the earlier list followed
    by at most one capture per [Update] frame, and by exactly one per
    [Update] frame when the owner was resolved at the start.
    [UpdateRenderTarget] never captures. *)
Theorem frames_capture_once_per_update (frames : list Frame)
    (s s' : State) :
  run_frames frames s = Some (tt, s') ->
  exists added,
    Captures s' = Captures s ++ added
    /\ (length added <= CountUpdates frames)%nat
    /\ (IsSet (m_owner (this s)) = true ->
        length added = CountUpdates frames).
Proof.
  revert s. induction frames as [|f fs IH]; intros s E.
  - inversion E. exists []. rewrite app_nil_r. auto.
  - cbn [run_frames] in E.
    destruct (bind_Some _ _ _ _ _ E) as ([] & s1 & E1 & E2).
    destruct (IH _ E2) as (added & Ha & Hle & Heq).
    destruct f as [w t p | w]; cbn [run_frame] in E1.
    + destruct (Update_effects w t p s s1 E1) as [Hset Hunset].
      pose proof (Update_owner_set w t p _ _ _ E1) as Hkeep.
      unfold CountUpdates in *. cbn [List.filter IsUpdate length].
      destruct (IsSet (m_owner (this s1))) eqn:Es1.
      * destruct (Hset eq_refl) as (_ & _ & Hc).
        exists (CaptureOf (this s1) :: added).
        rewrite Ha, Hc, <- app_assoc. cbn [app length].
        split; [reflexivity|]. split; [lia|].
        intros _. now rewrite Heq.
      * destruct (Hunset eq_refl) as (Hc & _).
        exists added. rewrite Ha, Hc.
        split; [reflexivity|]. split; [lia|].
        intros Hs. apply Hkeep in Hs. congruence.
    + rewrite UpdateRenderTarget_run in E1.
      assert (Hc : Captures s1 = Captures s
                   /\ m_owner (this s1) = m_owner (this s)).
      { destruct (_ <=? 32); inversion E1; split; reflexivity. }
      destruct Hc as [Hc Ho].
      unfold CountUpdates in *. cbn [List.filter IsUpdate].
      exists added. rewrite Ha, Hc.
      split; [reflexivity|]. split; [exact Hle|].
      rewrite <- Ho. exact Heq.
Qed.

Lemma Update_keeps_cached_size (q : nat) (o : UTextureRenderTarget2D)
    (n : Z) (w : UWorld) (t : FTransform) (p : FMatrix) :
  Maintains (fun s => DefaultTargetIs q o s /\ CachedRenderSize (this s) = n)
    (Update w t p).
Proof.
  apply Update_maintains.
  - intros s [HP _] Hm. destruct (DefaultTargetIs_not_missing _ _ _ HP Hm).
  - intros s HP. apply ResolveOwner_with; [|exact HP]. intros; assumption.
  - apply SolveStep_maintains; maintains.
  - intros s HP. exact HP.
Qed.

(** X15. The target [UpdateRenderTarget] publishes lasts only until the next
    [Update]: with the default target in place and a size change of more
    than 32, [UpdateRenderTarget] publishes a new object, and the next
    [Update] that returns with a resolved owner publishes the default
    target again and captures into it, while the cached size stays at the
    new size. *)
Theorem UpdateRenderTarget_publication_is_undone (w w' : UWorld)
    (t : FTransform) (p : FMatrix) (s s2 : State) (q : nat)
    (o : UTextureRenderTarget2D) :
  DefaultTargetIs q o s ->
  32 < Z.abs (DesiredSize w s - CachedRenderSize (this s)) ->
  Update w' t p (Resized w s) = Some (tt, s2) ->
  IsSet (m_owner (this s2)) = true ->
  UpdateRenderTarget w s = Some (tt, Resized w s)
  /\ TextureTarget (this (Resized w s)) = Some (fresh (dom (Objects s)))
  /\ fresh (dom (Objects s)) <> q
  /\ TextureTarget (this s2) = Some q
  /\ Captures s2 = Captures s ++ [CaptureOf (this s2)]
  /\ CaptureTarget (CaptureOf (this s2)) = Some q
  /\ CachedRenderSize (this s2) = DesiredSize w s.
Proof.
  intros Hd Hsz E Hs.
  assert (Hne : fresh (dom (Objects s)) <> q).
  { destruct Hd as (_ & Ho & _). intros Heq.
    rewrite <- Heq, fresh_object_unused in Ho. discriminate. }
  assert (Hd1 : DefaultTargetIs q o (Resized w s)
                /\ CachedRenderSize (this (Resized w s)) = DesiredSize w s).
  { split; [|reflexivity].
    destruct Hd as (Hq & Ho & Hn). split; [exact Hq|]. split; [|exact Hn].
    cbn [Objects Resized]. now rewrite lookup_insert_ne. }
  destruct (Update_keeps_cached_size q o _ w' t p _ _ _ E Hd1)
    as [(Hq2 & _) Hc2].
  destruct (proj1 (Update_effects w' t p _ _ E) Hs) as (Ht & _ & Hcap).
  split; [now apply UpdateRenderTarget_resizes|].
  split; [reflexivity|]. split; [exact Hne|].
  split; [now rewrite Ht|].
  split; [exact Hcap|].
  split; [|exact Hc2].
  cbn [CaptureTarget CaptureOf]. now rewrite Ht.
Qed.

End Composition.

Lemma activated_capture_is_linked_witness :
  exists s1,
    BeginPlay Scene.home (Scene.after (Init Mirror None true 1) Scene.initial)
    = Some (tt, s1)
    /\ m_linked_portal (this s1) = Some 0%nat.
Proof.
  destruct (activated_capture_is_linked Scene.home
              (Scene.after (Init Mirror None true 1) Scene.initial) 0%nat)
    as (s1 & E & _ & L & _); [reflexivity|].
  exists s1. split; [exact E|]. rewrite L. vm_compute. reflexivity.
Defined.

Lemma frames_capture_once_per_update_witness :
  length
    (Captures
       (Scene.after
          (run_frames
             [FrameRenderTarget Scene.home;
              FrameUpdate Scene.home Scene.watcher Scene.identity_matrix;
              FrameUpdate Scene.home Scene.near_watcher
                Scene.identity_matrix])
          Scene.playing))
  = (length (Captures Scene.playing) + 2)%nat.
Proof.
  destruct (frames_capture_once_per_update
              [FrameRenderTarget Scene.home;
               FrameUpdate Scene.home Scene.watcher Scene.identity_matrix;
               FrameUpdate Scene.home Scene.near_watcher
                 Scene.identity_matrix]
              Scene.playing
              (Scene.after
                 (run_frames
                    [FrameRenderTarget Scene.home;
                     FrameUpdate Scene.home Scene.watcher
                       Scene.identity_matrix;
                     FrameUpdate Scene.home Scene.near_watcher
                       Scene.identity_matrix])
                 Scene.playing))
    as (added & Ha & _ & H).
  - vm_compute. reflexivity.
  - rewrite Ha, length_app, H; vm_compute; reflexivity.
Defined.

Lemma UpdateRenderTarget_publication_is_undone_witness :
  TextureTarget
    (this (Scene.after
             (Update Scene.home Scene.watcher Scene.identity_matrix)
             (Resized Scene.home Scene.distant)))
  = m_render_target (this Scene.distant).
Proof.
  destruct (UpdateRenderTarget_publication_is_undone Scene.home Scene.home
              Scene.watcher Scene.identity_matrix Scene.distant
              (Scene.after
                 (Update Scene.home Scene.watcher Scene.identity_matrix)
                 (Resized Scene.home Scene.distant))
              0%nat
              (DefaultTexture 1024))
    as (_ & _ & _ & T & _).
  - vm_compute. repeat split.
  - vm_compute. reflexivity.
  - vm_compute. reflexivity.
  - vm_compute. reflexivity.
  - rewrite T. vm_compute. reflexivity.
Defined.
